(* ===== verification/_CoqProject ===== *)
-Q . S2P
Prelude.v
Text.v
Header.v
Columns.v
Describe.v
Inference.v
Shapiro.v
Frame.v
Csv.v
Correlation.v
Tests.v
Pipeline.v
