(* ===== verification/Prelude.v ===== *)
(** * A verification development for [src/bussiness_analysis.py]

    The program is one Python script (134 lines) that loads a sales table
    with pandas, detects which columns hold sales, region and product,
    prints descriptive statistics, draws two plots, runs three hypothesis
    tests with scipy and prints a 95% confidence interval and a verdict.
    All its steps share one in-memory table ([df]); each step reads the
    column names chosen by the detector and the sales column.  The
    library calls are modelled as pandas 2.x and scipy 1.14 or later
    compute them (the versions whose behaviour on small and degenerate
    inputs is written out below).

    ** Files, in dependency order

    - [Prelude] (this file): the Python exceptions the script can raise
      ([pyexn]), the [result] error monad with its notation
      [x <- c ;; k] in [bizstat_scope], the hint databases [bizstat] and
      [bizstat_rw], the tactic [inv_result], and generic list lemmas:
      the head of a list comprehension ([hd_filter_spec]), the
      partition of a list by keys ([concat_filter_partition]) and
      [map_nth_seq].
    - [Text]: [str.strip], [str.replace] on one character, [str.lower]
      and the substring test [in], on names as lists of Latin-1 code
      points ([list ascii]).
    - [Header], Module [Header]: the renaming of repeated header names
      done by the C parser of [pd.read_csv] ([TextReader._get_header]
      in pandas' [parsers.pyx]): the
      counters [counts] ([cget], [cset]), the inner [while] loop
      [mangle_loop] run on fuel, [mangle_cols] over the header and
      [mangle_header].
    - [Columns], Module [Detect]: line 20 ([normalize_name],
      [normalize_columns]) and lines 29-40 ([detect_sales],
      [detect_optional], [detect_columns]) with the fatal
      [Exception("No sales column found in dataset.")].
    - [Describe], Module [Stats]: lines 51-56 on the sales column as a
      [list Q]: [describe] (count, mean, min, the linear 25/50/75%
      quantiles, max), [mean], [median], [modes]/[mode0] ([mode()[0]]),
      [var] (ddof = 1).
    - [Inference]: scipy's t, F and normal distributions as the
      classes [TDist], [FDist] and [NormDist], and in a Section over
      them the one-sample test of line 92 ([t_div], [one_sample_t],
      [p_val_1]), the test of line 131 ([significant]), [std], [sem],
      [t_interval] ([t.interval] with its checks on the degrees of
      freedom and the scale) and [margin_error] (lines 56, 114-119).
    - [Shapiro], Module [Shapiro]: [stats.shapiro] of line 73 as scipy
      computes it (algorithm AS R94, [swilk.f]): the coefficients
      [swilk_coeffs] (exact for n = 3, else the polynomial corrections
      [c1], [c2] of Royston's normal scores), the statistic [sw_stat]
      ([W = 1 - W1] over the centred sorted sample [sw_input]), the
      p-value [sw_pw] (the exact law for n = 3, the log-normal
      approximations for 4 <= n <= 11 and n >= 12), the guard on a
      constant sample in [swilk], and [shapiro_test], which is
      [(nan, nan)] ([None]) below three values.
    - [Frame], Module [Frame]: the table as named columns of cells
      ([value]) and the pandas calls on it: [col_lookup]/[series]
      ([df[c]]), [is_numeric] (a column without rows has object
      dtype), [numeric_values], [py_unique] ([unique()]), [rows_where]
      (boolean selection), [group_keys]/[groupby_values] ([groupby]
      with sorted keys), [select_numeric].
    - [Csv], Module [Csv]: [pd.read_csv] of line 17 on the text of the
      file ([read_csv]): lines and fields ([csv_lines], [fields]), the
      row check ([check_body], [check_rows]), the header through
      [Header.mangle_header], the dtype of a cell ([classify],
      [int_literal], [parse_number]) and of a column ([convert_column]:
      int64, else uint64, else text for integer columns, [int_range_ok]);
      and a writer [to_csv].
    - [Correlation], Module [Corr]: [numeric_df.corr()] of line 81 as
      pandas computes it: Welford's one-pass recurrence ([w_step],
      [welford]) for one pair of columns ([nancorr]) and the matrix
      filled on its lower triangle and mirrored ([corr_matrix]).
    - [Tests]: Module [Anova], scipy's [f_oneway] with its guard on too
      small groups ([f_oneway_too_small]), its sums of squares
      ([f_oneway_ss]), the F statistic, its p-value ([anova_pvalue])
      and [product_groups], [product_test], [product_pvalue] (lines
      105-109); Module [Ttest], Student's [ttest_ind] ([ttest_var],
      whose variance of a one-value group is 0, [two_sample_t],
      [p_val_2]) and [region_test] (lines 96-102).
    - [Pipeline], Module [Pipeline]: the whole script as [run], in a
      monad [W] of printed lines ([line]) and a [result]; one step per
      section ([load], [detect], [sales_stats], [shapiro],
      [correlation], [hypothesis_tests], [interval], [report]), and
      [run_file]: line 17 on the text of the file, then [run].

    ** How the parts interact

    [Pipeline.run_file] reads the file with [Csv.read_csv] (which names
    the columns with [Header.mangle_header]) and runs [Pipeline.run] on
    the frame; an exception of the reader stops the script before any
    print.  [Pipeline.run] composes the steps in the order of the
    script: [load] normalises the headers with [Detect.normalize_name];
    [detect] calls [Detect.detect_columns]; [sales_stats] looks the
    sales column up ([Frame.col_lookup], [Frame.numeric_values]) and
    prints [Stats.describe], [mean], [median], [mode0] and [std];
    [shapiro] prints the p-value of [Shapiro.shapiro_test];
    [correlation] prints [Corr.corr_matrix] over [Frame.select_numeric];
    the tests use [p_val_1], [Ttest.region_test] (on [Frame.py_unique]
    and [Frame.rows_where]) and [Anova.product_pvalue] (on
    [Frame.groupby_values]); the interval and the report use
    [margin_error] and [significant].  Every exception stops the run
    with the lines printed so far.

    ** Theorems

    - C1-C4 (Columns): first-match detection, the fatal error exactly
      when no header matches, detection on the raw headers, and the
      names normalisation leaves unchanged (stripped, without blanks or
      capitals).
    - C5-C9 (Describe): median = 50% quantile; every quantile row is
      the linear interpolation between two neighbouring order
      statistics; [mode()[0]] is the least most frequent value,
      [KeyError] exactly on an empty column; the variance is zero
      exactly on constant columns.
    - C10-C12 (Inference): the one-sample test against the sample's own
      mean is never significant; the margin of error is
      [sem * t.ppf(0.975, n - 1)] when the standard error is positive
      and NaN otherwise; it shrinks with [n].
    - C13-C14 (Frame): the two region groups of lines 99-100; the
      [groupby] groups partition the sales column.
    - C15-C17, C27 (Tests): scipy's sums of squares are the textbook
      ones; the pooled t statistic is the textbook one; the region
      test's p-value is NaN exactly when both regions have one row or
      all their sales are equal; non-empty groups with equal means give
      F = 0 and the ANOVA p-value 1.
    - C18-C22, C28 (Pipeline): the run on a table without a sales
      column; the verdict is never "significant"; the NaN p-value of
      Shapiro-Wilk on one or two rows, the [TypeError] of a text sales
      column, the object [describe] and [KeyError] of an empty table;
      on a well-formed table (one numeric sales column of three rows or
      more, single region and product columns) the run completes and
      ends with the verdict.
    - C23-C26 (Correlation): Welford's one-pass [nancorr] equals the
      two-pass Pearson coefficient; coefficients lie in [-1, 1]; the
      mirrored matrix is the full pairwise matrix; the diagonal is 1,
      or NaN on a constant column.
    - C29-C30 (Header): the renaming loop ends on every header (the
      fuel is always enough); the names it returns are distinct, each
      is its input name or that name with a suffix [.j], and distinct
      names are kept.
    - C31-C32 (Csv): a column of integer literals is int64 or uint64
      exactly when its values fit one of them, and text otherwise;
      [EmptyDataError] on a file without a line and [ParserError] on a
      row longer than the header.
    - C33-C35 (Shapiro): the statistic and the p-value of line 73 lie
      in [0, 1], with [W = 1] on a sample of negligible range and
      [W = (sum a x)^2 / (sum a^2 * sum x^2)] otherwise; on three
      values the closed form of [W], and the p-value 1 exactly when
      they are equally spaced and 0 exactly when two coincide; the
      p-value grows with [W].

    ** Modelling choices

    Numbers are exact rationals [Q] (no floating-point rounding); a
    float NaN is [None] or a dedicated constructor ([TNaN], [PNaN],
    [FNaN]); real-valued results (square roots, t quantiles) are in [R].
    Student's t distribution is a contract ([TDist]: [sf(0) = 1/2], the
    quantile is odd around 1/2, positive above it and decreasing in the
    degrees of freedom) with a model [toy_tdist] that shows it is
    consistent; the F distribution is the contract [FDist] (its
    survival function is a probability, 1 at 0) with the model
    [toy_fdist], and the normal distribution the contract [NormDist]
    (its quantile is negative below 1/2, its survival function a
    probability that decreases) with the model [toy_normdist]; the
    theorems hold for every model.  The library's own guards are
    written out where they decide the printed value: [t.sf] and
    [t.ppf] are NaN at 0 degrees of freedom, [t.interval] needs a
    positive scale, [ttest_ind] gives a one-value group variance 0,
    [f_oneway] is NaN when a group is empty or every group has one
    value, and [shapiro] is [(nan, nan)] below three values.  In
    [Shapiro], scipy's float NaN results are [None], and [ppnd]'s
    normal scores are [norm_ppf].  All recursion is structural
    (sorting is the Standard Library's merge sort) except the [while]
    loop of [Header.mangle_loop], which runs on fuel: [mangle_cols]
    gives it two iterations more than there are names, which is enough
    because each iteration that goes on visits a suffix not yet in the
    header and the header has fewer names than that ([unvisited]
    decreases), as C29 shows.  Every definition runs by [vm_compute].
    [Csv.read_csv] answers [None] for a file outside the fragment it
    models (see Csv), so every answer it gives is the one pandas gives.

    ** Not modelled

    Opening and decoding the file; outside the fragment of [Csv]:
    quoted fields, missing values (NA strings, short rows padded with
    NaN), an implicit index, floats with exponents, [inf] and [nan],
    decimals with an integer literal out of int64 (read as float by
    pandas), and the [low_memory] chunks of large files with mixed
    columns; the plots (lines 67-71, 83-85), which are graphical output
    only; the normal, t and F distributions themselves (only their
    contracts: their series expansions are numerical code of scipy,
    not of the script); the float rounding of Shapiro-Wilk's
    polynomials (they are evaluated in [R]) and scipy's warning on a
    sample of more than 5000 values, which does not change the result;
    and the formatting of printed numbers. *)

From Stdlib Require Import Bool Ascii String List Lia Permutation.
Import ListNotations.

(** ** Python exceptions raised by the script *)

(** The exceptions that stop the script.  [PyException] is the explicit
    [raise Exception(...)] of line 31; the others are raised by the pandas
    and scipy calls on inputs they reject ([AttributeError]: a frame
    where a series is expected; [EmptyDataError] and [ParserError]:
    [pd.read_csv] on a file without a line or with a row longer than
    the header). *)
Inductive pyexn : Type :=
| PyException (msg : string)
| PyIndexError
| PyKeyError
| PyTypeError
| PyValueError
| PyAttributeError
| PyEmptyDataError
| PyParserError.

(** A computation of the script either returns a value or raises. *)
Inductive result (A : Type) : Type :=
| Ok (a : A)
| Raise (e : pyexn).
Arguments Ok {A} a.
Arguments Raise {A} e.

Definition result_bind {A B : Type} (r : result A) (k : A -> result B) : result B :=
  match r with
  | Ok a => k a
  | Raise e => Raise e
  end.

Definition result_map {A B : Type} (f : A -> B) (r : result A) : result B :=
  result_bind r (fun a => Ok (f a)).

Declare Scope bizstat_scope.
Delimit Scope bizstat_scope with biz.
Notation "x <- c ;; k" := (result_bind c (fun x => k))
  (at level 61, c at next level, right associativity) : bizstat_scope.

(** ** Automation *)

Create HintDb bizstat.
Create Rewrite HintDb bizstat_rw.

Lemma result_bind_Ok {A B} (a : A) (k : A -> result B) :
  result_bind (Ok a) k = k a.
Proof. reflexivity. Qed.

Lemma result_bind_Raise {A B} e (k : A -> result B) :
  result_bind (Raise e) k = Raise e.
Proof. reflexivity. Qed.

#[export] Hint Rewrite @result_bind_Ok @result_bind_Raise : bizstat_rw.

Lemma result_bind_eq_Ok {A B} (r : result A) (k : A -> result B) b :
  result_bind r k = Ok b -> exists a, r = Ok a /\ k a = Ok b.
Proof. destruct r; simpl; intros H; [eauto | discriminate]. Qed.

(** [inv_result] splits the hypotheses [result_bind r k = Ok b] and
    removes the impossible [Raise _ = Ok _]. *)
Ltac inv_result :=
  repeat match goal with
  | H : result_bind _ _ = Ok _ |- _ =>
      let a := fresh "a" in let Ha := fresh "Ha" in
      apply result_bind_eq_Ok in H; destruct H as [a [Ha H]]
  | H : Ok _ = Ok _ |- _ => injection H as H; subst
  | H : Raise _ = Ok _ |- _ => discriminate H
  | H : Ok _ = Raise _ |- _ => discriminate H
  end.

(** ** The first element of a list comprehension

    [[c for c in l if p(c)][0]]: the head of [filter p l] is the first
    element of [l] that satisfies [p]. *)

Lemma filter_nil_iff {A} (p : A -> bool) (l : list A) :
  filter p l = [] <-> forall x, In x l -> p x = false.
Proof.
  induction l as [|a l IH]; simpl; [tauto|].
  destruct (p a) eqn:Ha; split.
  - discriminate.
  - intros H. rewrite (H a (or_introl eq_refl)) in Ha. discriminate.
  - intros H x [<-|Hx]; [exact Ha | apply IH; auto].
  - intros H. apply IH. auto.
Qed.

Lemma hd_filter_spec {A} (p : A -> bool) (l : list A) x rest :
  filter p l = x :: rest <->
  exists pre post, l = pre ++ x :: post /\ p x = true /\
    forallb (fun y => negb (p y)) pre = true /\ filter p post = rest.
Proof.
  revert rest; induction l as [|a l IH]; intros rest; simpl.
  - split; [discriminate|]. intros (pre & post & H & _).
    destruct pre; discriminate.
  - destruct (p a) eqn:Ha; split.
    + intros H. injection H as <- <-. exists [], l. auto.
    + intros (pre & post & Hl & Hx & Hpre & Hpost).
      destruct pre as [|b pre]; simpl in *.
      * injection Hl as -> ->. congruence.
      * injection Hl as -> ->. rewrite Ha in Hpre. discriminate.
    + intros H. apply IH in H as (pre & post & -> & Hx & Hpre & Hpost).
      exists (a :: pre), post. simpl. rewrite Ha. auto.
    + intros (pre & post & Hl & Hx & Hpre & Hpost).
      destruct pre as [|b pre]; simpl in *.
      * injection Hl as -> ->. congruence.
      * injection Hl as -> ->. apply IH. exists pre, post.
        apply andb_prop in Hpre as [_ Hpre]. auto.
Qed.

Lemma in_filter_hd {A} (p : A -> bool) (l : list A) x rest :
  filter p l = x :: rest -> In x l /\ p x = true.
Proof.
  intros H. apply (proj1 (filter_In p x l)). rewrite H. left. reflexivity.
Qed.

(** Two maps over the same list are pointwise related. *)
Lemma Forall2_map_same {A B C} (R : B -> C -> Prop) (f : A -> B) (g : A -> C) l :
  (forall x, In x l -> R (f x) (g x)) -> Forall2 R (map f l) (map g l).
Proof.
  induction l as [|a l IH]; simpl; intros H; constructor; auto.
Qed.


(** Two decompositions [pre ++ x :: post] around a first match agree. *)
Lemma list_eq_first_match {A} (p : A -> bool) pre x post pre' x' post' :
  pre ++ x :: post = pre' ++ x' :: post' ->
  p x = true -> p x' = true ->
  (forall y, In y pre -> p y = false) -> (forall y, In y pre' -> p y = false) ->
  x = x' /\ pre = pre'.
Proof.
  revert pre'. induction pre as [|a pre IH]; intros [|b pre'] Heq Hx Hx' H H';
    simpl in *; injection Heq as E Heq.
  - auto.
  - rewrite E, (H' b (or_introl eq_refl)) in Hx. discriminate.
  - rewrite <- E, (H a (or_introl eq_refl)) in Hx'. discriminate.
  - destruct (IH pre' Heq Hx Hx') as [-> ->]; [auto | auto |].
    split; [reflexivity | congruence].
Qed.

(** ** Partitions of a list by keys

    Filtering a list once per key, for keys such that every element is
    selected by exactly one of them, rearranges the list. *)

(** Mapping over the indices of a list is mapping over the list. *)
Lemma map_nth_seq {A B} (g : A -> B) (l : list A) (d : A) :
  map (fun i => g (nth i l d)) (seq 0 (length l)) = map g l.
Proof.
  induction l as [|a l IH]; [reflexivity|]. simpl. f_equal.
  rewrite <- seq_shift, map_map. exact IH.
Qed.

Lemma concat_map_nil {A K} (ks : list K) :
  List.concat (map (fun _ => @nil A) ks) = [].
Proof. induction ks; simpl; auto. Qed.

Lemma concat_filter_partition {A K} (p : K -> A -> bool) (ks : list K) (l : list A) :
  (forall x, In x l -> exists ks1 k ks2, ks = ks1 ++ k :: ks2 /\ p k x = true /\
     forall k', In k' (ks1 ++ ks2) -> p k' x = false) ->
  Permutation (List.concat (map (fun k => filter (p k) l) ks)) l.
Proof.
  induction l as [|x l IH]; intros H.
  - simpl. rewrite concat_map_nil. constructor.
  - destruct (H x (or_introl eq_refl)) as (ks1 & k & ks2 & -> & Hk & Hother).
    assert (E : forall k', In k' (ks1 ++ ks2) -> filter (p k') (x :: l) = filter (p k') l)
      by (intros k' Hk'; simpl; rewrite (Hother k' Hk'); reflexivity).
    rewrite map_app, concat_app. simpl map. simpl List.concat. simpl filter at 2. rewrite Hk.
    rewrite (map_ext_in _ (fun k' => filter (p k') l) ks1)
      by (intros; apply E, in_or_app; left; assumption).
    rewrite (map_ext_in _ (fun k' => filter (p k') l) ks2)
      by (intros; apply E, in_or_app; right; assumption).
    simpl app. rewrite <- Permutation_middle. constructor.
    specialize (IH (fun y Hy => H y (or_intror Hy))).
    rewrite map_app, concat_app in IH. exact IH.
Qed.

(** How many elements a predicate selects is invariant under permutation. *)
Lemma Permutation_filter_length {A} (f : A -> bool) (l l' : list A) :
  Permutation l l' -> length (filter f l) = length (filter f l').
Proof.
  induction 1; simpl; auto.
  - destruct (f x); simpl; auto.
  - destruct (f x), (f y); reflexivity.
  - congruence.
Qed.

(** Two predicates that never hold together select at most the list. *)
Lemma filter_disjoint_length {A} (f g : A -> bool) (l : list A) :
  (forall x, In x l -> f x = true -> g x = false) ->
  length (filter f l) + length (filter g l) <= length l.
Proof.
  induction l as [|x l IH]; intros H; simpl; [lia|].
  specialize (IH (fun y Hy => H y (or_intror Hy))).
  destruct (f x) eqn:Fx; [rewrite (H x (or_introl eq_refl) Fx)|]; destruct (g x); simpl; lia.
Qed.
