(* ===== verification/Text.v ===== *)
(** * Python string operations used on column names

    Line 20 of [src/bussiness_analysis.py] applies [str.strip()],
    [str.replace(" ", "_")] and [str.lower()] to every header, and lines
    29-39 test keywords with the substring operator [in].  A Python [str]
    is modelled as a [list ascii] read as Latin-1 code points
    (0-255); [py_isspace] and [py_lower] are CPython's tables restricted
    to that range.  The file proves the characterisation of [contains]
    by an occurrence [s = a ++ p ++ b] and the "noise" lemmas that let a
    keyword survive stripping and character replacement. *)

From Stdlib Require Import List Bool Ascii String Arith Lia.
From S2P Require Import Prelude.
Import ListNotations.

(** A Python string of code points below 256. *)
Definition pystr := list ascii.

(** [str.isspace] on one code point: CPython's [_Py_ascii_whitespace]
    (tab, LF, VT, FF, CR, the separators 0x1C-0x1F, space) and the two
    Latin-1 spaces NEL (0x85) and NBSP (0xA0). *)
Definition py_isspace (c : ascii) : bool :=
  let n := nat_of_ascii c in
  ((9 <=? n) && (n <=? 13)) || ((28 <=? n) && (n <=? 32))
  || (n =? 133) || (n =? 160).

(** [str.lower] on one code point: A-Z and the Latin-1 capitals
    U+00C0-U+00DE except the multiplication sign U+00D7 move up by 32. *)
Definition is_upper (c : ascii) : bool :=
  let n := nat_of_ascii c in
  ((65 <=? n) && (n <=? 90)) || ((192 <=? n) && (n <=? 222) && negb (n =? 215)).

Definition py_lower_char (c : ascii) : ascii :=
  if is_upper c then ascii_of_nat (nat_of_ascii c + 32) else c.

Definition py_lower (s : pystr) : pystr := map py_lower_char s.

(** [str.lstrip()]: drop leading whitespace. *)
Fixpoint py_lstrip (s : pystr) : pystr :=
  match s with
  | [] => []
  | c :: s' => if py_isspace c then py_lstrip s' else s
  end.

(** [str.strip()]: CPython's [do_strip] advances [i] from the left and
    [j] from the right over whitespace and returns [s[i:j]]. *)
Definition py_strip (s : pystr) : pystr :=
  rev (py_lstrip (rev (py_lstrip s))).

(** [str.replace(old, new)] for one-character [old] and [new]: every
    occurrence is replaced. *)
Definition py_replace1 (old new : ascii) (s : pystr) : pystr :=
  map (fun c => if Ascii.eqb c old then new else c) s.

(** [s.startswith(p)]. *)
Fixpoint is_prefix (p s : pystr) : bool :=
  match p, s with
  | [], _ => true
  | a :: p', b :: s' => Ascii.eqb a b && is_prefix p' s'
  | _ :: _, [] => false
  end.

(** [p in s]: some position of [s] starts with [p]. *)
Fixpoint contains (p s : pystr) : bool :=
  is_prefix p s || match s with [] => false | _ :: s' => contains p s' end.

(** A keyword written as a Rocq string literal. *)
Definition kw (s : string) : pystr := list_ascii_of_string s.

(** Python's [==] on two strings. *)
Definition pystr_eqb (s t : pystr) : bool := if list_eq_dec ascii_dec s t then true else false.

(** ** Lemmas on [is_prefix] and [contains] *)

Lemma pystr_eqb_spec s t : pystr_eqb s t = true <-> s = t.
Proof. unfold pystr_eqb. destruct (list_eq_dec ascii_dec s t); split; congruence. Qed.

Lemma pystr_eqb_refl s : pystr_eqb s s = true.
Proof. apply pystr_eqb_spec. reflexivity. Qed.

Lemma is_prefix_spec p s : is_prefix p s = true <-> exists b, s = p ++ b.
Proof.
  revert s; induction p as [|a p IH]; intros [|c s]; simpl.
  - split; eauto.
  - split; eauto.
  - split; [discriminate | intros [b H]; discriminate].
  - rewrite andb_true_iff, Ascii.eqb_eq, IH. split.
    + intros [-> [b ->]]. eauto.
    + intros [b H]. injection H as -> ->. eauto.
Qed.

Lemma contains_spec p s : contains p s = true <-> exists a b, s = a ++ p ++ b.
Proof.
  induction s as [|c s IH]; simpl; rewrite orb_true_iff, is_prefix_spec.
  - split.
    + intros [[b H]|H]; [exists [], b; auto | discriminate].
    + intros (a & b & H). left. exists b.
      destruct a; [exact H | discriminate].
  - rewrite IH. split.
    + intros [[b H]|(a & b & H)].
      * exists [], b. exact H.
      * exists (c :: a), b. rewrite H. reflexivity.
    + intros (a & b & H). destruct a as [|d a].
      * left. eauto.
      * right. injection H as -> H. eauto.
Qed.

Lemma contains_rev p s : contains (rev p) (rev s) = contains p s.
Proof.
  apply eq_iff_eq_true. rewrite !contains_spec. split.
  - intros (a & b & H). exists (rev b), (rev a).
    rewrite <- (rev_involutive s), H, !rev_app_distr, rev_involutive.
    rewrite app_assoc. reflexivity.
  - intros (a & b & ->). exists (rev b), (rev a).
    rewrite !rev_app_distr. rewrite app_assoc. reflexivity.
Qed.

#[export] Hint Rewrite contains_rev : bizstat_rw.

(** Characters that do not occur in [p] cannot start an occurrence of a
    non-empty [p]: a prefix of such characters is noise. *)
Lemma contains_app_noise_l p x s :
  p <> [] -> (forall c, In c x -> ~ In c p) ->
  contains p (x ++ s) = contains p s.
Proof.
  intros Hp Hx. induction x as [|c x IH]; [reflexivity|].
  simpl. rewrite IH by (intros d Hd; apply Hx; right; exact Hd).
  destruct p as [|a p]; [congruence|]. simpl.
  destruct (Ascii.eqb_spec a c) as [->|]; simpl; [|reflexivity].
  exfalso. apply (Hx c); left; reflexivity.
Qed.

Lemma contains_app_noise_r p s y :
  p <> [] -> (forall c, In c y -> ~ In c p) ->
  contains p (s ++ y) = contains p s.
Proof.
  intros Hp Hy. rewrite <- contains_rev, rev_app_distr.
  rewrite contains_app_noise_l.
  - apply contains_rev.
  - intros H. apply Hp. rewrite <- (rev_involutive p), H. reflexivity.
  - intros c Hc Hc'. apply (Hy c); apply in_rev; assumption.
Qed.

(** Two strings that agree except at positions where neither character
    occurs in [p] contain [p] equally. *)
Definition agree_outside (p : pystr) (x y : ascii) : Prop :=
  x = y \/ (~ In x p /\ ~ In y p).

Lemma agree_outside_tail a p x y :
  agree_outside (a :: p) x y -> agree_outside p x y.
Proof.
  intros [E|[Hx Hy]]; [left; exact E|].
  right. split; intros H; [apply Hx | apply Hy]; right; exact H.
Qed.

Lemma is_prefix_agree p s t :
  Forall2 (agree_outside p) s t -> is_prefix p s = is_prefix p t.
Proof.
  revert s t. induction p as [|a p' IH]; intros s t H; [reflexivity|].
  destruct H as [|x y s t Hxy Hst]; [reflexivity|]. simpl.
  destruct Hxy as [<-|[Hx Hy]].
  - erewrite IH; [reflexivity|].
    eapply Forall2_impl; [apply agree_outside_tail | exact Hst].
  - destruct (Ascii.eqb_spec a x) as [->|]; [exfalso; apply Hx; left; reflexivity|].
    destruct (Ascii.eqb_spec a y) as [->|]; [exfalso; apply Hy; left; reflexivity|].
    reflexivity.
Qed.

Lemma contains_agree p s t :
  Forall2 (agree_outside p) s t -> contains p s = contains p t.
Proof.
  induction 1 as [|x y s t Hxy Hst IH]; [reflexivity|].
  simpl. rewrite IH, (is_prefix_agree p (x :: s) (y :: t)) by (constructor; assumption).
  reflexivity.
Qed.

(** ** Lemmas on the string operations *)

(** [str.strip()] removes a whitespace prefix and a whitespace suffix. *)
Lemma py_lstrip_split s :
  exists w, s = w ++ py_lstrip s /\ forallb py_isspace w = true.
Proof.
  induction s as [|c s (w & Hw & Hsp)]; simpl.
  - exists []. auto.
  - destruct (py_isspace c) eqn:Hc.
    + exists (c :: w). simpl. rewrite Hc, <- Hw. auto.
    + exists []. auto.
Qed.

Lemma py_strip_split s :
  exists w1 w2, s = w1 ++ py_strip s ++ w2 /\
    forallb py_isspace w1 = true /\ forallb py_isspace w2 = true.
Proof.
  destruct (py_lstrip_split s) as (w1 & H1 & S1).
  destruct (py_lstrip_split (rev (py_lstrip s))) as (w2 & H2 & S2).
  exists w1, (rev w2). unfold py_strip. split; [|split; [exact S1|]].
  - rewrite H1 at 1. f_equal.
    remember (py_lstrip s) as m eqn:Hm. clear Hm.
    rewrite <- (rev_involutive m) at 1. rewrite H2 at 1.
    rewrite rev_app_distr. reflexivity.
  - rewrite forallb_forall in *. intros c Hc. apply S2, in_rev, Hc.
Qed.

Lemma py_lower_char_space c : py_isspace c = true -> py_lower_char c = c.
Proof.
  intros H. unfold py_lower_char, is_upper.
  unfold py_isspace in H.
  destruct c as [[] [] [] [] [] [] [] []]; vm_compute in H |- *; congruence.
Qed.

Lemma py_lower_char_idem c : py_lower_char (py_lower_char c) = py_lower_char c.
Proof. destruct c as [[] [] [] [] [] [] [] []]; reflexivity. Qed.

Lemma py_lower_idem s : py_lower (py_lower s) = py_lower s.
Proof.
  unfold py_lower. rewrite map_map. apply map_ext, py_lower_char_idem.
Qed.

#[export] Hint Rewrite py_lower_idem : bizstat_rw.

(** A string is stripped when neither its first nor its last character
    is whitespace. *)
Definition edge_ok (s : pystr) : bool :=
  match s with [] => true | c :: _ => negb (py_isspace c) end.

Definition stripped (s : pystr) : bool := edge_ok s && edge_ok (rev s).

Lemma py_lstrip_edge s : edge_ok (py_lstrip s) = true.
Proof.
  induction s as [|c s IH]; simpl; [reflexivity|].
  destruct (py_isspace c) eqn:Hc; simpl; [exact IH | rewrite Hc; reflexivity].
Qed.

Lemma py_lstrip_noop s : edge_ok s = true -> py_lstrip s = s.
Proof.
  destruct s as [|c s]; simpl; [reflexivity|].
  destruct (py_isspace c); [discriminate | reflexivity].
Qed.

Lemma edge_ok_app a b : a <> [] -> edge_ok (a ++ b) = edge_ok a.
Proof. destruct a; [congruence | reflexivity]. Qed.

Lemma py_strip_noop s : stripped s = true -> py_strip s = s.
Proof.
  unfold stripped, py_strip. intros [H1 H2]%andb_prop.
  rewrite (py_lstrip_noop s H1), (py_lstrip_noop (rev s) H2).
  apply rev_involutive.
Qed.

Lemma py_strip_stripped s : stripped (py_strip s) = true.
Proof.
  unfold stripped, py_strip. rewrite rev_involutive, py_lstrip_edge, andb_true_r.
  destruct (py_lstrip_split (rev (py_lstrip s))) as (w & Hw & _).
  assert (HL : py_lstrip s = rev (py_lstrip (rev (py_lstrip s))) ++ rev w).
  { rewrite <- (rev_involutive (py_lstrip s)) at 1. rewrite Hw at 1.
    apply rev_app_distr. }
  destruct (rev (py_lstrip (rev (py_lstrip s)))) as [|c m] eqn:E; [reflexivity|].
  rewrite <- (edge_ok_app (c :: m) (rev w)) by discriminate.
  rewrite <- HL. apply py_lstrip_edge.
Qed.

Lemma edge_ok_map (g : ascii -> ascii) s :
  (forall c, py_isspace c = false -> py_isspace (g c) = false) ->
  edge_ok s = true -> edge_ok (map g s) = true.
Proof.
  intros Hg. destruct s as [|c s]; simpl; [reflexivity|].
  intros Hc. apply negb_true_iff in Hc. rewrite (Hg c Hc). reflexivity.
Qed.

Lemma stripped_map (g : ascii -> ascii) s :
  (forall c, py_isspace c = false -> py_isspace (g c) = false) ->
  stripped s = true -> stripped (map g s) = true.
Proof.
  unfold stripped. intros Hg [H1 H2]%andb_prop.
  rewrite <- map_rev, !edge_ok_map by assumption. reflexivity.
Qed.
