(* ===== verification/Header.v ===== *)
(** * Duplicate names in the header row (line 17)

    [pd.read_csv] (C engine, pandas 2.x) makes the header names distinct
    while it reads the header ([TextReader._get_header] in
    [parsers.pyx]).  For each name [col] in column order, with a
    [counts] dictionary:

    [cur_count = counts.get(col, 0)];
    [while cur_count > 0: counts[old_col] = cur_count + 1;
       col = f"{old_col}.{cur_count}";
       if col in this_header: cur_count += 1
       else: cur_count = counts.get(col, 0)];
    [this_header[i] = col; counts[col] = cur_count + 1].

    The suffix is always put on the original name [old_col], and a
    suffixed name already present anywhere in the header (as it is at
    that moment: the names already mangled, then the original ones) is
    skipped: "a, a, a.1" becomes "a, a.2, a.1".  Empty names
    ([Unnamed: i], mangled after the others) are outside the model of
    [Csv], so the columns are taken in order.

    The counters are an association list ([counts], [cget], [cset]).
    The [while] loop is [mangle_loop], run with explicit fuel;
    [mangle_cols] gives it two iterations more than there are header
    names, and [mangle_header_terminates] (C29) shows this is always
    enough: every iteration that finds its suffixed name in the header
    meets a header entry [old.k] not met before (the suffixes are
    distinct numbers), and an iteration that does not find it reads a
    count of 0, since every name with a positive count is in the
    header.  C30: the names returned are pairwise distinct, each one is
    the original name or the original name with a suffix [.k], and
    distinct names are kept as they are. *)

From Stdlib Require Import Ascii String List Bool Arith Lia.
From Stdlib Require DecimalNat.
From S2P Require Import Prelude Text.
Import ListNotations.

Module Header.

(** ** Definitions *)

(** [counts]: the dictionary from names to how often they were taken. *)
Definition counts := list (pystr * nat).

(** [counts[k]]: 0 for a name never set. *)
Definition cget (c : counts) (k : pystr) : nat :=
  match find (fun kv => pystr_eqb (fst kv) k) c with
  | Some kv => snd kv
  | None => 0
  end.

(** [counts[k] = v]. *)
Definition cset (c : counts) (k : pystr) (v : nat) : counts :=
  (k, v) :: filter (fun kv => negb (pystr_eqb (fst kv) k)) c.

(** The decimal digits of [str(n)]. *)
Fixpoint uint_chars (d : Decimal.uint) : pystr :=
  match d with
  | Decimal.Nil => []
  | Decimal.D0 d => "0"%char :: uint_chars d
  | Decimal.D1 d => "1"%char :: uint_chars d
  | Decimal.D2 d => "2"%char :: uint_chars d
  | Decimal.D3 d => "3"%char :: uint_chars d
  | Decimal.D4 d => "4"%char :: uint_chars d
  | Decimal.D5 d => "5"%char :: uint_chars d
  | Decimal.D6 d => "6"%char :: uint_chars d
  | Decimal.D7 d => "7"%char :: uint_chars d
  | Decimal.D8 d => "8"%char :: uint_chars d
  | Decimal.D9 d => "9"%char :: uint_chars d
  end.

Definition show_nat (n : nat) : pystr := uint_chars (Nat.to_uint n).

(** [f"{old_col}.{cur_count}"]. *)
Definition suffixed (col : pystr) (n : nat) : pystr := col ++ "."%char :: show_nat n.

(** [col in this_header]. *)
Definition in_header (hdr : list pystr) (col : pystr) : bool := existsb (pystr_eqb col) hdr.

(** The [while cur_count > 0] loop on the header [hdr] as it is during
    the loop, for the name [old] (the current candidate is [col]), for
    at most [fuel] iterations; [None] when the fuel runs out. *)
Fixpoint mangle_loop (fuel : nat) (hdr : list pystr) (c : counts) (old col : pystr) (cur : nat)
  : option (counts * pystr) :=
  match fuel with
  | O => None
  | S f =>
      match cur with
      | O => Some (c, col)
      | S _ =>
          let c' := cset c old (S cur) in
          let col' := suffixed old cur in
          if in_header hdr col' then mangle_loop f hdr c' old col' (S cur)
          else mangle_loop f hdr c' old col' (cget c' col')
      end
  end.

(** The header loop: [done] are the names already mangled, [rest] the
    original names still to do ([this_header] is [done ++ rest]). *)
Fixpoint mangle_cols (c : counts) (done rest : list pystr) : option (list pystr) :=
  match rest with
  | [] => Some done
  | col :: rest' =>
      let hdr := done ++ rest in
      match mangle_loop (length hdr + 2) hdr c col col (cget c col) with
      | Some (c', col') => mangle_cols (cset c' col' 1) (done ++ [col']) rest'
      | None => None
      end
  end.

(** The header row as [pd.read_csv] names the columns. *)
Definition mangle_header (names : list pystr) : option (list pystr) := mangle_cols [] [] names.

(** The header entries not among [old.1, ..., old.(cur-1)]: the measure
    of the loop. *)
Definition unvisited (hdr : list pystr) (old : pystr) (cur : nat) : nat :=
  length (filter (fun k => negb (existsb (fun j => pystr_eqb (suffixed old j) k) (seq 1 (cur - 1)))) hdr).

(** ** The counters *)

Lemma find_filter_other (c : counts) (k k' : pystr) :
  k <> k' ->
  find (fun kv => pystr_eqb (fst kv) k') (filter (fun kv => negb (pystr_eqb (fst kv) k)) c)
  = find (fun kv => pystr_eqb (fst kv) k') c.
Proof.
  intros Hne. induction c as [|[a v] c IH]; simpl; [reflexivity|].
  destruct (pystr_eqb a k) eqn:Ek; simpl.
  - apply pystr_eqb_spec in Ek; subst a.
    destruct (pystr_eqb k k') eqn:E; [apply pystr_eqb_spec in E; congruence | exact IH].
  - destruct (pystr_eqb a k'); [reflexivity | exact IH].
Qed.

Lemma cget_cset (c : counts) (k : pystr) (v : nat) (k' : pystr) :
  cget (cset c k v) k' = if pystr_eqb k k' then v else cget c k'.
Proof.
  unfold cget, cset. simpl. destruct (pystr_eqb k k') eqn:E; [reflexivity|].
  rewrite find_filter_other; [reflexivity|].
  intros ->. rewrite pystr_eqb_refl in E. discriminate.
Qed.

Lemma cget_cset_same (c : counts) (k : pystr) (v : nat) : cget (cset c k v) k = v.
Proof. rewrite cget_cset, pystr_eqb_refl. reflexivity. Qed.

Lemma cget_cset_other (c : counts) (k k' : pystr) (v : nat) :
  k <> k' -> cget (cset c k v) k' = cget c k'.
Proof.
  intros Hne. rewrite cget_cset. destruct (pystr_eqb k k') eqn:E; [|reflexivity].
  apply pystr_eqb_spec in E. contradiction.
Qed.

(** A name with a positive count is a key of the list. *)
Lemma cget_pos_in (c : counts) (k : pystr) : 0 < cget c k -> exists v, In (k, v) c.
Proof.
  unfold cget. destruct (find _ c) as [[a v]|] eqn:E; simpl; [|lia].
  intros _. apply find_some in E as [Hin Heq]. simpl in Heq.
  apply pystr_eqb_spec in Heq. subst a. eauto.
Qed.

(** ** The suffixes are distinct *)

Lemma uint_chars_inj (d d' : Decimal.uint) : uint_chars d = uint_chars d' -> d = d'.
Proof.
  revert d'. induction d; intros [] H; simpl in H; try discriminate; try reflexivity;
    injection H as H; f_equal; auto.
Qed.

Lemma suffixed_inj (old : pystr) (j j' : nat) : suffixed old j = suffixed old j' -> j = j'.
Proof.
  unfold suffixed. intros H. apply app_inv_head in H. injection H as H.
  apply DecimalNat.Unsigned.to_uint_inj, uint_chars_inj, H.
Qed.

Lemma in_header_spec (hdr : list pystr) (col : pystr) : in_header hdr col = true <-> In col hdr.
Proof.
  unfold in_header. rewrite existsb_exists. split.
  - intros (k & Hk & E). apply pystr_eqb_spec in E. subst k. exact Hk.
  - intros H. exists col. split; [exact H | apply pystr_eqb_refl].
Qed.

(** ** The measure of the [while] loop *)

Lemma filter_length_mono {A} (P P' : A -> bool) (l : list A) :
  (forall x, P' x = true -> P x = true) -> length (filter P' l) <= length (filter P l).
Proof.
  intros H. induction l as [|x l IH]; simpl; [lia|].
  destruct (P' x) eqn:E1; [rewrite (H x E1)|destruct (P x)]; simpl; lia.
Qed.

Lemma filter_filter_le {A} (P Q : A -> bool) (l : list A) :
  length (filter P (filter Q l)) <= length (filter P l).
Proof.
  induction l as [|y l IH]; simpl; [lia|].
  destruct (Q y); simpl; destruct (P y); simpl; lia.
Qed.

Lemma filter_filter_lt {A} (P Q : A -> bool) (l : list A) (x : A) :
  In x l -> P x = true -> Q x = false ->
  length (filter P (filter Q l)) < length (filter P l).
Proof.
  intros Hin HP HQ. induction l as [|y l IH]; [destruct Hin|].
  pose proof (filter_filter_le P Q l).
  destruct Hin as [->|Hin]; simpl.
  - rewrite HQ, HP. simpl. lia.
  - specialize (IH Hin). destruct (Q y); simpl; destruct (P y); simpl; lia.
Qed.

Lemma filter_length_lt {A} (P P' : A -> bool) (l : list A) (x : A) :
  (forall y, P' y = true -> P y = true) -> In x l -> P x = true -> P' x = false ->
  length (filter P' l) < length (filter P l).
Proof.
  intros H Hin HP HP'. induction l as [|y l IH]; [destruct Hin|].
  pose proof (filter_length_mono P P' l H). simpl.
  destruct Hin as [->|Hin].
  - rewrite HP, HP'. simpl. lia.
  - specialize (IH Hin). destruct (P' y) eqn:E1; [rewrite (H y E1)|destruct (P y)]; simpl; lia.
Qed.

Lemma unvisited_le (hdr : list pystr) (old : pystr) (cur : nat) : unvisited hdr old cur <= length hdr.
Proof. apply filter_length_le. Qed.

(** An iteration that finds [old.cur] in the header decreases the measure. *)
Lemma unvisited_step (hdr : list pystr) (old : pystr) (cur : nat) :
  0 < cur -> In (suffixed old cur) hdr -> unvisited hdr old (S cur) < unvisited hdr old cur.
Proof.
  intros Hcur Hin. unfold unvisited.
  replace (S cur - 1) with (cur - 1 + 1) by lia. rewrite seq_app.
  replace (1 + (cur - 1)) with cur by lia.
  apply (filter_length_lt _ _ hdr (suffixed old cur)); [| exact Hin | |].
  - intros y. rewrite existsb_app. destruct (existsb _ (seq 1 (cur - 1))); simpl; auto.
  - apply negb_true_iff, not_true_iff_false. intros E. apply existsb_exists in E as (j & Hj & E).
    apply in_seq in Hj. apply pystr_eqb_spec, suffixed_inj in E. lia.
  - rewrite existsb_app. simpl. rewrite pystr_eqb_refl, orb_true_r. reflexivity.
Qed.

(** ** Termination *)

(** Every name with a positive count is in [hdr]. *)
Definition counted_in (c : counts) (hdr : list pystr) : Prop := forall k, 0 < cget c k -> In k hdr.

Lemma counted_in_cset (c : counts) (hdr : list pystr) (k : pystr) (v : nat) :
  counted_in c hdr -> In k hdr -> counted_in (cset c k v) hdr.
Proof.
  intros Hc Hk k'. rewrite cget_cset. destruct (pystr_eqb k k') eqn:E; [|apply Hc].
  apply pystr_eqb_spec in E. subst. auto.
Qed.

(** A name outside the header has count 0. *)
Lemma counted_in_zero (c : counts) (hdr : list pystr) (k : pystr) :
  counted_in c hdr -> ~ In k hdr -> cget c k = 0.
Proof. intros Hc Hk. destruct (cget c k) eqn:E; [reflexivity|]. exfalso. apply Hk, Hc. lia. Qed.

Lemma mangle_loop_some (f : nat) (hdr : list pystr) (c : counts) (old col : pystr) (cur : nat) :
  counted_in c hdr -> In old hdr -> unvisited hdr old cur + 2 <= f ->
  exists c' col', mangle_loop f hdr c old col cur = Some (c', col').
Proof.
  revert c col cur. induction f as [|f IH]; intros c col cur Hc Hold Hf; [lia|].
  simpl. destruct cur as [|k]; [eauto|].
  pose proof (counted_in_cset c hdr old (S (S k)) Hc Hold) as Hc'.
  destruct (in_header hdr (suffixed old (S k))) eqn:Ein.
  - apply in_header_spec in Ein. apply IH; [exact Hc' | exact Hold |].
    pose proof (unvisited_step hdr old (S k) ltac:(lia) Ein). lia.
  - rewrite (counted_in_zero _ hdr) by (exact Hc' || (rewrite <- in_header_spec; congruence)).
    destruct f; [lia|]. simpl. eauto.
Qed.

(** ** What the loop returns *)

(** The loop raises counters only, ends on a name of count 0, counts
    only names already counted (or [old] when it iterates), and returns
    [col] or a suffixed [old]. *)
Lemma mangle_loop_spec (f : nat) (hdr : list pystr) (c c' : counts) (old col col' : pystr) (cur : nat) :
  mangle_loop f hdr c old col cur = Some (c', col') ->
  counted_in c hdr -> In old hdr ->
  (cur = 0 -> cget c col = 0) -> (0 < cur -> cget c old <= cur) ->
  (forall k, cget c k <= cget c' k) /\ cget c' col' = 0 /\
  (forall k, 0 < cget c' k -> 0 < cget c k \/ (k = old /\ 0 < cur)) /\
  (col' = col \/ exists j, col' = suffixed old j).
Proof.
  revert c col cur. induction f as [|f IH]; intros c col cur H Hc Hold H0 Hle; [discriminate|].
  simpl in H. destruct cur as [|m].
  - injection H as <- <-. repeat split; auto.
  - assert (Hc1 : counted_in (cset c old (S (S m))) hdr) by (apply counted_in_cset; assumption).
    assert (Hmono1 : forall k, cget c k <= cget (cset c old (S (S m))) k).
    { intros k. rewrite cget_cset. destruct (pystr_eqb old k) eqn:E; [|lia].
      apply pystr_eqb_spec in E. subst. specialize (Hle ltac:(lia)). lia. }
    assert (Hpos1 : forall k, 0 < cget (cset c old (S (S m))) k -> 0 < cget c k \/ k = old).
    { intros k. rewrite cget_cset. destruct (pystr_eqb old k) eqn:E; [|auto].
      apply pystr_eqb_spec in E. auto. }
    assert (Hfin : forall c'' col'',
              (forall k, cget (cset c old (S (S m))) k <= cget c'' k) -> cget c'' col'' = 0 ->
              (forall k, 0 < cget c'' k -> 0 < cget (cset c old (S (S m))) k \/ k = old) ->
              (col'' = suffixed old (S m) \/ exists j, col'' = suffixed old j) ->
              (forall k, cget c k <= cget c'' k) /\ cget c'' col'' = 0 /\
              (forall k, 0 < cget c'' k -> 0 < cget c k \/ (k = old /\ 0 < S m)) /\
              (col'' = col \/ exists j, col'' = suffixed old j)).
    { intros c'' col'' Hm Hz Hp Hs. repeat split; [intros k; specialize (Hm k); specialize (Hmono1 k); lia
        | exact Hz | | right; destruct Hs as [-> | Hs]; eauto].
      intros k Hk. destruct (Hp k Hk) as [Hk1| ->]; [|right; split; [reflexivity | lia]].
      destruct (Hpos1 k Hk1) as [| ->]; [left; assumption | right; split; [reflexivity | lia]]. }
    destruct (in_header hdr (suffixed old (S m))) eqn:Ein.
    + destruct (IH _ _ _ H Hc1 Hold ltac:(discriminate)
                  ltac:(intros _; rewrite cget_cset_same; lia)) as (Hm & Hz & Hp & Hs).
      apply Hfin; [exact Hm | exact Hz | | exact Hs].
      intros k Hk. destruct (Hp k Hk) as [|[-> _]]; auto.
    + assert (Hz0 : cget (cset c old (S (S m))) (suffixed old (S m)) = 0).
      { apply (counted_in_zero _ hdr); [exact Hc1|]. rewrite <- in_header_spec. congruence. }
      destruct (IH _ _ _ H Hc1 Hold ltac:(intros E; exact E) ltac:(rewrite Hz0; lia))
        as (Hm & Hz & Hp & Hs).
      apply Hfin; [exact Hm | exact Hz | | exact Hs].
      intros k Hk. destruct (Hp k Hk) as [|[-> _]]; auto.
Qed.

Lemma NoDup_snoc {A} (l : list A) (x : A) : NoDup l -> ~ In x l -> NoDup (l ++ [x]).
Proof.
  induction l as [|a l IH]; simpl; intros H Hx; [constructor; [intros [] | constructor]|].
  inversion H as [|? ? Ha Hl]; subst. constructor.
  - intros Hin. apply in_app_or in Hin as [Hin|[<-|[]]]; [contradiction | apply Hx; left; reflexivity].
  - apply IH; [exact Hl | intros Hin; apply Hx; right; exact Hin].
Qed.

(** One column of the header loop keeps every counted name among the
    names done. *)
Lemma mangle_step (c c' : counts) (done rest' : list pystr) (col col' : pystr) :
  counted_in c done ->
  mangle_loop (length (done ++ col :: rest') + 2) (done ++ col :: rest') c col col (cget c col)
  = Some (c', col') ->
  counted_in (cset c' col' 1) (done ++ [col']) /\ (forall k, cget c k <= cget c' k) /\
  cget c' col' = 0 /\ (col' = col \/ exists j, col' = suffixed col j).
Proof.
  intros Hc E.
  assert (Hch : counted_in c (done ++ col :: rest'))
    by (intros k Hk; apply in_or_app; left; apply Hc, Hk).
  destruct (mangle_loop_spec _ _ _ _ _ _ _ _ E Hch ltac:(apply in_or_app; right; left; reflexivity)
              (fun H => H) (fun _ => le_n _)) as (Hm & Hz & Hp & Hs).
  split; [|split; [exact Hm | split; [exact Hz | exact Hs]]].
  intros k Hk. rewrite cget_cset in Hk. apply in_or_app.
  destruct (pystr_eqb col' k) eqn:Ek; [apply pystr_eqb_spec in Ek; subst; right; left; reflexivity|].
  left. destruct (Hp k Hk) as [Hk'|[-> Hc0]]; apply Hc; assumption.
Qed.

Lemma mangle_cols_some (c : counts) (done rest : list pystr) :
  counted_in c done -> exists out, mangle_cols c done rest = Some out.
Proof.
  revert c done. induction rest as [|col rest' IH]; intros c done Hc; simpl; [eauto|].
  destruct (mangle_loop_some (length (done ++ col :: rest') + 2) (done ++ col :: rest') c col col
              (cget c col)) as (c' & col' & E).
  - intros k Hk. apply in_or_app. left. apply Hc, Hk.
  - apply in_or_app. right. left. reflexivity.
  - pose proof (unvisited_le (done ++ col :: rest') col (cget c col)). lia.
  - rewrite E. apply IH, (mangle_step c c' done rest' col col' Hc E).
Qed.

Lemma mangle_cols_spec (c : counts) (done rest out : list pystr) :
  mangle_cols c done rest = Some out ->
  counted_in c done -> (forall k, In k done -> 0 < cget c k) -> NoDup done ->
  NoDup out /\ exists out', out = done ++ out' /\
    Forall2 (fun n o => o = n \/ exists j, o = suffixed n j) rest out'.
Proof.
  revert c done. induction rest as [|col rest' IH]; intros c done H Hc Hpos Hnd; simpl in H.
  - injection H as <-. split; [exact Hnd|]. exists []. rewrite app_nil_r. split; [reflexivity | constructor].
  - destruct (mangle_loop _ _ c col col _) as [[c' col']|] eqn:E; [|discriminate].
    destruct (mangle_step c c' done rest' col col' Hc E) as (Hc2 & Hm & Hz & Hs).
    assert (Hnot : ~ In col' done) by (intros Hin; specialize (Hpos _ Hin); specialize (Hm col'); lia).
    destruct (IH _ _ H Hc2) as (Hnd' & out' & -> & Hf).
    + intros k Hk. rewrite cget_cset. destruct (pystr_eqb col' k) eqn:Ek; [lia|].
      apply in_app_or in Hk as [Hk|[<-|[]]]; [|rewrite pystr_eqb_refl in Ek; discriminate].
      specialize (Hpos k Hk). specialize (Hm k). lia.
    + apply NoDup_snoc; assumption.
    + split; [exact Hnd'|]. exists (col' :: out'). split; [rewrite <- app_assoc; reflexivity|].
      constructor; [exact Hs | exact Hf].
Qed.

(** Distinct names of count 0 are kept as they are. *)
Lemma mangle_cols_id (c : counts) (done rest : list pystr) :
  NoDup rest -> (forall n, In n rest -> cget c n = 0) -> mangle_cols c done rest = Some (done ++ rest).
Proof.
  revert c done. induction rest as [|col rest' IH]; intros c done Hnd Hz; simpl; [rewrite app_nil_r; reflexivity|].
  inversion Hnd as [|? ? Hnotin Hnd']; subst.
  rewrite (Hz col (or_introl eq_refl)). rewrite Nat.add_comm. simpl.
  rewrite IH; [rewrite <- app_assoc; reflexivity | exact Hnd' |].
  intros n Hn. rewrite cget_cset_other by (intros ->; contradiction). apply Hz. right. exact Hn.
Qed.

(** ** Theorems *)

(** C29. The header of every file is renamed: the [while] loop of the
    C parser's header mangling ends, for every name, within the fuel
    [mangle_cols] gives it (two iterations more than there are header
    names), so [mangle_header] always returns the list of names. *)
Theorem mangle_header_terminates (names : list pystr) :
  exists out, mangle_header names = Some out.
Proof. apply mangle_cols_some. intros k Hk. exfalso. unfold cget in Hk. simpl in Hk. lia. Qed.

(** C30. The names [pd.read_csv] gives the columns are pairwise
    distinct, one per header field, each the field's name or the name
    with a suffix [.k]; a header whose names are already distinct is
    kept unchanged. *)
Theorem mangle_header_distinct (names out : list pystr) :
  mangle_header names = Some out ->
  NoDup out /\ Forall2 (fun n o => o = n \/ exists j, o = suffixed n j) names out /\
  (NoDup names -> out = names).
Proof.
  intros H. destruct (mangle_cols_spec _ _ _ _ H) as (Hnd & out' & E & Hf);
    [intros k Hk; exfalso; unfold cget in Hk; simpl in Hk; lia | intros k [] | constructor |].
  simpl in E. subst out'. split; [exact Hnd|]. split; [exact Hf|].
  intros Hnames. unfold mangle_header in H.
  rewrite mangle_cols_id in H by (assumption || reflexivity). injection H as ->. reflexivity.
Qed.

End Header.

(** The header [a, a, a.1] becomes [a, a.2, a.1]: [a.1] is taken. *)
Lemma mangle_header_distinct_witness :
  Header.mangle_header [kw "a"; kw "a"; kw "a.1"] = Some [kw "a"; kw "a.2"; kw "a.1"] /\
  NoDup [kw "a"; kw "a.2"; kw "a.1"] /\
  Forall2 (fun n o => o = n \/ exists j, o = Header.suffixed n j)
    [kw "a"; kw "a"; kw "a.1"] [kw "a"; kw "a.2"; kw "a.1"] /\
  (NoDup [kw "a"; kw "a"; kw "a.1"] -> [kw "a"; kw "a.2"; kw "a.1"] = [kw "a"; kw "a"; kw "a.1"]).
Proof.
  assert (E : Header.mangle_header [kw "a"; kw "a"; kw "a.1"] = Some [kw "a"; kw "a.2"; kw "a.1"])
    by (vm_compute; reflexivity).
  split; [exact E|].
  exact (Header.mangle_header_distinct _ _ E).
Defined.
