(* ===== verification/Columns.v ===== *)
(** * Header normalisation and column detection (lines 20, 29-40)

    [normalize_name] is line 20 applied to one header
    ([str.strip().str.replace(" ", "_").str.lower()]);
    [normalize_columns] applies it to the header row.  [detect_sales]
    is lines 29-32: the list comprehension of the names containing
    "sale" or "revenue", the [raise Exception] when it is empty, and its
    element [[0]].  [detect_optional] is lines 35-36 and 39-40, which
    give [None] instead of raising.  [detect_columns] chains the three in
    the order of the script.  The theorems state the first-match
    semantics, the fatal error exactly when no header matches, the names that
    normalisation leaves unchanged, and that
    a keyword found in the lower-cased raw header is still found after
    normalisation. *)

From Stdlib Require Import List Bool Ascii String Arith Lia.
From S2P Require Import Prelude Text.
Import ListNotations.
Local Open Scope bizstat_scope.

Module Detect.

(** ** Definitions *)

(** Line 20, on one header. *)
Definition normalize_name (c : pystr) : pystr :=
  py_lower (py_replace1 " " "_" (py_strip c)).

(** Line 20, on the header row [df.columns]. *)
Definition normalize_columns (cols : list pystr) : list pystr :=
  map normalize_name cols.

Definition sales_keywords : list pystr := [kw "sale"; kw "revenue"].
Definition region_keywords : list pystr := [kw "region"; kw "area"].
Definition product_keywords : list pystr := [kw "product"; kw "category"].

(** The condition of the comprehensions, e.g. ["sale" in c or "revenue" in c]. *)
Definition matches_any (kws : list pystr) (c : pystr) : bool :=
  existsb (fun k => contains k c) kws.

(** [[c for c in df.columns if ...]]. *)
Definition candidates (kws : list pystr) (cols : list pystr) : list pystr :=
  filter (matches_any kws) cols.

Definition no_sales_msg : string := "No sales column found in dataset.".

(** Lines 29-32. *)
Definition detect_sales (cols : list pystr) : result pystr :=
  match candidates sales_keywords cols with
  | [] => Raise (PyException no_sales_msg)
  | c :: _ => Ok c
  end.

(** Lines 35-36 and 39-40: [l[0] if l else None]. *)
Definition detect_optional (kws : list pystr) (cols : list pystr) : option pystr :=
  match candidates kws cols with
  | [] => None
  | c :: _ => Some c
  end.

Record detected : Type := {
  sales_col : pystr;
  region_col : option pystr;
  product_col : option pystr
}.

(** Lines 29-40 in the script's order: the sales lookup raises before the
    region and product lookups run. *)
Definition detect_columns (cols : list pystr) : result detected :=
  s <- detect_sales cols ;;
  Ok {| sales_col := s;
        region_col := detect_optional region_keywords cols;
        product_col := detect_optional product_keywords cols |}.

(** Python's truth value of [region_col] in [if region_col:] (line 96)
    and of [product_col] (line 105): [None] and [""] are false. *)
Definition py_truthy_name (o : option pystr) : bool :=
  match o with
  | Some (_ :: _) => true
  | _ => false
  end.

(** A keyword that normalisation cannot touch: non-empty, with no
    whitespace, no underscore and no capital. *)
Definition plain_keyword (k : pystr) : bool :=
  match k with
  | [] => false
  | _ => forallb (fun c => negb (py_isspace c) && negb (Ascii.eqb c "_")
                           && negb (is_upper c)) k
  end.

(** ** Character facts, checked on all 256 code points *)

Lemma py_lower_char_not_space c :
  py_isspace c = false -> py_isspace (py_lower_char c) = false.
Proof. destruct c as [[] [] [] [] [] [] [] []]; vm_compute; congruence. Qed.

Lemma py_lower_char_is_space c :
  py_lower_char c = " "%char -> c = " "%char.
Proof. destruct c as [[] [] [] [] [] [] [] []]; vm_compute; congruence. Qed.

Lemma py_lower_char_not_upper c : is_upper c = false -> py_lower_char c = c.
Proof. unfold py_lower_char. intros ->. reflexivity. Qed.

Lemma space_is_space : py_isspace " "%char = true.
Proof. reflexivity. Qed.

(** ** Lemmas *)

Lemma plain_keyword_chars k c :
  plain_keyword k = true -> In c k ->
  py_isspace c = false /\ c <> "_"%char /\ is_upper c = false.
Proof.
  destruct k as [|a k]; [discriminate|]. intros H Hc.
  unfold plain_keyword in H. rewrite forallb_forall in H.
  specialize (H c Hc). apply andb_prop in H as [H H3].
  apply andb_prop in H as [H1 H2]. apply negb_true_iff in H1, H2, H3.
  repeat split; auto. intros ->. discriminate.
Qed.

(** The replacement of spaces by underscores cannot create or destroy an
    occurrence of a plain keyword. *)
Lemma contains_replace_space k s :
  plain_keyword k = true ->
  contains k (py_lower (py_replace1 " " "_" s)) = contains k (py_lower s).
Proof.
  intros Hk. apply contains_agree. unfold py_lower, py_replace1.
  rewrite map_map. apply Forall2_map_same. intros c _.
  destruct (Ascii.eqb_spec c " ") as [->|]; [right | left; reflexivity].
  change (py_lower_char "_") with "_"%char.
  change (py_lower_char " ") with " "%char.
  split; intros Hin; destruct (plain_keyword_chars k _ Hk Hin) as (H1 & H2 & _).
  - apply H2. reflexivity.
  - rewrite space_is_space in H1. discriminate.
Qed.

(** Stripping cannot create or destroy an occurrence of a plain keyword. *)
Lemma contains_strip k s :
  plain_keyword k = true ->
  contains k (py_lower (py_strip s)) = contains k (py_lower s).
Proof.
  intros Hk. assert (Hne : k <> []) by (destruct k; discriminate).
  destruct (py_strip_split s) as (w1 & w2 & Hs & S1 & S2).
  rewrite Hs at 2. unfold py_lower. rewrite !map_app.
  assert (Noise : forall w, forallb py_isspace w = true ->
            forall c, In c (map py_lower_char w) -> ~ In c k).
  { intros w Hw c Hc Hin. apply in_map_iff in Hc as (d & <- & Hd).
    rewrite forallb_forall in Hw.
    rewrite (py_lower_char_space d (Hw d Hd)) in Hin.
    apply (plain_keyword_chars k) in Hin as (Hsp & _); [|exact Hk].
    rewrite (Hw d Hd) in Hsp. discriminate. }
  symmetry.
  rewrite (contains_app_noise_l k (map py_lower_char w1)) by exact Hne || exact (Noise w1 S1).
  apply contains_app_noise_r; [exact Hne | exact (Noise w2 S2)].
Qed.

Lemma contains_normalize k s :
  plain_keyword k = true ->
  contains k (normalize_name s) = contains k (py_lower s).
Proof.
  intros Hk. unfold normalize_name.
  rewrite contains_replace_space by exact Hk. apply contains_strip, Hk.
Qed.

Lemma matches_any_normalize kws s :
  forallb plain_keyword kws = true ->
  matches_any kws (normalize_name s) = matches_any kws (py_lower s).
Proof.
  unfold matches_any. induction kws as [|k kws IH]; simpl; [reflexivity|].
  intros [Hk H]%andb_prop. rewrite contains_normalize, IH by assumption.
  reflexivity.
Qed.

Lemma keywords_plain :
  forallb plain_keyword sales_keywords = true /\
  forallb plain_keyword region_keywords = true /\
  forallb plain_keyword product_keywords = true.
Proof. vm_compute. auto. Qed.

#[export] Hint Resolve keywords_plain : bizstat.

(** A name containing a non-empty keyword is non-empty. *)
Lemma matches_any_nonempty kws c :
  forallb plain_keyword kws = true -> matches_any kws c = true -> c <> [].
Proof.
  intros Hp Hm ->. apply existsb_exists in Hm as (k & Hk & Hc).
  rewrite forallb_forall in Hp. specialize (Hp k Hk).
  destruct k; [discriminate|]. discriminate.
Qed.

(** The first candidate, stated on the raw header row. *)
Lemma candidates_normalize kws raws :
  forallb plain_keyword kws = true ->
  candidates kws (normalize_columns raws) =
  map normalize_name (filter (fun r => matches_any kws (py_lower r)) raws).
Proof.
  intros Hp. unfold candidates, normalize_columns.
  induction raws as [|r raws IH]; simpl; [reflexivity|].
  rewrite matches_any_normalize by exact Hp.
  destruct (matches_any kws (py_lower r)); simpl; rewrite IH; reflexivity.
Qed.

(** The character map of line 20 after stripping. *)
Definition norm_char (c : ascii) : ascii :=
  py_lower_char (if Ascii.eqb c " " then "_"%char else c).

Lemma normalize_name_map s : normalize_name s = map norm_char (py_strip s).
Proof. unfold normalize_name, py_lower, py_replace1. rewrite map_map. reflexivity. Qed.

Lemma norm_char_not_space c : py_isspace c = false -> py_isspace (norm_char c) = false.
Proof.
  unfold norm_char. destruct (Ascii.eqb_spec c " ") as [->|]; [discriminate|].
  apply py_lower_char_not_space.
Qed.

Lemma norm_char_no_space c : norm_char c <> " "%char.
Proof.
  unfold norm_char. intros H. apply py_lower_char_is_space in H.
  destruct (Ascii.eqb_spec c " "); [discriminate | contradiction].
Qed.

(** [str.lower] leaves no capital. *)
Lemma py_lower_char_lower c : is_upper (py_lower_char c) = false.
Proof. destruct c as [[] [] [] [] [] [] [] []]; reflexivity. Qed.

Lemma map_id_in {A} (f : A -> A) l : (forall x, In x l -> f x = x) -> map f l = l.
Proof. intros H. rewrite <- (map_id l) at 2. apply map_ext_in, H. Qed.

Lemma truthy_detect_optional kws cols :
  forallb plain_keyword kws = true ->
  (py_truthy_name (detect_optional kws cols) = true <-> detect_optional kws cols <> None).
Proof.
  intros Hk. unfold detect_optional, candidates.
  destruct (filter (matches_any kws) cols) as [|c rest] eqn:E.
  - simpl. split; [discriminate | intros H; exfalso; apply H; reflexivity].
  - apply in_filter_hd in E as [_ Hc].
    destruct c as [|a c]; [exfalso; exact (matches_any_nonempty kws [] Hk Hc eq_refl)|].
    simpl. split; [discriminate | reflexivity].
Qed.

(** ** Theorems *)

(** C1. The sales column is the first header, in the order of
    [df.columns], that contains "sale" or "revenue" (lines 29 and 32):
    [detect_sales] returns [c] exactly when [c] matches and no header
    before it does. *)
Theorem detect_sales_first_match cols c :
  detect_sales cols = Ok c <->
  exists pre post, cols = pre ++ c :: post /\
    matches_any sales_keywords c = true /\
    forall p, In p pre -> matches_any sales_keywords p = false.
Proof.
  unfold detect_sales, candidates.
  destruct (filter (matches_any sales_keywords) cols) as [|x rest] eqn:E.
  - split; [discriminate|]. intros (pre & post & -> & Hc & _).
    rewrite filter_nil_iff in E. rewrite (E c) in Hc; [discriminate|].
    apply in_or_app. right. left. reflexivity.
  - rewrite hd_filter_spec in E. destruct E as (pre & post & -> & Hx & Hpre & _).
    split.
    + intros H. injection H as <-. exists pre, post. repeat split; auto.
      intros p Hp. rewrite forallb_forall in Hpre. apply negb_true_iff, Hpre, Hp.
    + intros (pre' & post' & Heq & Hc & Hpre').
      rewrite forallb_forall in Hpre.
      destruct (list_eq_first_match (matches_any sales_keywords) pre x post pre' c post')
        as [-> _]; auto.
      intros p Hp. apply negb_true_iff, Hpre, Hp.
Qed.

(** C2. Line 31 is the only way detection fails: [detect_sales] raises
    [Exception("No sales column found in dataset.")], and nothing else,
    exactly when no header contains "sale" or "revenue". *)
Theorem detect_sales_error cols e :
  detect_sales cols = Raise e <->
  e = PyException no_sales_msg /\
  forall c, In c cols -> matches_any sales_keywords c = false.
Proof.
  unfold detect_sales, candidates.
  destruct (filter (matches_any sales_keywords) cols) as [|x rest] eqn:E.
  - rewrite filter_nil_iff in E. split.
    + intros H. injection H as <-. auto.
    + intros [-> _]. reflexivity.
  - split; [discriminate|]. intros [_ H].
    apply in_filter_hd in E as [Hin Hx]. rewrite (H x Hin) in Hx. discriminate.
Qed.

(** C3. On the raw CSV header row, after the normalisation of line 20,
    the sales column is the normalised form of the first raw header
    whose lower-cased text contains "sale" or "revenue": spaces,
    surrounding whitespace and capitals ("Total Sales", " SALES_USD ")
    neither hide nor create a match. *)
Theorem detect_sales_raw_headers raws c :
  detect_sales (normalize_columns raws) = Ok c <->
  exists pre r post, raws = pre ++ r :: post /\ c = normalize_name r /\
    matches_any sales_keywords (py_lower r) = true /\
    forall p, In p pre -> matches_any sales_keywords (py_lower p) = false.
Proof.
  unfold detect_sales. rewrite candidates_normalize by apply keywords_plain.
  set (q := fun r => matches_any sales_keywords (py_lower r)).
  destruct (filter q raws) as [|r rest] eqn:E; cbn [map].
  - split; [discriminate|]. intros (pre & r & post & -> & _ & Hr & _).
    rewrite filter_nil_iff in E.
    assert (HI : In r (pre ++ r :: post)) by (apply in_or_app; right; left; reflexivity).
    pose proof (E r HI) as Hf. unfold q in *. cbv beta in *. congruence.
  - rewrite hd_filter_spec in E. destruct E as (pre & post & -> & Hr & Hpre & _).
    rewrite forallb_forall in Hpre.
    assert (Hp : forall p, In p pre -> q p = false)
      by (intros p Hp; apply negb_true_iff, Hpre, Hp).
    split.
    + intros H. injection H as <-. exists pre, r, post. auto.
    + intros (pre' & r' & post' & Heq & -> & Hr' & Hpre').
      destruct (list_eq_first_match q pre r post pre' r' post') as [-> _]; auto.
Qed.

(** C4. The names line 20 leaves unchanged are exactly the normalised
    ones: no whitespace at either end ([str.strip]), no space inside
    ([replace(" ", "_")]) and no capital ([str.lower], Latin-1 included).
    In particular the normalisation is idempotent. *)
Theorem normalize_name_fixed_iff s :
  normalize_name s = s <->
  stripped s = true /\ forallb (fun c => negb (Ascii.eqb c " ") && negb (is_upper c)) s = true.
Proof.
  split.
  - intros E. rewrite <- E, normalize_name_map. split.
    + apply stripped_map; [apply norm_char_not_space | apply py_strip_stripped].
    + apply forallb_forall. intros x Hx. apply in_map_iff in Hx as (c & <- & _).
      apply andb_true_intro. split; apply negb_true_iff.
      * destruct (Ascii.eqb_spec (norm_char c) " ") as [H|]; [destruct (norm_char_no_space c H)|reflexivity].
      * unfold norm_char. apply py_lower_char_lower.
  - intros [Hs Hc]. rewrite normalize_name_map, (py_strip_noop s Hs). apply map_id_in.
    intros c Hin. rewrite forallb_forall in Hc. specialize (Hc c Hin).
    apply andb_true_iff in Hc as [H1 H2]. apply negb_true_iff in H1, H2.
    unfold norm_char. rewrite H1. apply py_lower_char_not_upper, H2.
Qed.

(** The tests [if region_col:] (line 96) and [if product_col:]
    (line 105) are true exactly when the lookup found a column: a
    detected name contains a keyword, so it is never the falsy [""]. *)
Theorem detected_names_truthy cols :
  (py_truthy_name (detect_optional region_keywords cols) = true <->
     detect_optional region_keywords cols <> None) /\
  (py_truthy_name (detect_optional product_keywords cols) = true <->
     detect_optional product_keywords cols <> None).
Proof.
  destruct keywords_plain as (_ & Hr & Hp).
  split; apply truthy_detect_optional; assumption.
Qed.

(** ** Witnesses and examples *)

Example detect_total_sales :
  detect_sales (normalize_columns [kw "Order ID"; kw " Total Sales "; kw "Revenue"])
  = Ok (kw "total_sales").
Proof. vm_compute. reflexivity. Qed.

Example detect_sales_missing :
  detect_sales (normalize_columns [kw "Date"; kw "Region"]) =
  Raise (PyException no_sales_msg).
Proof. vm_compute. reflexivity. Qed.

(** Normalisation merges headers: pandas' [read_csv] keeps "Sales" and
    "sales " apart, line 20 makes both "sales", and [df["sales"]] is then
    a two-column frame. *)
Example normalize_collision :
  normalize_columns [kw "Sales"; kw "sales "] = [kw "sales"; kw "sales"].
Proof. vm_compute. reflexivity. Qed.

(** One header can take two roles: "sales_area" is both the sales and
    the region column, and line 99 then groups sales by the sales
    figures themselves. *)
Example sales_area_two_roles :
  detect_columns [kw "sales_area"] =
  Ok {| sales_col := kw "sales_area"; region_col := Some (kw "sales_area");
        product_col := None |}.
Proof. vm_compute. reflexivity. Qed.

End Detect.
