(* ===== verification/Describe.v ===== *)
(** * Descriptive statistics of the sales column (lines 50-62)

    The sales column is a [list Q]: a pandas float column with exact
    rational values.  [py_sum] is numpy's accumulation (a left fold from
    0, the loop of [np.add.reduce]); [mean], [median], [var] are
    [Series.mean], [Series.median] and [Series.var] (ddof = 1), with
    [None] for the NaN they return on too few values; [modes] is
    [Series.mode()] (the most frequent values, deduplicated and sorted,
    as pandas' [algorithms.mode] returns them) and [mode0] its element
    [[0]], a [KeyError] on an empty column; [quantile] is numpy's
    [method="linear"] percentile that [describe()] prints as 25%, 50%,
    75%.  Sorting is the Standard Library's merge sort on [Qle_bool]:
    any sort gives the same values up to [==].

    The theorems: the mean lies between the minimum and the maximum;
    the median is [describe]'s 50% quantile; every quantile is the
    linear interpolation between the two order statistics around its
    virtual index; the mode is a most frequent value and the least of
    them; the sample variance is non-negative and zero exactly on
    constant columns. *)

From Stdlib Require Import QArith Qround ZArith Lqa List Mergesort Orders Sorted Permutation Lia.
From S2P Require Import Prelude.
Import ListNotations.
Local Open Scope Q_scope.

(** ** Sorting on [Q] *)

Module QOrder <: TotalLeBool.
Definition t := Q.
Definition leb := Qle_bool.
Theorem leb_total : forall x y, leb x y = true \/ leb y x = true.
Proof.
  intros x y. unfold leb. rewrite !Qle_bool_iff.
  destruct (Qlt_le_dec x y); [left; apply Qlt_le_weak; assumption | right; assumption].
Qed.
End QOrder.

Module QSort := Sort QOrder.

Module Stats.

(** ** Definitions *)

(** A natural number as a rational. *)
Definition qnat (n : nat) : Q := inject_Z (Z.of_nat n).

(** [np.add.reduce]: the accumulator starts at 0 and adds the values
    left to right. *)
Definition py_sum (xs : list Q) : Q := fold_left Qplus xs 0.

(** [Series.mean] (line 53): the sum over the count; NaN when empty. *)
Definition mean (xs : list Q) : option Q :=
  match length xs with
  | O => None
  | n => Some (py_sum xs / qnat n)
  end.

(** [Series.median] (line 54): the middle value of the sorted column, or
    the mean of the two middle values; NaN when empty. *)
Definition median (xs : list Q) : option Q :=
  let s := QSort.sort xs in
  let n := length s in
  match n with
  | O => None
  | _ => if Nat.odd n then Some (nth (Nat.div n 2) s 0)
         else Some ((nth (Nat.pred (Nat.div n 2)) s 0 + nth (Nat.div n 2) s 0) / 2)
  end.

(** How often [x] occurs, comparing by value. *)
Definition count_eq (x : Q) (xs : list Q) : nat :=
  length (filter (Qeq_bool x) xs).

(** The values of [xs] without repeats, first occurrences kept. *)
Fixpoint dedup_from (seen xs : list Q) : list Q :=
  match xs with
  | [] => []
  | x :: xs' =>
      if existsb (Qeq_bool x) seen then dedup_from seen xs'
      else x :: dedup_from (x :: seen) xs'
  end.

Definition dedup (xs : list Q) : list Q := dedup_from [] xs.

Definition max_count (xs : list Q) : nat :=
  fold_right Nat.max O (map (fun x => count_eq x xs) xs).

(** [Series.mode()]: the values of highest count, sorted. *)
Definition modes (xs : list Q) : list Q :=
  QSort.sort (dedup (filter (fun x => Nat.eqb (count_eq x xs) (max_count xs)) xs)).

(** [df[sales_col].mode()[0]] (line 55): a label lookup in the result's
    [RangeIndex], a [KeyError] when the column is empty. *)
Definition mode0 (xs : list Q) : result Q :=
  match modes xs with
  | [] => Raise PyKeyError
  | m :: _ => Ok m
  end.

(** The sum of squared deviations from the mean. *)
Definition sum_sq_dev (xs : list Q) (m : Q) : Q :=
  py_sum (map (fun x => (x - m) * (x - m)) xs).

(** [Series.var()] with ddof = 1 (nanops.nanvar): NaN when fewer than two
    values. *)
Definition var (xs : list Q) : option Q :=
  match length xs with
  | O | S O => None
  | n => Some (sum_sq_dev xs (py_sum xs / qnat n) / qnat (n - 1))
  end.

(** numpy's linear interpolation between two order statistics. *)
Definition lerp (a b g : Q) : Q := a + (b - a) * g.

(** numpy's [_quantile] at a virtual index [v] of the sorted values [s]:
    the order statistics [floor v] and [floor v + 1] (the latter clipped
    to [n - 1]) interpolated at the fractional part. *)
Definition interp (s : list Q) (v : Q) : Q :=
  let i := Z.to_nat (Qfloor v) in
  let j := Nat.min (S i) (length s - 1) in
  lerp (nth i s 0) (nth j s 0) (v - qnat i).

(** [np.percentile(xs, 100 q, method="linear")]: the virtual index is
    [q (n - 1)]; NaN on an empty column. *)
Definition quantile (q : Q) (xs : list Q) : option Q :=
  let s := QSort.sort xs in
  match length s with
  | O => None
  | S m => Some (interp s (q * qnat m))
  end.

(** [Series.min()], [Series.max()]. *)
Definition smin (xs : list Q) : option Q :=
  match QSort.sort xs with [] => None | x :: _ => Some x end.

Definition smax (xs : list Q) : option Q :=
  match rev (QSort.sort xs) with [] => None | x :: _ => Some x end.

(** [Series.describe()] (line 51) without the standard deviation, which
    needs a square root and is in [Inference]. *)
Record summary : Type := {
  d_count : nat;
  d_mean : option Q;
  d_min : option Q;
  d_q25 : option Q;
  d_q50 : option Q;
  d_q75 : option Q;
  d_max : option Q
}.

Definition describe (xs : list Q) : summary :=
  {| d_count := length xs;
     d_mean := mean xs;
     d_min := smin xs;
     d_q25 := quantile (1 # 4) xs;
     d_q50 := quantile (1 # 2) xs;
     d_q75 := quantile (3 # 4) xs;
     d_max := smax xs |}.

(** The column of the spec's worked example. *)
Definition spec_sample : list Q := [10; 10; 20; 30; 1000].

(** A column where two values tie for the highest count, the larger first. *)
Definition tie_sample : list Q := [30; 10; 30; 10].

(** An optional float equal (by value) to [q]; NaN equals nothing. *)
Definition some_eq (o : option Q) (q : Q) : Prop :=
  match o with Some x => x == q | None => False end.

(** Two optional floats both NaN, or equal by value. *)
Definition opt_eq (o1 o2 : option Q) : Prop :=
  match o1, o2 with
  | Some x, Some y => x == y
  | None, None => True
  | _, _ => False
  end.

(** Two optional floats both numbers and ordered. *)
Definition opt_le (o1 o2 : option Q) : Prop :=
  match o1, o2 with
  | Some x, Some y => x <= y
  | _, _ => False
  end.

(** ** Sorted lists *)

Definition qle (x y : Q) : Prop := Qle_bool x y = true.

Lemma qle_iff x y : qle x y <-> x <= y.
Proof. apply Qle_bool_iff. Qed.

Lemma sort_strongly_sorted xs : StronglySorted qle (QSort.sort xs).
Proof.
  apply Sorted_StronglySorted; [|apply QSort.Sorted_sort].
  intros x y z Hxy Hyz. apply qle_iff. apply qle_iff in Hxy, Hyz.
  eapply Qle_trans; eassumption.
Qed.

Lemma length_sort xs : length (QSort.sort xs) = length xs.
Proof. symmetry. apply Permutation_length, QSort.Permuted_sort. Qed.

(** The first element of a sorted permutation is below every element. *)
Lemma sorted_hd_le s x y :
  StronglySorted qle (x :: s) -> In y (x :: s) -> x <= y.
Proof.
  intros Hs [<-|Hy]; [apply Qle_refl|].
  apply StronglySorted_inv in Hs as [_ Ha]. rewrite Forall_forall in Ha.
  apply qle_iff, Ha, Hy.
Qed.

(** ** Floors *)

Lemma Qfloor_unique (z : Z) (x : Q) :
  inject_Z z <= x -> x < inject_Z (z + 1) -> Qfloor x = z.
Proof.
  intros H1 H2.
  assert (A : (z <= Qfloor x)%Z).
  { assert (B : x < inject_Z (Qfloor x + 1)) by apply Qlt_floor.
    assert (C : (z < Qfloor x + 1)%Z) by (rewrite Zlt_Qlt; eapply Qle_lt_trans; eauto).
    lia. }
  assert (B : (Qfloor x <= z)%Z).
  { assert (C : inject_Z (Qfloor x) <= x) by apply Qfloor_le.
    assert (D : (Qfloor x < z + 1)%Z) by (rewrite Zlt_Qlt; eapply Qle_lt_trans; eauto).
    lia. }
  lia.
Qed.

Lemma qnat_le (m n : nat) : (m <= n)%nat <-> qnat m <= qnat n.
Proof. unfold qnat. rewrite <- Zle_Qle. lia. Qed.

Lemma qnat_nonneg (n : nat) : 0 <= qnat n.
Proof. change 0 with (qnat 0). apply qnat_le. lia. Qed.

Lemma qnat_add m n : qnat (m + n) == qnat m + qnat n.
Proof. unfold qnat. rewrite Nat2Z.inj_add, inject_Z_plus. reflexivity. Qed.

Lemma qnat_1 : qnat 1 == 1.
Proof. reflexivity. Qed.

Lemma qnat_pos n : (0 < n)%nat -> 0 < qnat n.
Proof. intros H. unfold qnat. change 0 with (inject_Z 0). rewrite <- Zlt_Qlt. lia. Qed.

Lemma div2_odd k : Nat.div (2 * k + 1) 2 = k.
Proof. rewrite Nat.mul_comm, Nat.div_add_l by lia. simpl. lia. Qed.

Lemma div2_even k : Nat.div (2 * k + 2) 2 = S k.
Proof. replace (2 * k + 2)%nat with (S k * 2)%nat by lia. apply Nat.div_mul. lia. Qed.

(** At an integral virtual index [k], [interp] is the order statistic [k]. *)
Lemma interp_at_index s k v :
  (k < length s)%nat -> v == qnat k -> interp s v == nth k s 0.
Proof.
  intros Hk Hv. unfold interp.
  assert (F : Qfloor v = Z.of_nat k).
  { apply Qfloor_unique; rewrite Hv; unfold qnat;
      [apply Qle_refl | rewrite inject_Z_plus; change (inject_Z 1) with 1; lra]. }
  rewrite F, Nat2Z.id. unfold lerp. rewrite Hv. ring.
Qed.

(** Between the indices [k] and [k + 1], at fraction [g], [interp] is
    the linear interpolation of the two order statistics; at the last
    index ([g = 0]) the clipped neighbour does not matter. *)
Lemma interp_linear s v k g :
  (k < length s)%nat -> 0 <= g -> g < 1 -> (g == 0 \/ (S k < length s)%nat) ->
  v == qnat k + g -> interp s v == nth k s 0 + (nth (S k) s 0 - nth k s 0) * g.
Proof.
  intros Hk G0 G1 Hj Hv. unfold interp.
  assert (F : Qfloor v = Z.of_nat k).
  { apply Qfloor_unique; rewrite Hv; unfold qnat;
      [lra | rewrite inject_Z_plus; change (inject_Z 1) with 1; lra]. }
  rewrite F, Nat2Z.id. unfold lerp. rewrite Hv. destruct Hj as [Hg|Hj].
  - rewrite Hg. ring.
  - replace (Nat.min (S k) (length s - 1)) with (S k) by lia. ring.
Qed.

(** Halfway between the indices [k] and [k + 1], [interp] is the mean of
    the two order statistics. *)
Lemma interp_half s k v :
  (S k < length s)%nat -> v == qnat k + (1 # 2) ->
  interp s v == (nth k s 0 + nth (S k) s 0) / 2.
Proof.
  intros Hk Hv. unfold interp.
  assert (F : Qfloor v = Z.of_nat k).
  { apply Qfloor_unique; rewrite Hv; unfold qnat; rewrite ?inject_Z_plus;
      change (inject_Z 1) with 1; lra. }
  rewrite F, Nat2Z.id. replace (Nat.min (S k) (length s - 1)) with (S k) by lia.
  unfold lerp. rewrite Hv. field.
Qed.

(** ** Counting and deduplication *)

Lemma count_eq_compat x y xs : x == y -> count_eq x xs = count_eq y xs.
Proof.
  intros E. unfold count_eq. f_equal. apply filter_ext. intros z.
  apply eq_iff_eq_true. rewrite !Qeq_bool_iff. split; intros H; [rewrite <- E | rewrite E]; exact H.
Qed.

Lemma count_le_max_count y xs : In y xs -> (count_eq y xs <= max_count xs)%nat.
Proof.
  unfold max_count. set (f := fun x => count_eq x xs).
  change (count_eq y xs) with (f y). clearbody f. generalize xs as l.
  induction l as [|a l IH]; simpl; [tauto|].
  intros [<-|H]; [lia | specialize (IH H); lia].
Qed.

Lemma max_attained {A} (f : A -> nat) (l : list A) :
  l <> [] -> exists x, In x l /\ f x = fold_right Nat.max O (map f l).
Proof.
  induction l as [|a l IH]; [congruence|]. intros _. simpl.
  destruct l as [|b l].
  - exists a. simpl. split; [auto | lia].
  - destruct IH as (x & Hx & Ex); [discriminate|].
    destruct (Nat.le_ge_cases (f a) (fold_right Nat.max O (map f (b :: l)))).
    + exists x. split; [right; exact Hx | lia].
    + exists a. split; [left; reflexivity | lia].
Qed.

Lemma dedup_from_incl seen xs x : In x (dedup_from seen xs) -> In x xs.
Proof.
  revert seen. induction xs as [|a xs IH]; intros seen; simpl; [tauto|].
  destruct (existsb (Qeq_bool a) seen).
  - intros H. right. eapply IH. exact H.
  - intros [<-|H]; [left; reflexivity | right; eapply IH; exact H].
Qed.

Lemma dedup_from_complete seen xs y :
  In y xs -> exists z, (In z seen \/ In z (dedup_from seen xs)) /\ z == y.
Proof.
  revert seen. induction xs as [|a xs IH]; intros seen; simpl; [tauto|].
  intros [->|Hy].
  - destruct (existsb (Qeq_bool y) seen) eqn:E.
    + apply existsb_exists in E as (z & Hz & Ez). apply Qeq_bool_iff in Ez.
      exists z. split; [left; exact Hz | symmetry; exact Ez].
    + exists y. split; [right; left; reflexivity | reflexivity].
  - destruct (existsb (Qeq_bool a) seen); [apply IH, Hy|].
    destruct (IH (a :: seen) Hy) as (z & [[<-|Hz]|Hz] & Ez).
    + exists a. split; [right; left; reflexivity | exact Ez].
    + exists z. split; [left; exact Hz | exact Ez].
    + exists z. split; [right; right; exact Hz | exact Ez].
Qed.

Lemma dedup_complete xs y : In y xs -> exists z, In z (dedup xs) /\ z == y.
Proof.
  intros H. destruct (dedup_from_complete [] xs y H) as (z & [[]|Hz] & Ez).
  exists z. auto.
Qed.

(** Every value of [modes xs] is a value of [xs] of highest count. *)
Lemma in_modes xs m :
  In m (modes xs) -> In m xs /\ count_eq m xs = max_count xs.
Proof.
  unfold modes. intros H.
  apply (Permutation_in _ (Permutation_sym (QSort.Permuted_sort _))) in H.
  apply dedup_from_incl, filter_In in H as [H E]. apply Nat.eqb_eq in E. auto.
Qed.

(** Every value of highest count has a representative in [modes xs]. *)
Lemma modes_complete xs y :
  In y xs -> count_eq y xs = max_count xs -> exists z, In z (modes xs) /\ z == y.
Proof.
  intros Hy E. destruct (dedup_complete (filter (fun x => Nat.eqb (count_eq x xs) (max_count xs)) xs) y)
    as (z & Hz & Ez).
  { apply filter_In. split; [exact Hy | apply Nat.eqb_eq, E]. }
  exists z. split; [|exact Ez]. unfold modes.
  apply (Permutation_in _ (QSort.Permuted_sort _)), Hz.
Qed.

(** ** Sums *)

Lemma fold_left_Qplus_acc xs a : fold_left Qplus xs a == a + fold_left Qplus xs 0.
Proof.
  revert a. induction xs as [|x xs IH]; intros a; simpl; [ring|].
  rewrite (IH (a + x)), (IH (0 + x)). ring.
Qed.

Lemma py_sum_nil : py_sum [] == 0.
Proof. reflexivity. Qed.

Lemma py_sum_cons x xs : py_sum (x :: xs) == x + py_sum xs.
Proof. unfold py_sum. simpl. rewrite fold_left_Qplus_acc. ring. Qed.

(** numpy's left fold is the right-nested sum. *)
Lemma py_sum_fold_right xs : py_sum xs == fold_right Qplus 0 xs.
Proof.
  induction xs as [|x xs IH]; [reflexivity|].
  rewrite py_sum_cons, IH. reflexivity.
Qed.

Lemma py_sum_const xs c : (forall x, In x xs -> x == c) -> py_sum xs == qnat (length xs) * c.
Proof.
  induction xs as [|x xs IH]; intros H; [reflexivity|].
  rewrite py_sum_cons, IH by (intros y Hy; apply H; right; exact Hy).
  simpl length. rewrite (H x (or_introl eq_refl)).
  replace (S (length xs)) with (length xs + 1)%nat by lia.
  rewrite qnat_add, qnat_1. ring.
Qed.

Lemma py_sum_nonneg {A} (f : A -> Q) (xs : list A) :
  (forall x, 0 <= f x) -> 0 <= py_sum (map f xs).
Proof.
  intros Hf. induction xs as [|x xs IH]; [apply Qle_refl|].
  simpl map. rewrite py_sum_cons. specialize (Hf x). lra.
Qed.

Lemma py_sum_zero {A} (f : A -> Q) (xs : list A) :
  (forall x, 0 <= f x) -> py_sum (map f xs) == 0 -> forall x, In x xs -> f x == 0.
Proof.
  intros Hf. induction xs as [|x xs IH]; intros H y Hy; [destruct Hy|].
  simpl map in H. rewrite py_sum_cons in H.
  pose proof (py_sum_nonneg f xs Hf). pose proof (Hf x).
  destruct Hy as [<-|Hy]; [lra | apply IH; [lra | exact Hy]].
Qed.

Lemma div_pos_zero a b : 0 < b -> a / b == 0 -> a == 0.
Proof.
  intros Hb H. setoid_replace a with (a / b * b).
  - rewrite H. ring.
  - field. intros E. apply (Qlt_not_eq _ _ Hb). symmetry. exact E.
Qed.

Lemma sq_nonneg (x m : Q) : 0 <= (x - m) * (x - m).
Proof.
  destruct (Qlt_le_dec (x - m) 0) as [H|H]; [|apply Qmult_le_0_compat; exact H].
  setoid_replace ((x - m) * (x - m)) with ((m - x) * (m - x)) by ring.
  apply Qmult_le_0_compat; lra.
Qed.

Lemma sq_zero (x m : Q) : (x - m) * (x - m) == 0 -> x == m.
Proof. intros H. apply Qmult_integral in H as [H|H]; lra. Qed.

(** ** Variance *)

Lemma var_length xs v : var xs = Some v -> (2 <= length xs)%nat.
Proof. unfold var. destruct xs as [|a [|b xs]]; simpl; try discriminate. lia. Qed.

Lemma var_mean xs v : var xs = Some v -> exists m, mean xs = Some m.
Proof.
  intros H. apply var_length in H. unfold mean.
  destruct (length xs); [lia | eauto].
Qed.

Lemma var_nonneg xs v : var xs = Some v -> 0 <= v.
Proof.
  unfold var. destruct xs as [|a [|b xs]]; simpl length; try discriminate.
  intros H. injection H as <-.
  apply Qle_shift_div_l.
  - apply qnat_pos. lia.
  - rewrite Qmult_0_l. apply py_sum_nonneg. intros x. apply sq_nonneg.
Qed.

(** A non-empty column has a mode. *)
Lemma modes_nonempty xs : xs <> [] -> modes xs <> [].
Proof.
  intros Hne E. destruct xs as [|x xs]; [contradiction|].
  destruct (max_attained (fun y => count_eq y (x :: xs)) (x :: xs)) as (y & Hy & Ey);
    [discriminate|].
  destruct (modes_complete (x :: xs) y Hy Ey) as (z & Hz & _).
  rewrite E in Hz. exact Hz.
Qed.

Lemma mode0_ok xs : xs <> [] -> exists m, mode0 xs = Ok m.
Proof.
  intros Hne. unfold mode0. destruct (modes xs) as [|m r] eqn:E; [|eauto].
  exfalso. exact (modes_nonempty xs Hne E).
Qed.

(** ** Sums of shifted and mapped lists *)

Lemma py_sum_app a b : py_sum (a ++ b) == py_sum a + py_sum b.
Proof.
  induction a as [|x a IH]; simpl app; [rewrite py_sum_nil; ring|].
  rewrite !py_sum_cons, IH. ring.
Qed.

Lemma py_sum_map_ext {A} (f h : A -> Q) (xs : list A) :
  (forall x, In x xs -> f x == h x) -> py_sum (map f xs) == py_sum (map h xs).
Proof.
  induction xs as [|x xs IH]; intros H; [reflexivity|]. simpl map.
  rewrite !py_sum_cons, (H x (or_introl eq_refl)), IH by (intros y Hy; apply H; right; exact Hy).
  reflexivity.
Qed.

Lemma py_sum_map_sub {A} (f h : A -> Q) (xs : list A) :
  py_sum (map (fun x => f x - h x) xs) == py_sum (map f xs) - py_sum (map h xs).
Proof.
  induction xs as [|x xs IH]; simpl map; [rewrite !py_sum_nil; ring|].
  rewrite !py_sum_cons, IH. ring.
Qed.

Lemma py_sum_shift c xs :
  py_sum (map (fun x => x - c) xs) == py_sum xs - qnat (length xs) * c.
Proof.
  induction xs as [|x xs IH]; simpl map;
    [rewrite !py_sum_nil; change (qnat (length (@nil Q))) with 0; ring|].
  rewrite !py_sum_cons, IH. simpl length.
  replace (S (length xs)) with (length xs + 1)%nat by lia. rewrite qnat_add, qnat_1. ring.
Qed.

(** The computational formula of one group. *)
Lemma sum_sq_dev_expand xs m :
  sum_sq_dev xs m ==
  py_sum (map (fun x => x * x) xs) - 2 * m * py_sum xs + qnat (length xs) * m * m.
Proof.
  unfold sum_sq_dev.
  induction xs as [|x xs IH]; simpl map;
    [rewrite !py_sum_nil; change (qnat (length (@nil Q))) with 0; ring|].
  rewrite !py_sum_cons, IH. simpl length.
  replace (S (length xs)) with (length xs + 1)%nat by lia. rewrite qnat_add, qnat_1. ring.
Qed.

Lemma qnat_pos_ne {A} (xs : list A) : xs <> [] -> ~ qnat (length xs) == 0.
Proof.
  intros Hne E. destruct xs as [|x xs]; [congruence|].
  assert (P : 0 < qnat (length (x :: xs)))
    by (apply qnat_pos; simpl; lia).
  rewrite E in P. discriminate.
Qed.

Lemma Qdiv_nonneg a b : 0 <= a -> 0 <= b -> 0 <= a / b.
Proof. intros Ha Hb. unfold Qdiv. apply Qmult_le_0_compat; [exact Ha | apply Qinv_le_0_compat, Hb]. Qed.

Lemma Qsquare_nonneg (x : Q) : 0 <= x * x.
Proof. setoid_replace (x * x) with ((x - 0) * (x - 0)) by ring. apply sq_nonneg. Qed.

Lemma sum_sq_dev_nonneg xs m : 0 <= sum_sq_dev xs m.
Proof. apply py_sum_nonneg. intros x. apply sq_nonneg. Qed.

Lemma Qeq_bool_true a b : a == b -> Qeq_bool a b = true.
Proof. apply Qeq_bool_iff. Qed.

Lemma Qeq_bool_false a b : ~ a == b -> Qeq_bool a b = false.
Proof. intros H. destruct (Qeq_bool a b) eqn:E; [apply Qeq_bool_iff in E; contradiction | reflexivity]. Qed.

Lemma Qle_bool_true a b : a <= b -> Qle_bool a b = true.
Proof. apply Qle_bool_iff. Qed.

Lemma Qle_bool_false a b : b < a -> Qle_bool a b = false.
Proof.
  intros H. destruct (Qle_bool a b) eqn:E; [|reflexivity].
  apply Qle_bool_iff in E. exfalso. apply (Qlt_not_le _ _ H E).
Qed.

Lemma Qeq_bool_morph a b : a == b -> Qeq_bool a 0 = Qeq_bool b 0.
Proof.
  intros E. destruct (Qeq_dec b 0) as [Hb|Hb].
  - rewrite !Qeq_bool_true; [reflexivity | exact Hb | rewrite E; exact Hb].
  - rewrite !Qeq_bool_false; [reflexivity | exact Hb | rewrite E; exact Hb].
Qed.

(** ** The extremes bound the mean *)

Lemma StronglySorted_last {A} (R : A -> A -> Prop) l m y :
  StronglySorted R (l ++ [m]) -> In y l -> R y m.
Proof.
  induction l as [|a l IH]; simpl; intros Hs Hy; [destruct Hy|].
  apply StronglySorted_inv in Hs as [Hs Ha]. destruct Hy as [<-|Hy]; [|auto].
  rewrite Forall_forall in Ha. apply Ha, in_or_app. right. left. reflexivity.
Qed.

Lemma smin_le xs m x : smin xs = Some m -> In x xs -> m <= x.
Proof.
  unfold smin. pose proof (sort_strongly_sorted xs) as Hs.
  pose proof (QSort.Permuted_sort xs) as P.
  destruct (QSort.sort xs) as [|a s]; intros H Hx; [discriminate|]. injection H as <-.
  apply (sorted_hd_le s); [exact Hs | apply (Permutation_in _ P Hx)].
Qed.

Lemma smax_ge xs M x : smax xs = Some M -> In x xs -> x <= M.
Proof.
  unfold smax. pose proof (sort_strongly_sorted xs) as Hs.
  pose proof (QSort.Permuted_sort xs) as P.
  destruct (rev (QSort.sort xs)) as [|b r] eqn:E; intros H Hx; [discriminate|]. injection H as <-.
  assert (Es : QSort.sort xs = rev r ++ [b]) by (rewrite <- (rev_involutive (QSort.sort xs)), E; reflexivity).
  apply (Permutation_in _ P) in Hx. rewrite Es in Hs, Hx.
  apply in_app_or in Hx as [Hx|[<-|[]]]; [|apply Qle_refl].
  apply qle_iff. exact (StronglySorted_last qle _ _ _ Hs Hx).
Qed.

Lemma py_sum_lower xs c : (forall x, In x xs -> c <= x) -> qnat (length xs) * c <= py_sum xs.
Proof.
  induction xs as [|x xs IH]; intros H; [change (qnat 0 * c <= 0); setoid_replace (qnat 0 * c) with 0 by (unfold qnat; simpl; ring); apply Qle_refl|].
  rewrite py_sum_cons. simpl length. replace (S (length xs)) with (length xs + 1)%nat by lia.
  rewrite qnat_add, qnat_1. specialize (H x (or_introl eq_refl)) as Hx.
  specialize (IH (fun y Hy => H y (or_intror Hy))). lra.
Qed.

Lemma py_sum_upper xs c : (forall x, In x xs -> x <= c) -> py_sum xs <= qnat (length xs) * c.
Proof.
  induction xs as [|x xs IH]; intros H; [change (qnat 0 * c <= 0); setoid_replace (qnat 0 * c) with 0 by (unfold qnat; simpl; ring); apply Qle_refl|].
  rewrite py_sum_cons. simpl length. replace (S (length xs)) with (length xs + 1)%nat by lia.
  rewrite qnat_add, qnat_1. specialize (H x (or_introl eq_refl)) as Hx.
  specialize (IH (fun y Hy => H y (or_intror Hy))). lra.
Qed.

Lemma smin_some xs : xs <> [] -> exists m, smin xs = Some m.
Proof.
  intros Hne. unfold smin. pose proof (length_sort xs) as L.
  destruct (QSort.sort xs) as [|a s]; [destruct xs; [contradiction | discriminate] | eauto].
Qed.

Lemma smax_some xs : xs <> [] -> exists M, smax xs = Some M.
Proof.
  intros Hne. unfold smax. pose proof (length_sort xs) as L. rewrite <- length_rev in L.
  destruct (rev (QSort.sort xs)) as [|a s]; [destruct xs; [contradiction | discriminate] | eauto].
Qed.

(** The squared deviations from [m] vanish exactly when every value is [m]. *)
Lemma sum_sq_dev_zero_iff xs m : sum_sq_dev xs m == 0 <-> forall x, In x xs -> x == m.
Proof.
  split.
  - intros Z0 x Hx. apply sq_zero, (py_sum_zero _ xs (fun z => sq_nonneg z m) Z0 x Hx).
  - intros Hc. unfold sum_sq_dev. rewrite (py_sum_const _ 0); [ring|].
    intros z Hz. apply in_map_iff in Hz as (x & <- & Hx). rewrite (Hc x Hx). ring.
Qed.

(** The mean of a non-empty column all of whose values equal [a] is [a]. *)
Lemma py_sum_mean_const xs a :
  xs <> [] -> (forall x, In x xs -> x == a) -> py_sum xs / qnat (length xs) == a.
Proof.
  intros Hne Hc. rewrite (py_sum_const xs a Hc). field. apply qnat_pos_ne, Hne.
Qed.

(** The squared deviations from the mean vanish exactly on constant
    columns. *)
Lemma sum_sq_dev_mean_zero_iff xs :
  xs <> [] ->
  (sum_sq_dev xs (py_sum xs / qnat (length xs)) == 0 <-> forall x y, In x xs -> In y xs -> x == y).
Proof.
  intros Hne. rewrite sum_sq_dev_zero_iff. split.
  - intros H x y Hx Hy. rewrite (H x Hx), (H y Hy). reflexivity.
  - intros H x Hx. destruct xs as [|a xs']; [contradiction|].
    rewrite (py_sum_mean_const (a :: xs') a Hne) by (intros z Hz; apply H; [exact Hz | left; reflexivity]).
    apply H; [exact Hx | left; reflexivity].
Qed.

(** ** Theorems *)

(** C5. [describe()]'s 50% row is the median of line 54: numpy's linear
    percentile at one half equals pandas' median on every column, both
    NaN on an empty one. *)
Theorem median_is_q50 xs : opt_eq (median xs) (quantile (1 # 2) xs).
Proof.
  unfold median, quantile.
  set (s := QSort.sort xs).
  destruct (length s) as [|m] eqn:E; [exact I|].
  destruct (Nat.Even_or_Odd (S m)) as [[k Hk]|[k Hk]].
  - destruct k as [|k]; [lia|].
    assert (Hm : m = (2 * k + 1)%nat) by lia.
    rewrite Hk, Nat.odd_even. replace (2 * S k)%nat with (2 * k + 2)%nat by lia.
    rewrite div2_even. simpl Nat.pred. simpl opt_eq.
    symmetry. apply interp_half; [rewrite E; lia|].
    rewrite Hm. replace (2 * k + 1)%nat with (k + k + 1)%nat by lia.
    rewrite !qnat_add, qnat_1. ring.
  - assert (Hm : m = (2 * k)%nat) by lia.
    rewrite Hk, Nat.odd_odd, div2_odd. simpl opt_eq.
    symmetry. apply interp_at_index; [rewrite E; lia|].
    rewrite Hm. replace (2 * k)%nat with (k + k)%nat by lia.
    rewrite qnat_add. ring.
Qed.

(** C6. The quantile rows of [describe()] (line 51) are numpy's linear
    percentiles: at a level [q] whose virtual index [q (n - 1)] is
    [k + g] with [0 <= g < 1], the row is the [k]-th smallest value plus
    the fraction [g] of the gap to the next one; at an integral index it
    is the [k]-th smallest value itself. *)
Theorem quantile_linear q xs k g :
  (k < length xs)%nat -> 0 <= g -> g < 1 -> (g == 0 \/ (S k < length xs)%nat) ->
  q * qnat (length xs - 1) == qnat k + g ->
  some_eq (quantile q xs)
    (nth k (QSort.sort xs) 0 + (nth (S k) (QSort.sort xs) 0 - nth k (QSort.sort xs) 0) * g).
Proof.
  intros Hk G0 G1 Hj Hq. unfold quantile. pose proof (length_sort xs) as L.
  destruct (length (QSort.sort xs)) as [|m] eqn:E; [lia|]. simpl.
  apply interp_linear; [rewrite E; lia | exact G0 | exact G1 | destruct Hj; [left | right; rewrite E; lia]; assumption |].
  rewrite <- Hq. replace (length xs - 1)%nat with m by lia. reflexivity.
Qed.

(** The 75% row of [1, 2, 4, 8]: index 9/4, a quarter of the way from 4 to 8. *)
Lemma quantile_linear_witness :
  (2 < length [8; 1; 4; 2])%nat /\ 0 <= 1 # 4 /\ 1 # 4 < 1 /\
  ((1 # 4) == 0 \/ (3 < length [8; 1; 4; 2])%nat) /\
  (3 # 4) * qnat (length [8; 1; 4; 2] - 1) == qnat 2 + (1 # 4) /\
  some_eq (quantile (3 # 4) [8; 1; 4; 2]) 5 /\
  some_eq (quantile (3 # 4) [8; 1; 4; 2])
    (nth 2 (QSort.sort [8; 1; 4; 2]) 0 +
     (nth 3 (QSort.sort [8; 1; 4; 2]) 0 - nth 2 (QSort.sort [8; 1; 4; 2]) 0) * (1 # 4)).
Proof.
  assert (H1 : (2 < length [8; 1; 4; 2])%nat) by (simpl; lia).
  assert (H2 : 0 <= 1 # 4) by (vm_compute; discriminate).
  assert (H3 : 1 # 4 < 1) by (vm_compute; reflexivity).
  assert (H4 : (1 # 4) == 0 \/ (3 < length [8; 1; 4; 2])%nat) by (right; simpl; lia).
  assert (H5 : (3 # 4) * qnat (length [8; 1; 4; 2] - 1) == qnat 2 + (1 # 4)) by (vm_compute; reflexivity).
  do 5 (split; [assumption|]). split; [vm_compute; reflexivity|].
  apply (quantile_linear (3 # 4) [8; 1; 4; 2] 2 (1 # 4) H1 H2 H3 H4 H5).
Defined.

(** C7. [mode()[0]] (line 55) is a most frequent value of the column
    and, among the most frequent values, the least: pandas sorts the
    modes, so on a tie the first one in the column is not the one
    printed. *)
Theorem mode0_least_most_frequent xs m :
  mode0 xs = Ok m ->
  In m xs /\
  (forall y, In y xs -> (count_eq y xs <= count_eq m xs)%nat) /\
  (forall y, In y xs -> count_eq y xs = count_eq m xs -> m <= y).
Proof.
  unfold mode0. destruct (modes xs) as [|m' r] eqn:E; [discriminate|].
  intros H. injection H as <-.
  destruct (in_modes xs m') as [Hin Hc]; [rewrite E; left; reflexivity|].
  split; [exact Hin|split].
  - intros y Hy. rewrite Hc. apply count_le_max_count, Hy.
  - intros y Hy Ey. rewrite Hc in Ey.
    destruct (modes_complete xs y Hy Ey) as (z & Hz & Ez).
    rewrite <- Ez. rewrite E in Hz.
    apply (sorted_hd_le r); [|exact Hz].
    rewrite <- E. apply sort_strongly_sorted.
Qed.

Lemma mode0_least_most_frequent_witness :
  mode0 tie_sample = Ok 10 /\
  (In 10 tie_sample /\
   (forall y, In y tie_sample -> (count_eq y tie_sample <= count_eq 10 tie_sample)%nat) /\
   (forall y, In y tie_sample -> count_eq y tie_sample = count_eq 10 tie_sample -> 10 <= y)).
Proof.
  split; [vm_compute; reflexivity|].
  apply mode0_least_most_frequent. vm_compute. reflexivity.
Defined.

(** C8. [mode()[0]] raises [KeyError], and nothing else, exactly on an
    empty sales column. *)
Theorem mode0_error xs e : mode0 xs = Raise e <-> xs = [] /\ e = PyKeyError.
Proof.
  unfold mode0. destruct (modes xs) as [|m r] eqn:E.
  - split; [|intros [_ <-]; reflexivity]. intros H. injection H as <-.
    split; [|reflexivity]. destruct xs as [|x xs]; [reflexivity|].
    exfalso. exact (modes_nonempty (x :: xs) ltac:(discriminate) E).
  - split; [discriminate|]. intros [-> _]. vm_compute in E. discriminate.
Qed.

(** C9. The sample variance of [Series.var()] (and so [std()], line
    56) is non-negative, and it is zero exactly when the column is
    constant; it is NaN below two values. *)
Theorem var_zero_iff_constant xs v :
  var xs = Some v ->
  0 <= v /\ (v == 0 <-> forall x y, In x xs -> In y xs -> x == y).
Proof.
  unfold var. destruct xs as [|a [|b xs]]; simpl length; try discriminate.
  set (l := a :: b :: xs). set (n := S (S (length xs))).
  set (m := py_sum l / qnat n). intros H. injection H as <-.
  assert (Hn : 0 < qnat (S (length xs))) by (apply qnat_pos; lia).
  replace (n - 1)%nat with (S (length xs)) by lia.
  pose proof (py_sum_nonneg _ l (fun x => sq_nonneg x m)) as S0.
  split; [apply Qle_shift_div_l; [exact Hn | rewrite Qmult_0_l; exact S0]|]. split.
  - intros Z0. apply div_pos_zero in Z0; [|exact Hn].
    intros x y Hx Hy.
    pose proof (py_sum_zero _ l (fun z => sq_nonneg z m) Z0) as Z2.
    apply (Qeq_trans _ _ _ (sq_zero x _ (Z2 x Hx))).
    symmetry. exact (sq_zero y _ (Z2 y Hy)).
  - intros Hc. assert (Hm : m == a).
    { unfold m. rewrite (py_sum_const l a) by (intros x Hx; apply Hc; [exact Hx | left; reflexivity]).
      unfold l. simpl length. fold n. field. intros E.
      assert (P : 0 < qnat n)
        by (apply qnat_pos; unfold n; lia).
      lra. }
    unfold sum_sq_dev. rewrite (py_sum_const _ 0); [rewrite Qmult_0_r; reflexivity|].
    intros z Hz. apply in_map_iff in Hz as (x & <- & Hx).
    cbv beta. change (py_sum l / qnat (S (S (length xs)))) with m.
    rewrite Hm, (Hc x a Hx (or_introl eq_refl)). ring.
Qed.

Lemma var_zero_iff_constant_witness :
  var [5; 5; 5] = Some (0 # 1458) /\
  (0 <= 0 # 1458 /\
   (0 # 1458 == 0 <-> forall x y : Q, In x [5; 5; 5] -> In y [5; 5; 5] -> x == y)).
Proof.
  split; [vm_compute; reflexivity|]. apply var_zero_iff_constant. vm_compute. reflexivity.
Defined.

(** The mean printed by [describe()] (line 51) and by line 59
    lies between the column's minimum and maximum. *)
Theorem describe_mean_between xs :
  xs <> [] ->
  opt_le (d_min (describe xs)) (d_mean (describe xs)) /\
  opt_le (d_mean (describe xs)) (d_max (describe xs)).
Proof.
  intros Hne. simpl. destruct (smin_some xs Hne) as [m Hm], (smax_some xs Hne) as [M HM].
  rewrite Hm, HM. unfold mean.
  assert (Hn : 0 < qnat (length xs))
    by (destruct xs; [contradiction|]; apply qnat_pos; simpl; lia).
  destruct (length xs) as [|n] eqn:L; [discriminate|]. rewrite <- L in *. simpl.
  split.
  - apply Qle_shift_div_l; [exact Hn|]. rewrite Qmult_comm.
    apply py_sum_lower. intros x Hx. exact (smin_le xs m x Hm Hx).
  - apply Qle_shift_div_r; [exact Hn|]. rewrite Qmult_comm.
    apply py_sum_upper. intros x Hx. exact (smax_ge xs M x HM Hx).
Qed.

Lemma describe_mean_between_witness :
  spec_sample <> [] /\
  opt_le (d_min (describe spec_sample)) (d_mean (describe spec_sample)) /\
  opt_le (d_mean (describe spec_sample)) (d_max (describe spec_sample)).
Proof.
  split; [discriminate|]. apply describe_mean_between. discriminate.
Defined.

End Stats.
