(* ===== verification/Inference.v ===== *)
(** * The one-sample t test and the 95% interval (lines 56, 92, 114-122)

    scipy's Student t distribution is not code of the repository: the
    script only calls [stats.t] (through [ttest_1samp] and
    [t.interval]).  Its contract is the class [TDist]: the survival
    function is 1/2 at 0 (symmetry), and the percent point function is
    odd around 1/2, positive above 1/2 and decreasing in the degrees of
    freedom.  The script's theorems are proved against the class; the
    instance [toy_tdist] shows the contract is satisfiable.

    Floats are exact reals with the two special values the script can
    meet: [TNaN] (0/0, or too few values) and [TPosInf], [TNegInf] (a
    non-zero mean difference over a zero standard error).  [one_sample_t] is scipy's
    [ttest_1samp] statistic ([d = mean - popmean], [v = var(ddof=1)],
    [t = d / sqrt(v / n)]), [pvalue_two_sided] its p-value
    [2 * sf(|t|)] (NaN at 0 degrees of freedom), [sem] is
    [stats.sem], [t_interval] is
    [stats.t.interval(confidence, df, loc, scale)] (NaN unless
    [df > 0] and [scale > 0], the argument check of
    [rv_continuous.ppf]) and [margin_error] line 119.  [std] is line 56.  [FDist] is the contract of scipy's
    F survival function [special.fdtrc], used by the ANOVA p-value in
    [Tests]. *)

From Stdlib Require Import QArith Reals Qreals Lra List Lia.
From S2P Require Import Prelude Describe.
Import ListNotations.
Import Stats.
Local Open Scope R_scope.

(** ** scipy's t distribution, as a contract *)

Class TDist : Type := {
  t_sf : nat -> R -> R;
  t_ppf : nat -> R -> R;
  t_sf_zero : forall df, t_sf df 0 = 1 / 2;
  t_ppf_odd : forall df p, t_ppf df (1 - p) = - t_ppf df p;
  t_ppf_pos : forall df p, 1 / 2 < p < 1 -> 0 < t_ppf df p;
  t_ppf_antitone : forall df1 df2 p,
    (df1 <= df2)%nat -> 1 / 2 < p < 1 -> t_ppf df2 p <= t_ppf df1 p
}.

(** A function satisfying the contract (logistic tails, linear
    quantiles): not Student's law, only a proof that [TDist] has
    models. *)
#[export] Instance toy_tdist : TDist.
Proof.
  refine {| t_sf := fun _ x => / (1 + exp x);
            t_ppf := fun df p => (p - 1 / 2) * (1 + / INR (S df)) |}.
  - intros df. cbv beta. rewrite exp_0. field.
  - intros df p. cbv beta. field. apply not_0_INR. discriminate.
  - intros df p Hp. cbv beta. pose proof (pos_INR df). rewrite S_INR.
    assert (0 < / (INR df + 1)) by (apply Rinv_0_lt_compat; lra). nra.
  - intros df1 df2 p Hdf Hp. cbv beta. rewrite !S_INR. apply le_INR in Hdf.
    pose proof (pos_INR df1).
    assert (/ (INR df2 + 1) <= / (INR df1 + 1)) by (apply Rinv_le_contravar; lra).
    nra.
Qed.

(** scipy's F distribution, as a contract: [f_sf d1 d2 x] is
    [special.fdtrc(d1, d2, x)], the survival function used by
    [f_oneway] for its p-value; it is a probability and equals 1 at 0. *)
Class FDist : Type := {
  f_sf : nat -> nat -> R -> R;
  f_sf_zero : forall d1 d2, f_sf d1 d2 0 = 1;
  f_sf_range : forall d1 d2 x, 0 <= f_sf d1 d2 x <= 1
}.

(** A function satisfying the contract. *)
#[export] Instance toy_fdist : FDist.
Proof.
  refine {| f_sf := fun _ _ x => / (1 + Rabs x) |}.
  - intros d1 d2. cbv beta. rewrite Rabs_R0. field.
  - intros d1 d2 x. cbv beta. pose proof (Rabs_pos x).
    split; [apply Rlt_le, Rinv_0_lt_compat; lra|].
    rewrite <- Rinv_1. apply Rinv_le_contravar; lra.
Qed.

(** The normal distribution of scipy's [swilk] (line 73), as a
    contract: [norm_ppf] is the quantile [ppnd] (negative below 1/2) and
    [norm_sf] the upper tail [alnorm(z, .TRUE.)], a probability that
    decreases with [z]. *)
Class NormDist : Type := {
  norm_ppf : R -> R;
  norm_sf : R -> R;
  norm_ppf_neg : forall p, 0 < p < 1 / 2 -> norm_ppf p < 0;
  norm_sf_range : forall z, 0 <= norm_sf z <= 1;
  norm_sf_antitone : forall z1 z2, z1 <= z2 -> norm_sf z2 <= norm_sf z1
}.

(** A function satisfying the contract. *)
#[export] Instance toy_normdist : NormDist.
Proof.
  refine {| norm_ppf := fun p => p - 1 / 2; norm_sf := fun z => / (1 + exp z) |}.
  - intros p Hp. cbv beta. lra.
  - intros z. cbv beta. pose proof (exp_pos z).
    split; [apply Rlt_le, Rinv_0_lt_compat; lra|].
    rewrite <- Rinv_1. apply Rinv_le_contravar; lra.
  - intros z1 z2 Hz. cbv beta. pose proof (exp_pos z1).
    apply Rinv_le_contravar; [lra|]. destruct (Rle_lt_or_eq_dec _ _ Hz) as [Hlt| ->]; [|lra].
    pose proof (exp_increasing _ _ Hlt). lra.
Qed.

Section WithTDist.
Context `{TD : TDist}.

(** ** Definitions *)

(** A t statistic as numpy computes it. *)
Inductive tstat : Type :=
| TFin (t : R)
| TPosInf
| TNegInf
| TNaN.

(** A p-value: a number or NaN. *)
Inductive pval : Type :=
| PFin (p : R)
| PNaN.

(** numpy's [np.divide(d, np.sqrt(s2))] for a mean difference [d] and
    a squared standard error [s2]: [0/0] is NaN, [x/0] an infinity of
    the sign of [x]. *)
Definition t_div (d s2 : Q) : tstat :=
  if Qeq_bool s2 0 then
    (if Qeq_bool d 0 then TNaN else if Qle_bool d 0 then TNegInf else TPosInf)
  else TFin (Q2R d / sqrt (Q2R s2)).

(** [scipy.stats.ttest_1samp(xs, popmean)]: [d = mean - popmean],
    [v = var(ddof=1)], [t = d / sqrt(v / n)]; NaN when the column has
    fewer than two values or when the mean is NaN. *)
Definition one_sample_t (xs : list Q) (popmean : option Q) : tstat :=
  match mean xs, var xs, popmean with
  | Some m, Some v, Some mu => t_div (m - mu)%Q (v / qnat (length xs))%Q
  | _, _, _ => TNaN
  end.

(** The two-sided p-value [2 * t.sf(|t|, df)]; [t.sf] is NaN at
    [df = 0] ([_argcheck] asks [df > 0]) and 0 at infinity. *)
Definition pvalue_two_sided (df : nat) (t : tstat) : pval :=
  match t with
  | TFin r => if (df =? 0)%nat then PNaN else PFin (2 * t_sf df (Rabs r))
  | TPosInf | TNegInf => if (df =? 0)%nat then PNaN else PFin 0
  | TNaN => PNaN
  end.

(** Line 92: the one-sample test of the sales column against
    [mean_sales], with [n - 1] degrees of freedom. *)
Definition p_val_1 (xs : list Q) : pval :=
  pvalue_two_sided (length xs - 1) (one_sample_t xs (mean xs)).

(** Line 131: [p_val_1 < 0.05], false on NaN. *)
Definition significant (p : pval) : bool :=
  match p with
  | PFin r => if Rlt_dec r (5 / 100) then true else false
  | PNaN => false
  end.

(** Line 56: [Series.std()], the square root of the ddof = 1 variance. *)
Definition std (xs : list Q) : option R :=
  match var xs with
  | Some v => Some (sqrt (Q2R v))
  | None => None
  end.

(** Line 116: [stats.sem], [std(ddof=1) / sqrt(n)]. *)
Definition sem (xs : list Q) : option R :=
  match std xs with
  | Some s => Some (s / sqrt (INR (length xs)))
  | None => None
  end.

(** [stats.t.interval(confidence, df, loc, scale)]: the central
    interval between the quantiles [(1 - c)/2] and [(1 + c)/2], each
    [rv_continuous.ppf(q, df, loc, scale)]; [ppf] returns NaN ([None])
    unless its arguments pass [_argcheck(df) & (scale > 0)], i.e.
    [df > 0] and [scale > 0] ([loc] is a number here, the mean of a
    non-empty column).  The [ValueError] on a confidence outside [0, 1]
    cannot happen at line 118 (0.95) and is left out. *)
Definition t_interval (confidence : R) (df : nat) (loc scale : R) : option (R * R) :=
  if (0 <? df)%nat then
    if Rlt_dec 0 scale then
      Some (loc + scale * t_ppf df ((1 - confidence) / 2),
            loc + scale * t_ppf df ((1 + confidence) / 2))
    else None
  else None.

(** Lines 114-119: the half-width of the 95% interval, NaN when the
    interval is. *)
Definition margin_error (xs : list Q) : option R :=
  match mean xs, sem xs with
  | Some m, Some s =>
      match t_interval (95 / 100) (length xs - 1) (Q2R m) s with
      | Some ci => Some ((snd ci - fst ci) / 2)
      | None => None
      end
  | _, _ => None
  end.

(** Two columns of the same sample variance 2, of sizes 2 and 4. *)
Definition small_sample : list Q := [0; 2]%Q.
Definition large_sample : list Q := [0; 0; 1; 3]%Q.

(** ** Lemmas *)

Lemma Q2R_zero : Q2R 0 = 0.
Proof. unfold Q2R. simpl. apply Rmult_0_l. Qed.

Lemma Q2R_self_diff (m : Q) : Q2R (m - m) = 0.
Proof. rewrite (Qeq_eqR (m - m) 0) by ring. apply Q2R_zero. Qed.

Lemma Q2R_nonneg (q : Q) : (0 <= q)%Q -> 0 <= Q2R q.
Proof. intros H. rewrite <- Q2R_zero. apply Qle_Rle, H. Qed.

(** The two quantiles of a 95% interval are opposite. *)
Lemma ppf_95_lower df : t_ppf df ((1 - 95 / 100) / 2) = - t_ppf df (39 / 40).
Proof.
  replace ((1 - 95 / 100) / 2) with (1 - 39 / 40) by field. apply t_ppf_odd.
Qed.

Lemma ppf_95_upper df : t_ppf df ((1 + 95 / 100) / 2) = t_ppf df (39 / 40).
Proof. f_equal. field. Qed.

Lemma ppf_975_pos df : 0 < t_ppf df (39 / 40).
Proof. apply t_ppf_pos. lra. Qed.

(** The half-width of a 95% interval of positive scale. *)
Lemma t_interval_95 df loc s :
  (0 < df)%nat -> 0 < s ->
  exists ci, t_interval (95 / 100) df loc s = Some ci /\
             (snd ci - fst ci) / 2 = s * t_ppf df (39 / 40).
Proof.
  intros Hdf Hs. unfold t_interval. destruct (Nat.ltb_spec 0 df) as [_|]; [|lia].
  destruct (Rlt_dec 0 s) as [_|]; [|lra]. eexists. split; [reflexivity|].
  simpl. rewrite ppf_95_lower, ppf_95_upper. field.
Qed.

(** [sem] is defined exactly when the variance is, and positive exactly
    when it is. *)
Lemma sem_var xs s :
  sem xs = Some s -> exists v, var xs = Some v /\ s = sqrt (Q2R v) / sqrt (INR (length xs)).
Proof.
  unfold sem, std. destruct (var xs) as [v|]; [|discriminate].
  intros H. injection H as <-. exists v. split; reflexivity.
Qed.

Lemma sem_pos_iff xs v :
  var xs = Some v -> (0 < sqrt (Q2R v) / sqrt (INR (length xs)) <-> (0 < v)%Q).
Proof.
  intros Hv. pose proof (var_length xs v Hv) as L. pose proof (var_nonneg xs v Hv) as V0.
  assert (A1 : 0 < sqrt (INR (length xs))) by (apply sqrt_lt_R0, lt_0_INR; lia).
  split.
  - intros H. apply Qnot_le_lt. intros Hle. assert (E : (v == 0)%Q) by (apply Qle_antisym; assumption).
    rewrite (Qeq_eqR v 0 E), Q2R_zero, sqrt_0 in H. unfold Rdiv in H. lra.
  - intros Hpos. apply Rdiv_lt_0_compat; [|exact A1].
    apply sqrt_lt_R0. rewrite <- Q2R_zero. apply Qlt_Rlt, Hpos.
Qed.

(** The closed form of the margin of error: [sem * ppf(0.975, n - 1)]
    on a column of positive variance. *)
Lemma margin_error_eq xs v :
  var xs = Some v -> (0 < v)%Q ->
  margin_error xs =
  Some (sqrt (Q2R v) / sqrt (INR (length xs)) * t_ppf (length xs - 1) (39 / 40)).
Proof.
  intros Hv Hpos. destruct (var_mean xs v Hv) as [m Hm]. pose proof (var_length xs v Hv) as L.
  unfold margin_error. rewrite Hm. unfold sem, std. rewrite Hv.
  destruct (t_interval_95 (length xs - 1) (Q2R m) (sqrt (Q2R v) / sqrt (INR (length xs))))
    as (ci & -> & Hci); [lia | apply (sem_pos_iff xs v Hv), Hpos |].
  rewrite Hci. reflexivity.
Qed.

(** The one-sample test of line 92 is against the sample's own mean. *)
Lemma p_val_1_one_or_nan xs : p_val_1 xs = PFin 1 \/ p_val_1 xs = PNaN.
Proof.
  unfold p_val_1, one_sample_t.
  destruct (mean xs) as [m|]; [|right; reflexivity].
  destruct (var xs) as [v|] eqn:Ev; [|right; reflexivity].
  assert (Hd : Qeq_bool (m - m) 0 = true) by (apply Qeq_bool_iff; ring).
  unfold t_div. destruct (Qeq_bool (v / _) 0); [rewrite Hd; right; reflexivity|].
  left. apply var_length in Ev. simpl. destruct (Nat.eqb_spec (length xs - 1) 0); [lia|].
  rewrite Q2R_self_diff. unfold Rdiv. rewrite Rmult_0_l, Rabs_R0, t_sf_zero. f_equal. field.
Qed.

Lemma p_val_1_not_significant xs : significant (p_val_1 xs) = false.
Proof.
  destruct (p_val_1_one_or_nan xs) as [-> | ->]; [|reflexivity].
  simpl. destruct (Rlt_dec 1 (5 / 100)); [lra | reflexivity].
Qed.

(** A margin that is a number comes from a column of positive
    variance, with the closed form above. *)
Lemma margin_error_some xs M :
  margin_error xs = Some M -> exists v, var xs = Some v /\ (0 < v)%Q /\
    M = sqrt (Q2R v) / sqrt (INR (length xs)) * t_ppf (length xs - 1) (39 / 40).
Proof.
  intros H. pose proof H as H0. unfold margin_error in H.
  destruct (mean xs) as [m|]; [|discriminate].
  destruct (sem xs) as [s|] eqn:Es; [|discriminate].
  destruct (sem_var xs s Es) as (v & Hv & ->).
  assert (Hpos : (0 < v)%Q).
  { apply (sem_pos_iff xs v Hv). unfold t_interval in H.
    destruct (0 <? _)%nat; [|discriminate]. destruct (Rlt_dec 0 _); [assumption|discriminate]. }
  exists v. split; [exact Hv|]. split; [exact Hpos|].
  rewrite (margin_error_eq xs v Hv Hpos) in H0. injection H0 as <-. reflexivity.
Qed.

(** ** Theorems *)

(** C10. The one-sample t test of line 92 compares the sales column with
    its own mean, so its statistic is 0 (p-value exactly 1) or NaN
    (constant column or fewer than two values), and the test of line 131
    never declares the sales significant. *)
Theorem self_test_never_significant xs :
  (p_val_1 xs = PFin 1 \/ p_val_1 xs = PNaN) /\ significant (p_val_1 xs) = false.
Proof.
  split; [apply p_val_1_one_or_nan | apply p_val_1_not_significant].
Qed.

(** C11. The margin of error printed by lines 122 and 129 is exactly
    [sem * t.ppf(0.975, n - 1)] (the interval of line 118 is centred on
    [mean_sales]), and it is NaN exactly when [sem] is NaN (fewer than
    two values) or 0 (a constant column: [t.ppf] rejects [scale = 0]). *)
Theorem margin_error_spec xs :
  margin_error xs =
  match sem xs with
  | Some s => if Rlt_dec 0 s then Some (s * t_ppf (length xs - 1) (39 / 40)) else None
  | None => None
  end.
Proof.
  unfold margin_error. destruct (sem xs) as [s|] eqn:Es.
  - destruct (sem_var xs s Es) as (v & Hv & _). pose proof (var_length xs v Hv) as L.
    destruct (var_mean xs v Hv) as [m ->].
    destruct (Rlt_dec 0 s) as [Hs|Hs].
    + destruct (t_interval_95 (length xs - 1) (Q2R m) s) as (ci & -> & Hci); [lia | exact Hs |].
      rewrite Hci. reflexivity.
    + unfold t_interval. destruct (0 <? length xs - 1)%nat; [|reflexivity].
      destruct (Rlt_dec 0 s); [contradiction | reflexivity].
  - destruct (mean xs); reflexivity.
Qed.

(** C12. With the sample variance held fixed, the margin of error of
    line 119 never grows with the sample size, and shrinks strictly when
    the variance is positive (spec section 8). *)
Theorem margin_shrinks xs ys v w M1 M2 :
  var xs = Some v -> var ys = Some w -> (v == w)%Q ->
  (length xs < length ys)%nat ->
  margin_error xs = Some M1 -> margin_error ys = Some M2 ->
  M2 <= M1 /\ ((0 < v)%Q -> M2 < M1).
Proof.
  intros Hv Hw Evw Hn E1 E2.
  destruct (margin_error_some xs M1 E1) as (v' & Hv' & _ & ->).
  destruct (margin_error_some ys M2 E2) as (w' & Hw' & _ & ->).
  rewrite Hv in Hv'. rewrite Hw in Hw'. injection Hv' as <-. injection Hw' as <-.
  rewrite <- (Qeq_eqR v w Evw).
  pose proof (var_length xs v Hv) as L1.
  set (c1 := t_ppf (length xs - 1) (39 / 40)). set (c2 := t_ppf (length ys - 1) (39 / 40)).
  assert (C2 : 0 < c2) by apply ppf_975_pos.
  assert (C12 : c2 <= c1) by (apply t_ppf_antitone; [lia | lra]).
  assert (A1 : 0 < sqrt (INR (length xs))) by (apply sqrt_lt_R0, lt_0_INR; lia).
  assert (A12 : sqrt (INR (length xs)) < sqrt (INR (length ys)))
    by (apply sqrt_lt_1_alt; split; [apply pos_INR | apply lt_INR; exact Hn]).
  assert (I12 : / sqrt (INR (length ys)) < / sqrt (INR (length xs)))
    by (apply Rinv_lt_contravar; nra).
  assert (I2 : 0 < / sqrt (INR (length ys))) by (apply Rinv_0_lt_compat; lra).
  pose proof (sqrt_pos (Q2R v)) as S0. unfold Rdiv. rewrite !Rmult_assoc.
  assert (P : / sqrt (INR (length ys)) * c2 < / sqrt (INR (length xs)) * c1).
  { apply Rlt_le_trans with (/ sqrt (INR (length xs)) * c2).
    - apply Rmult_lt_compat_r; assumption.
    - apply Rmult_le_compat_l; [lra | exact C12]. }
  split; [apply Rmult_le_compat_l; lra|]. intros Hpos.
  assert (S1 : 0 < sqrt (Q2R v))
    by (apply sqrt_lt_R0; rewrite <- Q2R_zero; apply Qlt_Rlt, Hpos).
  apply Rmult_lt_compat_l; assumption.
Qed.

End WithTDist.

(** The contract's model instantiates the theorems at concrete columns. *)
Lemma margin_shrinks_witness :
  exists v w M1 M2,
    var small_sample = Some v /\ var large_sample = Some w /\ (v == w)%Q /\
    (length small_sample < length large_sample)%nat /\
    @margin_error toy_tdist small_sample = Some M1 /\ @margin_error toy_tdist large_sample = Some M2 /\
    (M2 <= M1 /\ ((0 < v)%Q -> M2 < M1)).
Proof.
  destruct (var small_sample) as [v|] eqn:Ev; [|discriminate].
  destruct (var large_sample) as [w|] eqn:Ew; [|discriminate].
  assert (Evw : (v == w)%Q)
    by (revert Ev Ew; vm_compute; intros H1 H2; injection H1 as <-; injection H2 as <-; reflexivity).
  assert (Hn : (length small_sample < length large_sample)%nat) by (simpl; lia).
  exists v, w. eexists. eexists. do 4 (split; [eauto|]).
  assert (Pv : (0 < v)%Q) by (revert Ev; vm_compute; intros H; injection H as <-; reflexivity).
  assert (Pw : (0 < w)%Q) by (revert Ew; vm_compute; intros H; injection H as <-; reflexivity).
  split; [apply (@margin_error_eq toy_tdist _ _ Ev Pv)|].
  split; [apply (@margin_error_eq toy_tdist _ _ Ew Pw)|].
  apply (@margin_shrinks toy_tdist small_sample large_sample v w); auto; apply margin_error_eq; auto.
Defined.

