(* ===== verification/Shapiro.v ===== *)
(** * The Shapiro-Wilk test of line 73 ([stats.shapiro])

    [scipy.stats.shapiro(x)] (scipy 1.14 and later) returns
    [(nan, nan)] below three values ([shapiro_test] is then [None]);
    otherwise it sorts the data, subtracts [x[N//2]] ([sw_input]) and
    calls [swilk], scipy's translation of Royston's algorithm AS R94
    ([SWILK] and [POLY]):

    - [swilk_coeffs]: the coefficients [a(1..N/2)] from the normal
      quantiles [m(i) = ppnd((i - 3/8) / (n + 1/4))], Royston's
      polynomials [C1], [C2] in [1/sqrt n] for [a(1)] and [a(2)], the
      rest [-m(i)/fac]; [a(1) = sqrt(1/2)] for [n = 3];
    - [sw_stat]: [W] as the squared correlation of the data (divided by
      their range) with the signed coefficients, computed through
      [W1 = 1 - W];
    - [sw_pw]: the p-value: [6/pi (asin(sqrt W) - pi/3)] for [n = 3],
      Royston's normalising transformations of [log W1] otherwise, and
      the upper normal tail;
    - [swilk]: a range below [SMALL = 1e-19] returns [W = PW = 1]
      (scipy warns "Input data has range zero").

    The normal quantile [ppnd] and tail [alnorm] are the contract
    [NormDist] (file [Inference]).  The constants [SQRTH], [PI6],
    [STQR], given in the code to single or double precision, are their
    exact values [sqrt(1/2)], [6/pi], [pi/3].  IEEE NaN: a square root
    of a negative number or a [0/0] gives [None] (scipy returns [nan]);
    [log(0) = -inf] gives the tail [1].

    The theorems: the p-value is a probability and [W] lies in [0, 1],
    [W = 1] on a sample of negligible range and otherwise
    [W = (sum a x)^2 / (sum a^2 * sum x^2)] with the coefficients of
    [swilk_coeffs]; on three values [W] has a closed form and the
    p-value is 1 exactly when they are equally spaced and 0 exactly
    when two coincide; for [n >= 4] the p-value grows with [W]. *)

From Stdlib Require Import QArith Qreals Reals Lra List Lia Sorted Permutation.
From S2P Require Import Prelude Describe Inference.
Import ListNotations.

Module Shapiro.

Local Open Scope R_scope.

(** ** Sums *)

Fixpoint sumR (l : list R) : R :=
  match l with [] => 0 | x :: l' => x + sumR l' end.

(** The accumulation [S = S + U(I) * V(I)] of the loops of [SWILK]. *)
Definition dotR (u v : list R) : R := sumR (map (fun p => fst p * snd p) (combine u v)).

(** ** Royston's polynomials *)

(** [POLY(CC, NORD, X)]: [POLY = CC(1)]; [P = X * CC(NORD)]; then
    [P = (P + CC(J)) * X] for [J = NORD-1, ..., 2]; [POLY = POLY + P]. *)
Definition poly (cc : list R) (x : R) : R :=
  match cc with
  | [] => 0
  | c0 :: rest =>
      match rev rest with
      | [] => c0
      | clast :: mids => c0 + fold_left (fun p c => (p + c) * x) mids (x * clast)
      end
  end.

Definition c1 : list R := [0; 0.221157; -0.147981; -2.07119; 4.434685; -2.706056].
Definition c2 : list R := [0; 0.042981; -0.293762; -1.752461; 5.682633; -3.582633].
Definition c3 : list R := [0.544; -0.39978; 0.025054; -6.714e-4].
Definition c4 : list R := [1.3822; -0.77857; 0.062767; -0.0020322].
Definition c5 : list R := [-1.5861; -0.31082; -0.083751; 0.0038915].
Definition c6 : list R := [-0.4803; -0.082676; 0.0030302].
Definition g : list R := [-2.273; 0.459].
Definition small : R := 1e-19.

(** ** The statistic *)

(** [X(N1) - X(1)]. *)
Definition sw_range (y : list R) : R := last y 0 - hd 0 y.

(** [SIGN(1, I - J) * A(MIN(I, J))] at position [i] (from 0) with
    mirror [j = n - 1 - i], and [0] in the middle. *)
Definition sw_coef (a : list R) (n i : nat) : R :=
  let j := (n - 1 - i)%nat in
  if (i =? j)%nat then 0
  else if (i <? j)%nat then - nth i a 0
  else nth j a 0.

(** [ASA]: the signed coefficients minus their mean [SA]. *)
Definition sw_asa (a : list R) (n : nat) : list R :=
  let cs := map (sw_coef a n) (seq 0 n) in
  let sa := sumR cs / INR n in
  map (fun c => c - sa) cs.

(** [XSX]: the data over the range minus their mean [SX]. *)
Definition sw_xsx (y : list R) : list R :=
  let xs := map (fun v => v / sw_range y) y in
  let sx := sumR xs / INR (length y) in
  map (fun v => v - sx) xs.

(** [(W, W1)] from the sorted data: [SSA], [SSX], [SAX], then
    [SSASSX = SQRT(SSA * SSX)] and
    [W1 = (SSASSX - SAX) * (SSASSX + SAX) / (SSA * SSX)], [W = 1 - W1];
    [None] is the NaN of [0/0]. *)
Definition sw_stat (a : list R) (y : list R) : option (R * R) :=
  let asa := sw_asa a (length y) in
  let xsx := sw_xsx y in
  let ssa := dotR asa asa in
  let ssx := dotR xsx xsx in
  let sax := dotR asa xsx in
  if Req_EM_T (ssa * ssx) 0 then None
  else
    let ssassx := sqrt (ssa * ssx) in
    let w1 := (ssassx - sax) * (ssassx + sax) / (ssa * ssx) in
    Some (1 - w1, w1).

(** ** [W] is a squared correlation *)

Lemma dotR_cons (a b : R) (u v : list R) : dotR (a :: u) (b :: v) = a * b + dotR u v.
Proof. reflexivity. Qed.

Lemma dotR_self_nonneg (u : list R) : 0 <= dotR u u.
Proof.
  induction u as [|a u IH]; [unfold dotR; simpl; lra|].
  rewrite dotR_cons. pose proof (Rle_0_sqr a). unfold Rsqr in *. lra.
Qed.

(** Cauchy-Schwarz for the sums of [SWILK]. *)
Lemma dotR_cauchy_schwarz (u v : list R) : dotR u v * dotR u v <= dotR u u * dotR v v.
Proof.
  revert v. induction u as [|a u IH]; intros [|b v].
  - unfold dotR; simpl; lra.
  - unfold dotR at 1 2 3; simpl. pose proof (dotR_self_nonneg (b :: v)). nra.
  - unfold dotR at 1 2 4; simpl. pose proof (dotR_self_nonneg (a :: u)). nra.
  - rewrite !dotR_cons. specialize (IH v).
    pose proof (dotR_self_nonneg u) as HU. pose proof (dotR_self_nonneg v) as HV.
    set (S := dotR u v) in *. set (U := dotR u u) in *. set (V := dotR v v) in *.
    assert (H2 : (2 * a * b * S) * (2 * a * b * S) <= (a * a * V + b * b * U) * (a * a * V + b * b * U)).
    { assert (0 <= (a * a * V - b * b * U) * (a * a * V - b * b * U)) by apply Rle_0_sqr.
      assert (0 <= a * a * b * b) by (replace (a * a * b * b) with ((a * b) * (a * b)) by ring; apply Rle_0_sqr).
      nra. }
    assert (H3 : 2 * a * b * S <= a * a * V + b * b * U).
    { assert (0 <= a * a * V + b * b * U)
        by (assert (0 <= a * a) by apply Rle_0_sqr; assert (0 <= b * b) by apply Rle_0_sqr; nra).
      destruct (Rle_dec (2 * a * b * S) 0); [lra|]. nra. }
    nra.
Qed.

(** [W1 = 1 - SAX^2 / (SSA * SSX)]. *)
Lemma w1_formula (P sax : R) :
  0 < P -> (sqrt P - sax) * (sqrt P + sax) / P = 1 - sax * sax / P.
Proof.
  intros HP. replace ((sqrt P - sax) * (sqrt P + sax)) with (sqrt P * sqrt P - sax * sax) by ring.
  rewrite sqrt_sqrt by lra. field. lra.
Qed.

Lemma sw_stat_eq (a y : list R) :
  let asa := sw_asa a (length y) in
  let xsx := sw_xsx y in
  dotR asa asa * dotR xsx xsx <> 0 ->
  sw_stat a y = Some (dotR asa xsx * dotR asa xsx / (dotR asa asa * dotR xsx xsx),
                      1 - dotR asa xsx * dotR asa xsx / (dotR asa asa * dotR xsx xsx)).
Proof.
  cbv zeta. intros Hne. unfold sw_stat. cbv zeta.
  destruct (Req_EM_T _ 0) as [E|_]; [contradiction|].
  assert (HP : 0 < dotR (sw_asa a (length y)) (sw_asa a (length y)) * dotR (sw_xsx y) (sw_xsx y)).
  { pose proof (dotR_self_nonneg (sw_asa a (length y))). pose proof (dotR_self_nonneg (sw_xsx y)).
    assert (0 <= dotR (sw_asa a (length y)) (sw_asa a (length y)) * dotR (sw_xsx y) (sw_xsx y)) by nra.
    lra. }
  rewrite w1_formula by exact HP. f_equal. f_equal. ring.
Qed.

(** A statistic that is a number is [SAX^2 / (SSA * SSX)]. *)
Lemma sw_stat_some (a y : list R) (w w1 : R) :
  sw_stat a y = Some (w, w1) ->
  w = dotR (sw_asa a (length y)) (sw_xsx y) * dotR (sw_asa a (length y)) (sw_xsx y)
      / (dotR (sw_asa a (length y)) (sw_asa a (length y)) * dotR (sw_xsx y) (sw_xsx y)).
Proof.
  intros H. destruct (Req_EM_T (dotR (sw_asa a (length y)) (sw_asa a (length y))
                                * dotR (sw_xsx y) (sw_xsx y)) 0) as [E|Hne].
  - unfold sw_stat in H. cbv zeta in H. destruct (Req_EM_T _ 0); [discriminate|contradiction].
  - rewrite (sw_stat_eq a y Hne) in H. injection H as <- _. reflexivity.
Qed.

(** The statistic lies in [0, 1] and [W1 = 1 - W]. *)
Lemma sw_stat_range (a y : list R) (w w1 : R) :
  sw_stat a y = Some (w, w1) -> 0 <= w <= 1 /\ w1 = 1 - w.
Proof.
  intros H. set (asa := sw_asa a (length y)) in *. set (xsx := sw_xsx y) in *.
  destruct (Req_EM_T (dotR asa asa * dotR xsx xsx) 0) as [E|Hne].
  - unfold sw_stat in H. cbv zeta in H. fold asa xsx in H.
    destruct (Req_EM_T _ 0); [discriminate|contradiction].
  - rewrite (sw_stat_eq a y Hne) in H. injection H as <- <-. split; [|ring].
    pose proof (dotR_self_nonneg asa). pose proof (dotR_self_nonneg xsx).
    pose proof (dotR_cauchy_schwarz asa xsx).
    assert (HP : 0 < dotR asa asa * dotR xsx xsx)
      by (assert (0 <= dotR asa asa * dotR xsx xsx) by nra; lra).
    split.
    + apply Rmult_le_pos; [apply Rle_0_sqr|apply Rlt_le, Rinv_0_lt_compat, HP].
    + apply (Rmult_le_reg_r (dotR asa asa * dotR xsx xsx)); [exact HP|].
      unfold Rdiv. rewrite Rmult_assoc, Rinv_l by (apply Rgt_not_eq, HP). fold asa xsx. lra.
Qed.

(** [PW = PI6 * (ASIN(SQRT(W)) - STQR)], the exact p-value for three
    values. *)
Definition pw_three (w : R) : R := 6 / PI * (asin (sqrt w) - PI / 3).

(** ** Three values *)

(** [W] of three sorted values with gaps [d1] and [d2]. *)
Definition w_three (d1 d2 : R) : R :=
  3 * ((d1 + d2) * (d1 + d2)) / (4 * (d1 * d1 + d1 * d2 + d2 * d2)).

Lemma sw_asa_three (a0 : R) : sw_asa [a0] 3 = [- a0; 0; a0].
Proof. unfold sw_asa, sw_coef. simpl. f_equal; [field|f_equal; [field|f_equal; field]]. Qed.

(** Whatever the coefficient [a(1)], three values give [w_three]. *)
Lemma sw_stat_three (a0 y1 y2 y3 : R) :
  a0 <> 0 -> y1 <= y2 -> y2 <= y3 -> y1 < y3 ->
  sw_stat [a0] [y1; y2; y3] = Some (w_three (y2 - y1) (y3 - y2), 1 - w_three (y2 - y1) (y3 - y2)).
Proof.
  intros Ha H12 H23 H13.
  set (D := (y2 - y1) * (y2 - y1) + (y2 - y1) * (y3 - y2) + (y3 - y2) * (y3 - y2)).
  assert (HD : 0 < D) by (unfold D; nra).
  assert (Essa : dotR [- a0; 0; a0] [- a0; 0; a0] = 2 * (a0 * a0)) by (unfold dotR; simpl; ring).
  assert (Essx : dotR (sw_xsx [y1; y2; y3]) (sw_xsx [y1; y2; y3])
                 = 2 * D / (3 * ((y3 - y1) * (y3 - y1)))).
  { unfold sw_xsx, sw_range, dotR, D. simpl. field. lra. }
  assert (Esax : dotR [- a0; 0; a0] (sw_xsx [y1; y2; y3]) = a0).
  { unfold sw_xsx, sw_range, dotR. simpl. field. lra. }
  assert (Ha2 : 0 < a0 * a0) by (destruct (Rlt_or_le 0 a0); [nra|]; destruct (Rle_lt_or_eq_dec _ _ H); [nra|congruence]).
  rewrite sw_stat_eq; cbn [length]; rewrite sw_asa_three, Essa, Essx, ?Esax.
  - unfold w_three. fold D. f_equal. f_equal; field; split; lra.
  - assert (0 < 2 * D / (3 * ((y3 - y1) * (y3 - y1)))).
    { apply Rdiv_lt_0_compat; [lra|]. assert (0 < (y3 - y1) * (y3 - y1)) by nra. lra. }
    apply Rgt_not_eq. nra.
Qed.

Lemma rdiv_pos_nonneg (t u : R) : 0 <= t -> 0 < u -> 0 <= t / u.
Proof. intros Ht Hu. apply Rmult_le_pos; [exact Ht|apply Rlt_le, Rinv_0_lt_compat, Hu]. Qed.

Lemma rdiv_pos_zero (t u : R) : 0 < u -> t / u = 0 <-> t = 0.
Proof.
  intros Hu. split; intros H.
  - replace t with (t / u * u) by (field; lra). rewrite H. ring.
  - rewrite H. unfold Rdiv. ring.
Qed.

Lemma w_three_range (d1 d2 : R) :
  0 <= d1 -> 0 <= d2 -> 0 < d1 + d2 ->
  3 / 4 <= w_three d1 d2 <= 1 /\ (w_three d1 d2 = 3 / 4 <-> d1 = 0 \/ d2 = 0) /\
  (w_three d1 d2 = 1 <-> d1 = d2).
Proof.
  intros H1 H2 H12.
  assert (HD : 0 < 4 * (d1 * d1 + d1 * d2 + d2 * d2)) by nra.
  assert (Elo : w_three d1 d2 = 3 / 4 + 3 * (d1 * d2) / (4 * (d1 * d1 + d1 * d2 + d2 * d2)))
    by (unfold w_three; field; lra).
  assert (Ehi : w_three d1 d2 = 1 - (d1 - d2) * (d1 - d2) / (4 * (d1 * d1 + d1 * d2 + d2 * d2)))
    by (unfold w_three; field; lra).
  assert (P1 : 0 <= 3 * (d1 * d2) / (4 * (d1 * d1 + d1 * d2 + d2 * d2))) by (apply rdiv_pos_nonneg; [nra|exact HD]).
  assert (P2 : 0 <= (d1 - d2) * (d1 - d2) / (4 * (d1 * d1 + d1 * d2 + d2 * d2)))
    by (apply rdiv_pos_nonneg; [apply Rle_0_sqr|exact HD]).
  pose proof (rdiv_pos_zero (3 * (d1 * d2)) _ HD) as Z1.
  pose proof (rdiv_pos_zero ((d1 - d2) * (d1 - d2)) _ HD) as Z2.
  repeat split; try lra.
  - intros H. assert (H0 : d1 * d2 = 0) by (assert (3 * (d1 * d2) = 0) by (apply Z1; lra); lra).
    apply Rmult_integral, H0.
  - intros H. rewrite Elo. assert (3 * (d1 * d2) = 0) by (destruct H as [-> | ->]; ring).
    apply Z1 in H0. lra.
  - intros H. assert (H0 : (d1 - d2) * (d1 - d2) = 0) by (apply Z2; lra). nra.
  - intros ->. rewrite Ehi. replace ((d2 - d2) * (d2 - d2)) with 0 by ring.
    unfold Rdiv. ring.
Qed.

(** [asin] is strictly increasing on [-1, 1]. *)
Lemma asin_lt (x y : R) : -1 <= x -> x < y -> y <= 1 -> asin x < asin y.
Proof.
  intros Hx Hxy Hy.
  destruct (asin_bound x) as [Hx1 Hx2]. destruct (asin_bound y) as [Hy1 Hy2].
  destruct (Rlt_or_le (asin x) (asin y)) as [H|H]; [exact H|exfalso].
  destruct (Rle_lt_or_eq_dec _ _ H) as [H'|H'].
  - pose proof (sin_increasing_1 (asin y) (asin x) Hy1 Hy2 Hx1 Hx2 H') as Hs.
    rewrite !sin_asin in Hs by lra. lra.
  - assert (Hs : sin (asin y) = sin (asin x)) by (rewrite H'; reflexivity).
    rewrite !sin_asin in Hs by lra. lra.
Qed.

Lemma asin_sqrt_three_quarters : asin (sqrt (3 / 4)) = PI / 3.
Proof.
  replace (sqrt (3 / 4)) with (sin (PI / 3)).
  - apply asin_sin. pose proof PI_RGT_0. lra.
  - rewrite sin_PI3. symmetry. apply sqrt_lem_1; [lra| |].
    + pose proof (sqrt_pos 3). lra.
    + replace (sqrt 3 / 2 * (sqrt 3 / 2)) with (sqrt 3 * sqrt 3 / 4) by field.
      rewrite sqrt_sqrt by lra. field.
Qed.

(** The three-value p-value is a probability, 0 exactly at [W = 3/4]
    and 1 exactly at [W = 1]. *)
Lemma pw_three_range (w : R) :
  3 / 4 <= w <= 1 ->
  0 <= pw_three w <= 1 /\ (pw_three w = 0 <-> w = 3 / 4) /\ (pw_three w = 1 <-> w = 1).
Proof.
  intros Hw. pose proof PI_RGT_0 as Hpi.
  assert (Hs1 : sqrt (3 / 4) <= sqrt w) by (apply sqrt_le_1_alt; lra).
  assert (Hs2 : sqrt w <= 1) by (rewrite <- sqrt_1; apply sqrt_le_1_alt; lra).
  assert (Hs0 : 0 <= sqrt (3 / 4)) by apply sqrt_pos.
  assert (Hlo : PI / 3 <= asin (sqrt w)).
  { rewrite <- asin_sqrt_three_quarters. destruct (Rle_lt_or_eq_dec _ _ Hs1) as [H|H];
      [apply Rlt_le, asin_lt; lra | rewrite H; lra]. }
  assert (Hhi : asin (sqrt w) <= PI / 2) by apply asin_bound.
  assert (Ep : pw_three w = 6 / PI * (asin (sqrt w) - PI / 3)) by reflexivity.
  assert (Hk : forall t, 6 / PI * t = 6 * t / PI) by (intros t; field; lra).
  repeat split.
  - rewrite Ep, Hk. apply Rmult_le_pos; [lra|apply Rlt_le, Rinv_0_lt_compat, Hpi].
  - rewrite Ep, Hk. apply Rmult_le_reg_r with PI; [exact Hpi|]. unfold Rdiv.
    rewrite Rmult_assoc, Rinv_l by lra. lra.
  - rewrite Ep, Hk. intros H. assert (Ha : asin (sqrt w) = PI / 3).
    { apply (Rmult_eq_compat_r PI) in H. unfold Rdiv in H.
      rewrite Rmult_assoc, Rinv_l, Rmult_0_l in H by lra. lra. }
    destruct (Rle_lt_or_eq_dec _ _ Hs1) as [Hlt|Heq].
    + exfalso. apply asin_lt in Hlt; [|lra|lra]. rewrite asin_sqrt_three_quarters in Hlt. lra.
    + apply sqrt_inj; lra.
  - intros ->. rewrite Ep, asin_sqrt_three_quarters. field. lra.
  - rewrite Ep, Hk. intros H. assert (Ha : asin (sqrt w) = PI / 2).
    { apply (Rmult_eq_compat_r PI) in H. unfold Rdiv in H.
      rewrite Rmult_assoc, Rinv_l, Rmult_1_l in H by lra. lra. }
    destruct (Rle_lt_or_eq_dec _ _ Hs2) as [Hlt|Heq].
    + exfalso. apply asin_lt in Hlt; [|pose proof (sqrt_pos w); lra|lra].
      rewrite asin_1 in Hlt. lra.
    + rewrite <- sqrt_1 in Heq. apply sqrt_inj; lra.
  - intros ->. rewrite Ep, sqrt_1, asin_1. field. lra.
Qed.

Section WithNorm.
Context `{ND : NormDist}.

(** ** The p-value *)

(** [PW]: exact for [n = 3]; for [4 <= n <= 11] through
    [GAMMA = POLY(G, 2, AN)] ([PW = SMALL] when [log W1 >= GAMMA]) and
    [Y = -log(GAMMA - log W1)]; for [n >= 12] through [log n]; then
    [ALNORM((Y - M) / S, .TRUE.)].  [W1 = 0] is [log W1 = -inf], whose
    tail is 1. *)
Definition sw_pw (n : nat) (w w1 : R) : R :=
  if (n =? 3)%nat then pw_three w
  else if Rle_dec w1 0 then 1
  else if (n <=? 11)%nat then
    let gamma := poly g (INR n) in
    if Rle_dec gamma (ln w1) then small
    else norm_sf ((- ln (gamma - ln w1) - poly c3 (INR n)) / exp (poly c4 (INR n)))
  else norm_sf ((ln w1 - poly c5 (ln (INR n))) / exp (poly c6 (ln (INR n)))).

(** ** The coefficients *)

(** [M(I) = PPND((I - TH) / AN25)]. *)
Definition sw_m (n i : nat) : R := norm_ppf ((INR i - 0.375) / (INR n + 0.25)).

(** [A(I) = -M(I) / FAC] with [FAC = SQRT(num / den)]: [None] for the
    NaN of a negative quotient, of [0/0] or of [-M/0] (a zero [FAC]
    makes the coefficients infinite and [W] NaN); a positive [num] over
    a zero [den] makes [FAC] infinite and the coefficients 0. *)
Definition tail_coeffs (num den : R) (ms : list R) : option (list R) :=
  if Req_EM_T den 0 then
    (if Rlt_dec 0 num then Some (map (fun _ => 0) ms) else None)
  else if Rle_dec (num / den) 0 then None
  else let fac := sqrt (num / den) in Some (map (fun m => - m / fac) ms).

(** The coefficients [A(1..N/2)] of [SWILK] for [n] values. *)
Definition swilk_coeffs (n : nat) : option (list R) :=
  if (n =? 3)%nat then Some [sqrt (1 / 2)]
  else
    let ms := map (sw_m n) (seq 1 (n / 2)) in
    let m1 := nth 0 ms 0 in
    let m2 := nth 1 ms 0 in
    let summ2 := 2 * sumR (map (fun m => m * m) ms) in
    let ssumm2 := sqrt summ2 in
    let rsn := / sqrt (INR n) in
    let a1 := poly c1 rsn - m1 / ssumm2 in
    if (5 <? n)%nat then
      let a2 := - m2 / ssumm2 + poly c2 rsn in
      option_map (fun t => a1 :: a2 :: t)
        (tail_coeffs (summ2 - 2 * (m1 * m1) - 2 * (m2 * m2))
                     (1 - 2 * (a1 * a1) - 2 * (a2 * a2)) (skipn 2 ms))
    else
      option_map (fun t => a1 :: t)
        (tail_coeffs (summ2 - 2 * (m1 * m1)) (1 - 2 * (a1 * a1)) (skipn 1 ms)).

(** [SWILK] on sorted data: the range check, then [W] and [PW]. *)
Definition swilk (a : option (list R)) (y : list R) : option (R * R) :=
  if Rlt_dec (sw_range y) small then Some (1, 1)
  else match a with
       | None => None
       | Some a =>
           match sw_stat a y with
           | Some (w, w1) => Some (w, sw_pw (length y) w w1)
           | None => None
           end
       end.

(** [y = np.sort(x); y -= x[N//2]]: the sorted data minus the value at
    position [N // 2] of the unsorted data. *)
Definition sw_input (xs : list Q) : list R :=
  map (fun v => Q2R v - Q2R (nth (length xs / 2) xs 0%Q)) (QSort.sort xs).

(** [scipy.stats.shapiro(x)] (scipy 1.14 and later): [(statistic,
    pvalue)], [None] for [(nan, nan)].  Below three values the
    [_axis_nan_policy] decorator ([too_small=2]) returns [(nan, nan)]
    with a [SmallSampleWarning] before the body's [ValueError] is
    reached. *)
Definition shapiro_test (xs : list Q) : option (R * R) :=
  if (length xs <? 3)%nat then None
  else swilk (swilk_coeffs (length xs)) (sw_input xs).

(** ** The p-value is a probability *)

Lemma sw_pw_range (n : nat) (w w1 : R) : n <> 3%nat -> 0 <= sw_pw n w w1 <= 1.
Proof.
  intros Hn. unfold sw_pw. rewrite (proj2 (Nat.eqb_neq n 3) Hn).
  destruct (Rle_dec w1 0); [lra|].
  destruct (n <=? 11)%nat; [destruct (Rle_dec _ _); [unfold small; lra|]|]; apply norm_sf_range.
Qed.

(** The sorted values as reals, three of them. *)
Lemma sort_three (xs : list Q) (s1 s2 s3 : Q) :
  QSort.sort xs = [s1; s2; s3] ->
  length xs = 3%nat /\ Q2R s1 <= Q2R s2 /\ Q2R s2 <= Q2R s3.
Proof.
  intros E. pose proof (Stats.length_sort xs) as Hl. pose proof (Stats.sort_strongly_sorted xs) as Hs.
  rewrite E in Hl, Hs. split; [symmetry; exact Hl|].
  inversion Hs as [|? ? Hs' Hf]; subst. inversion Hs' as [|? ? _ Hf']; subst.
  inversion Hf as [|? ? H12 Hf2]; subst. inversion Hf' as [|? ? H23 _]; subst.
  apply Stats.qle_iff, Qle_Rle in H12. apply Stats.qle_iff, Qle_Rle in H23. lra.
Qed.

(** On three sorted values [s1 <= s2 <= s3] with a range of at least
    [SMALL], [shapiro] returns [W = w_three] and its exact p-value. *)
Lemma shapiro_test_three (xs : list Q) (s1 s2 s3 : Q) :
  QSort.sort xs = [s1; s2; s3] -> small <= Q2R s3 - Q2R s1 ->
  shapiro_test xs = Some (w_three (Q2R s2 - Q2R s1) (Q2R s3 - Q2R s2),
                          pw_three (w_three (Q2R s2 - Q2R s1) (Q2R s3 - Q2R s2))).
Proof.
  intros E Hr. destruct (sort_three xs s1 s2 s3 E) as (Hl & H12 & H23).
  assert (Hsmall : 0 < small) by (unfold small; lra).
  unfold shapiro_test, sw_input. rewrite Hl, E. cbn [Nat.ltb Nat.leb map length].
  set (m := Q2R (nth (3 / 2) xs 0%Q)).
  unfold swilk. destruct (Rlt_dec _ small) as [Hlt|_].
  { unfold sw_range in Hlt. simpl in Hlt. lra. }
  replace (swilk_coeffs 3) with (Some [sqrt (1 / 2)]) by reflexivity.
  rewrite sw_stat_three.
  - replace (Q2R s2 - m - (Q2R s1 - m)) with (Q2R s2 - Q2R s1) by ring.
    replace (Q2R s3 - m - (Q2R s2 - m)) with (Q2R s3 - Q2R s2) by ring. reflexivity.
  - apply Rgt_not_eq, sqrt_lt_R0. lra.
  - lra.
  - lra.
  - lra.
Qed.

Lemma shapiro_test_range (xs : list Q) (w p : R) :
  shapiro_test xs = Some (w, p) -> 0 <= w <= 1 /\ 0 <= p <= 1.
Proof.
  intros H. pose proof H as H0. unfold shapiro_test, sw_input in H.
  destruct (length xs <? 3)%nat eqn:Hn; [discriminate|]. apply Nat.ltb_ge in Hn.
  unfold swilk in H.
  destruct (Rlt_dec _ small) as [_|Hge]; [injection H as <- <-; lra|].
  destruct (swilk_coeffs (length xs)) as [a|]; [|discriminate].
  destruct (sw_stat a _) as [[w0 w1]|] eqn:Es; [|discriminate].
  injection H as <- <-. destruct (sw_stat_range _ _ _ _ Es) as [Hw ->]. split; [exact Hw|].
  rewrite length_map, Stats.length_sort.
  destruct (Nat.eq_dec (length xs) 3) as [E3|Hne]; [|apply sw_pw_range, Hne].
  pose proof (Stats.length_sort xs) as Hls. rewrite E3 in Hls |- *.
  destruct (QSort.sort xs) as [|s1 [|s2 [|s3 [|? ?]]]] eqn:E; try discriminate.
  assert (Hr : small <= Q2R s3 - Q2R s1).
  { apply Rnot_lt_le in Hge. unfold sw_range in Hge. simpl in Hge. lra. }
  destruct (sort_three xs s1 s2 s3 E) as (_ & H12 & H23).
  rewrite (shapiro_test_three xs s1 s2 s3 E Hr) in H0. injection H0 as _ Hp. rewrite <- Hp.
  unfold small in Hr.
  destruct (w_three_range (Q2R s2 - Q2R s1) (Q2R s3 - Q2R s2)) as [Hwr _]; [lra|lra|lra|].
  apply pw_three_range, Hwr.
Qed.

(** A sample of zeros has range 0. *)
Lemma sw_range_zeros (y : list R) : (forall u, In u y -> u = 0) -> sw_range y = 0.
Proof.
  unfold sw_range. destruct y as [|u0 y]; intros Hz; [simpl; ring|].
  assert (Hl : forall u l, In u (u0 :: l) -> (forall v, In v (u0 :: l) -> v = 0) -> last (u0 :: l) 0 = 0).
  { intros _ l _. induction l as [|v l IH]; intros Hl; [apply Hl; left; reflexivity|].
    destruct l; [apply Hl; right; left; reflexivity|].
    apply IH. intros x Hx. apply Hl. destruct Hx as [<-|Hx]; [left; reflexivity|right; right; exact Hx]. }
  rewrite (Hl u0 y (or_introl eq_refl) Hz), (Hz u0 (or_introl eq_refl)). simpl. ring.
Qed.

(** On a constant sample of three values or more, the range is below
    [SMALL] and [shapiro] returns [W = 1] and the p-value 1 (scipy only
    warns that the range is zero). *)
Lemma shapiro_test_constant (xs : list Q) (r : R) :
  (3 <= length xs)%nat -> (forall v, In v xs -> Q2R v = r) ->
  shapiro_test xs = Some (1, 1).
Proof.
  intros Hn Hc. unfold shapiro_test, sw_input.
  destruct (Nat.ltb_spec (length xs) 3) as [Hlt|_]; [lia|].
  rewrite (Hc (nth (length xs / 2) xs 0%Q)) by (apply nth_In, Nat.div_lt; lia).
  unfold swilk. rewrite sw_range_zeros.
  - destruct (Rlt_dec 0 small) as [_|Hs]; [reflexivity|unfold small in Hs; lra].
  - intros u Hu. apply in_map_iff in Hu as (v & <- & Hv).
    apply (Permutation_in _ (Permutation_sym (QSort.Permuted_sort _))) in Hv.
    rewrite (Hc v Hv). ring.
Qed.

(** [log] is non-decreasing on the positive reals. *)
Lemma ln_le_mono (x y : R) : 0 < x -> x <= y -> ln x <= ln y.
Proof.
  intros Hx Hxy. destruct (Rle_lt_or_eq_dec _ _ Hxy) as [H| ->]; [|lra].
  left. apply ln_increasing; assumption.
Qed.

(** The p-value of [n >= 4] values does not decrease with [W]: in [W1 = 1 - W] it is a normal upper tail of an increasing function of [log W1]. *)
Lemma sw_pw_monotone (n : nat) (w w' : R) :
  (4 <= n)%nat -> w' <= w -> ((n <= 11)%nat -> ln (1 - w') < poly g (INR n)) ->
  sw_pw n w' (1 - w') <= sw_pw n w (1 - w).
Proof.
  intros Hn Hw Hg. unfold sw_pw. rewrite (proj2 (Nat.eqb_neq n 3)) by lia.
  assert (Hs1 : forall z, norm_sf z <= 1) by (intros z; apply norm_sf_range).
  assert (Hsm : small <= 1) by (unfold small; lra).
  destruct (Rle_dec (1 - w') 0) as [H'|H'].
  - destruct (Rle_dec (1 - w) 0); lra.
  - destruct (Rle_dec (1 - w) 0) as [H|H].
    + destruct (n <=? 11)%nat; [destruct (Rle_dec _ _)|]; auto.
    + assert (Hln : ln (1 - w) <= ln (1 - w')) by (apply ln_le_mono; lra).
      destruct (Nat.leb_spec n 11) as [Hle|Hgt].
      * specialize (Hg Hle).
        destruct (Rle_dec (poly g (INR n)) (ln (1 - w'))) as [|_]; [lra|].
        destruct (Rle_dec (poly g (INR n)) (ln (1 - w))) as [|_]; [lra|].
        apply norm_sf_antitone. unfold Rdiv. apply Rmult_le_compat_r; [left; apply Rinv_0_lt_compat, exp_pos|].
        assert (ln (poly g (INR n) - ln (1 - w')) <= ln (poly g (INR n) - ln (1 - w))) by (apply ln_le_mono; lra).
        lra.
      * apply norm_sf_antitone. unfold Rdiv. apply Rmult_le_compat_r; [left; apply Rinv_0_lt_compat, exp_pos|].
        lra.
Qed.

(** C33. The statistic of line 73 is Shapiro and Wilk's [W]: when the
    range of the centred sorted sales reaches [SMALL], [W] is the squared
    correlation [SAX^2 / (SSA * SSX)] between the antisymmetric
    coefficients [a] of [swilk] and the data divided by their range;
    below [SMALL], [W = 1] and the p-value is 1.  [W] and the p-value
    printed at line 74 lie in [0, 1]. *)
Theorem shapiro_statistic (xs : list Q) (w p : R) :
  shapiro_test xs = Some (w, p) ->
  0 <= w <= 1 /\ 0 <= p <= 1 /\
  ((sw_range (sw_input xs) < small /\ w = 1 /\ p = 1) \/
   (small <= sw_range (sw_input xs) /\
    exists a, swilk_coeffs (length xs) = Some a /\
      w = dotR (sw_asa a (length xs)) (sw_xsx (sw_input xs))
          * dotR (sw_asa a (length xs)) (sw_xsx (sw_input xs))
          / (dotR (sw_asa a (length xs)) (sw_asa a (length xs))
             * dotR (sw_xsx (sw_input xs)) (sw_xsx (sw_input xs))))).
Proof.
  intros H. destruct (shapiro_test_range xs w p H) as [Hw Hp]. split; [exact Hw|]. split; [exact Hp|].
  unfold shapiro_test in H. destruct (length xs <? 3)%nat; [discriminate|].
  unfold swilk in H. destruct (Rlt_dec (sw_range (sw_input xs)) small) as [Hlt|Hge].
  - left. injection H as <- <-. auto.
  - right. split; [lra|]. destruct (swilk_coeffs (length xs)) as [a|]; [|discriminate].
    exists a. split; [reflexivity|].
    destruct (sw_stat a (sw_input xs)) as [[w0 w1]|] eqn:Es; [|discriminate].
    injection H as <- _. rewrite (sw_stat_some _ _ _ _ Es).
    unfold sw_input. rewrite length_map, Stats.length_sort. reflexivity.
Qed.

(** C34. On three sales values sorted as [s1 <= s2 <= s3] whose range
    [s3 - s1] is at least [SMALL] (below it the test answers [W = p = 1]),
    with gaps [d1 = s2 - s1] and [d2 = s3 - s2], the statistic is
    [W = 3 (d1 + d2)^2 / 4 (d1^2 + d1 d2 + d2^2)], it lies in [3/4, 1],
    and the printed p-value is 1 exactly when the values are equally
    spaced and 0 exactly when two of them are equal. *)
Theorem shapiro_three_values (xs : list Q) (s1 s2 s3 : Q) :
  QSort.sort xs = [s1; s2; s3] -> small <= Q2R s3 - Q2R s1 ->
  exists w p, shapiro_test xs = Some (w, p) /\
    w = 3 * ((Q2R s3 - Q2R s1) * (Q2R s3 - Q2R s1))
        / (4 * ((Q2R s2 - Q2R s1) * (Q2R s2 - Q2R s1) + (Q2R s2 - Q2R s1) * (Q2R s3 - Q2R s2)
                + (Q2R s3 - Q2R s2) * (Q2R s3 - Q2R s2))) /\
    3 / 4 <= w <= 1 /\
    (p = 1 <-> Q2R s2 - Q2R s1 = Q2R s3 - Q2R s2) /\
    (p = 0 <-> Q2R s1 = Q2R s2 \/ Q2R s2 = Q2R s3).
Proof.
  intros E Hr. destruct (sort_three xs s1 s2 s3 E) as (_ & H12 & H23).
  assert (Hs : 0 < small) by (unfold small; lra).
  set (d1 := Q2R s2 - Q2R s1). set (d2 := Q2R s3 - Q2R s2).
  destruct (w_three_range d1 d2) as (Hw & Hw0 & Hw1); [unfold d1; lra|unfold d2; lra|unfold d1, d2; lra|].
  destruct (pw_three_range _ Hw) as (_ & Hp0 & Hp1).
  exists (w_three d1 d2), (pw_three (w_three d1 d2)).
  split; [apply shapiro_test_three; assumption|].
  split; [unfold w_three; f_equal; f_equal; unfold d1, d2; ring|]. split; [exact Hw|]. split.
  - rewrite Hp1, Hw1. reflexivity.
  - rewrite Hp0, Hw0. unfold d1, d2. split; intros [H|H]; lra.
Qed.

(** C35. Royston's approximation reads [W] in the right direction: for
    four values or more, a larger [W] (a sample closer to normal) never
    gets a smaller p-value, in the range where [4 <= n <= 11] does not
    cut the p-value to [SMALL] ([log(1 - W) < GAMMA]). *)
Theorem shapiro_pvalue_monotone (n : nat) (w w' : R) :
  (4 <= n)%nat -> w' <= w -> ((n <= 11)%nat -> ln (1 - w') < poly g (INR n)) ->
  sw_pw n w' (1 - w') <= sw_pw n w (1 - w).
Proof. apply sw_pw_monotone. Qed.

End WithNorm.

End Shapiro.

(** ** Witnesses *)

Lemma shapiro_statistic_witness :
  let w := Shapiro.w_three (Q2R 2 - Q2R 1) (Q2R 3 - Q2R 2) in
  Shapiro.shapiro_test (ND := toy_normdist) [3; 1; 2]%Q = Some (w, Shapiro.pw_three w) /\
  (0 <= w <= 1 /\ 0 <= Shapiro.pw_three w <= 1 /\
   ((Shapiro.sw_range (Shapiro.sw_input [3; 1; 2]%Q) < Shapiro.small /\ w = 1 /\ Shapiro.pw_three w = 1) \/
    (Shapiro.small <= Shapiro.sw_range (Shapiro.sw_input [3; 1; 2]%Q) /\
     exists a, Shapiro.swilk_coeffs (ND := toy_normdist) (length [3; 1; 2]%Q) = Some a /\
      w = Shapiro.dotR (Shapiro.sw_asa a (length [3; 1; 2]%Q)) (Shapiro.sw_xsx (Shapiro.sw_input [3; 1; 2]%Q))
          * Shapiro.dotR (Shapiro.sw_asa a (length [3; 1; 2]%Q)) (Shapiro.sw_xsx (Shapiro.sw_input [3; 1; 2]%Q))
          / (Shapiro.dotR (Shapiro.sw_asa a (length [3; 1; 2]%Q)) (Shapiro.sw_asa a (length [3; 1; 2]%Q))
             * Shapiro.dotR (Shapiro.sw_xsx (Shapiro.sw_input [3; 1; 2]%Q))
                            (Shapiro.sw_xsx (Shapiro.sw_input [3; 1; 2]%Q))))))%R.
Proof.
  cbv zeta.
  assert (E : Shapiro.shapiro_test (ND := toy_normdist) [3; 1; 2]%Q
              = Some (Shapiro.w_three (Q2R 2 - Q2R 1) (Q2R 3 - Q2R 2),
                      Shapiro.pw_three (Shapiro.w_three (Q2R 2 - Q2R 1) (Q2R 3 - Q2R 2)))).
  { apply Shapiro.shapiro_test_three; [vm_compute; reflexivity|].
    unfold Shapiro.small, Q2R. simpl. lra. }
  split; [exact E|exact (@Shapiro.shapiro_statistic toy_normdist _ _ _ E)].
Defined.

Lemma shapiro_three_values_witness :
  exists w p, Shapiro.shapiro_test (ND := toy_normdist) [3; 1; 2]%Q = Some (w, p) /\
    (w = 3 * ((Q2R 3 - Q2R 1) * (Q2R 3 - Q2R 1))
         / (4 * ((Q2R 2 - Q2R 1) * (Q2R 2 - Q2R 1) + (Q2R 2 - Q2R 1) * (Q2R 3 - Q2R 2)
                 + (Q2R 3 - Q2R 2) * (Q2R 3 - Q2R 2))) /\
     3 / 4 <= w <= 1 /\ (p = 1 <-> Q2R 2 - Q2R 1 = Q2R 3 - Q2R 2) /\
     (p = 0 <-> Q2R 1 = Q2R 2 \/ Q2R 2 = Q2R 3))%R.
Proof.
  apply (@Shapiro.shapiro_three_values toy_normdist [3; 1; 2]%Q 1 2 3).
  - vm_compute. reflexivity.
  - unfold Shapiro.small, Q2R. simpl. lra.
Defined.

(** Twelve values: [W = 0.8] against [W = 0.9]. *)
Lemma shapiro_pvalue_monotone_witness :
  (4 <= 12)%nat /\ (8 / 10 <= 9 / 10)%R /\
  ((12 <= 11)%nat -> (ln (1 - 8 / 10) < Shapiro.poly Shapiro.g (INR 12))%R) /\
  (Shapiro.sw_pw (ND := toy_normdist) 12 (8 / 10) (1 - 8 / 10)
   <= Shapiro.sw_pw (ND := toy_normdist) 12 (9 / 10) (1 - 9 / 10))%R.
Proof.
  assert (H1 : (4 <= 12)%nat) by lia. assert (H2 : (8 / 10 <= 9 / 10)%R) by lra.
  assert (H3 : (12 <= 11)%nat -> (ln (1 - 8 / 10) < Shapiro.poly Shapiro.g (INR 12))%R) by lia.
  split; [exact H1|]. split; [exact H2|]. split; [exact H3|].
  apply (@Shapiro.shapiro_pvalue_monotone toy_normdist 12 (9 / 10) (8 / 10) H1 H2 H3).
Defined.
