(* ===== verification/Frame.v ===== *)
(** * The data frame and its grouping operations (lines 79, 97-100, 106)

    [df] after line 20 is a list of named columns; a cell is a number or
    a string ([value]).  [col_lookup] is [df[c]] (all columns of that
    name: after normalisation two headers can share it),
    [is_numeric] is the dtype test (a column without rows is [object],
    as [pd.read_csv] types the columns of a header-only file),
    [numeric_values] reads a column as floats (pandas raises [TypeError]
    on [mean()] of a text column), [py_unique] is [Series.unique()] (first
    occurrences, in row order), [rows_where] is the boolean selection
    [df[df[region_col] == v][sales_col]] of lines 99-100, [group_keys]
    and [groupby_values] are [df.groupby(product_col)] of line 106 (keys
    sorted, [TypeError] on keys of mixed types) and [select_numeric] is
    [df.select_dtypes(include=np.number)] of line 79.

    The theorems: [unique] lists every value once, in order of first
    appearance; the two region groups are the rows of the first two
    regions met; the groups of [groupby] partition the sales column. *)

From Stdlib Require Import QArith Arith Bool Ascii String List Mergesort Orders Sorted Permutation Lia.
From S2P Require Import Prelude Text Describe.
Import ListNotations.
Local Open Scope nat_scope.
Local Open Scope bizstat_scope.

(** ** Cells and their order *)

Inductive value : Type :=
| VNum (q : Q)
| VStr (s : pystr).

(** Python's [==] on two cells: numbers by value, strings by code points,
    a number never equals a string. *)
Definition value_eqb (a b : value) : bool :=
  match a, b with
  | VNum x, VNum y => Qeq_bool x y
  | VStr s, VStr t => if list_eq_dec ascii_dec s t then true else false
  | _, _ => false
  end.

(** Lexicographic order on code points ([str.__le__]). *)
Fixpoint str_leb (s t : pystr) : bool :=
  match s, t with
  | [], _ => true
  | _ :: _, [] => false
  | a :: s', b :: t' =>
      if Nat.ltb (nat_of_ascii a) (nat_of_ascii b) then true
      else if Nat.eqb (nat_of_ascii a) (nat_of_ascii b) then str_leb s' t'
      else false
  end.

(** The order pandas sorts group keys by; numbers and strings are never
    compared, since [groupby] raises first (see [same_kind]). *)
Definition value_leb (a b : value) : bool :=
  match a, b with
  | VNum x, VNum y => Qle_bool x y
  | VStr s, VStr t => str_leb s t
  | VNum _, VStr _ => true
  | VStr _, VNum _ => false
  end.

Lemma str_leb_total s t : str_leb s t = true \/ str_leb t s = true.
Proof.
  revert t. induction s as [|a s IH]; intros [|b t]; simpl; auto.
  destruct (Nat.ltb_spec (nat_of_ascii a) (nat_of_ascii b)); [auto|].
  destruct (Nat.ltb_spec (nat_of_ascii b) (nat_of_ascii a)); [auto|].
  rewrite (proj2 (Nat.eqb_eq _ _)) by lia. rewrite (proj2 (Nat.eqb_eq _ _)) by lia.
  apply IH.
Qed.

Lemma value_leb_total x y : value_leb x y = true \/ value_leb y x = true.
Proof.
  destruct x as [x|s], y as [y|u]; simpl; auto.
  - rewrite !Qle_bool_iff. destruct (Qlt_le_dec x y); [left; apply Qlt_le_weak | right]; auto.
  - apply str_leb_total.
Qed.

Module ValueOrder <: TotalLeBool.
Definition t := value.
Definition leb := value_leb.
Definition leb_total : forall x y, leb x y = true \/ leb y x = true := value_leb_total.
End ValueOrder.

Module ValueSort := Sort ValueOrder.

Module Frame.

(** ** Definitions *)

(** A column and the frame: names after line 20, cells in row order. *)
Definition column := list value.
Definition frame := list (pystr * column).

(** [df[c]]: the columns named [c], in column order. *)
Definition col_lookup (df : frame) (c : pystr) : list column :=
  map snd (filter (fun nc => if list_eq_dec ascii_dec (fst nc) c then true else false) df).

(** A numeric dtype, as [pd.read_csv] infers it: at least one row and
    numbers only.  A column without rows (a file with a header and no
    data) is of [object] dtype. *)
Definition is_numeric (col : column) : bool :=
  match col with
  | [] => false
  | _ => forallb (fun v => match v with VNum _ => true | VStr _ => false end) col
  end.

(** A column holding a string cell. *)
Definition has_text (col : column) : bool :=
  existsb (fun v => match v with VStr _ => true | VNum _ => false end) col.

(** The floats of a numeric column; [TypeError] on a text column. *)
Fixpoint numeric_values (col : column) : result (list Q) :=
  match col with
  | [] => Ok []
  | VNum q :: rest => xs <- numeric_values rest ;; Ok (q :: xs)
  | VStr _ :: _ => Raise PyTypeError
  end.

(** [df[c]] for the single column [c] is; a missing name is a
    [KeyError]; a duplicated name gives a two-column frame, on which the
    script fails later ([TypeError] when it formats the statistics). *)
Definition series (df : frame) (c : pystr) : result column :=
  match col_lookup df c with
  | [col] => Ok col
  | [] => Raise PyKeyError
  | _ => Raise PyTypeError
  end.

(** [Series.unique()]: values in order of first appearance. *)
Fixpoint unique_from (seen : list value) (col : column) : list value :=
  match col with
  | [] => []
  | v :: rest =>
      if existsb (value_eqb v) seen then unique_from seen rest
      else v :: unique_from (v :: seen) rest
  end.

Definition py_unique (col : column) : list value := unique_from [] col.

(** [df[df[key] == v][target]]: the target cells of the rows whose key
    cell equals [v], in row order (the two columns have one cell per
    row). *)
Definition rows_where (key target : column) (v : value) : column :=
  map snd (filter (fun kt => value_eqb (fst kt) v) (combine key target)).

(** Keys of one kind: pandas sorts the group keys and raises
    [TypeError] comparing a number with a string. *)
Definition same_kind (col : column) : bool :=
  forallb (fun v => match v with VNum _ => true | _ => false end) col
  || forallb (fun v => match v with VStr _ => true | _ => false end) col.

(** The sorted distinct keys of [df.groupby(key)]. *)
Definition group_keys (key : column) : result (list value) :=
  if same_kind key then Ok (ValueSort.sort (py_unique key)) else Raise PyTypeError.

(** Line 106: [[grp[sales_col].values for _, grp in df.groupby(key)]]. *)
Definition groupby_values (key target : column) : result (list column) :=
  ks <- group_keys key ;; Ok (map (rows_where key target) ks).

(** Line 79: the numeric columns of the frame, in column order. *)
Definition select_numeric (df : frame) : frame :=
  filter (fun nc => is_numeric (snd nc)) df.

(** [.values] of each group's sales, as floats. *)
Fixpoint all_numeric (gs : list column) : result (list (list Q)) :=
  match gs with
  | [] => Ok []
  | g :: gs' => xs <- numeric_values g ;; rest <- all_numeric gs' ;; Ok (xs :: rest)
  end.

(** ** [==] on cells is an equivalence *)

Lemma value_eqb_refl v : value_eqb v v = true.
Proof.
  destruct v as [x|s]; simpl; [apply Qeq_bool_iff; reflexivity|].
  destruct (list_eq_dec ascii_dec s s); congruence.
Qed.

Lemma value_eqb_sym v w : value_eqb v w = value_eqb w v.
Proof.
  destruct v as [x|s], w as [y|t]; simpl; try reflexivity.
  - apply eq_iff_eq_true. rewrite !Qeq_bool_iff. split; intros; symmetry; assumption.
  - destruct (list_eq_dec ascii_dec s t), (list_eq_dec ascii_dec t s); congruence.
Qed.

Lemma value_eqb_trans u v w :
  value_eqb u v = true -> value_eqb v w = true -> value_eqb u w = true.
Proof.
  destruct u as [x|s], v as [y|t], w as [z|r]; simpl; try discriminate.
  - rewrite !Qeq_bool_iff. intros; eapply Qeq_trans; eassumption.
  - destruct (list_eq_dec ascii_dec s t), (list_eq_dec ascii_dec t r),
      (list_eq_dec ascii_dec s r); congruence.
Qed.

#[export] Hint Resolve value_eqb_refl : bizstat.

(** ** [unique] *)

(** Every kept value is a value of the column not seen before. *)
Lemma unique_from_incl seen col u :
  In u (unique_from seen col) -> In u col /\ existsb (value_eqb u) seen = false.
Proof.
  revert seen. induction col as [|v col IH]; intros seen; simpl; [tauto|].
  destruct (existsb (value_eqb v) seen) eqn:Ev.
  - intros H. destruct (IH seen H). auto.
  - intros [<-|H]; [auto|]. destruct (IH (v :: seen) H) as [Hin Hs].
    simpl in Hs. apply orb_false_iff in Hs as [_ Hs]. auto.
Qed.

(** Each value is represented at most once, and not at all when seen. *)
Lemma unique_from_distinct seen col x :
  length (filter (value_eqb x) (unique_from seen col)) <=
  (if existsb (value_eqb x) seen then 0 else 1).
Proof.
  revert seen. induction col as [|v col IH]; intros seen; simpl;
    [destruct existsb; lia|].
  destruct (existsb (value_eqb v) seen) eqn:Ev; [apply IH|].
  simpl. specialize (IH (v :: seen)). simpl in IH.
  destruct (value_eqb x v) eqn:Exv; simpl in *.
  - destruct (existsb (value_eqb x) seen) eqn:Exs; [|lia].
    exfalso. apply existsb_exists in Exs as (w & Hw & Exw).
    assert (Evw : value_eqb v w = true)
      by (apply (value_eqb_trans v x w); [rewrite value_eqb_sym |]; assumption).
    assert (existsb (value_eqb v) seen = true) by (apply existsb_exists; eauto).
    congruence.
  - exact IH.
Qed.

(** Every value of the column is represented. *)
Lemma unique_from_complete seen col y :
  In y col ->
  (exists u, In u seen /\ value_eqb u y = true) \/
  (exists u, In u (unique_from seen col) /\ value_eqb u y = true).
Proof.
  revert seen. induction col as [|v col IH]; intros seen; simpl; [tauto|].
  intros [->|Hy].
  - destruct (existsb (value_eqb y) seen) eqn:E.
    + left. apply existsb_exists in E as (u & Hu & Eu). exists u.
      rewrite value_eqb_sym. auto.
    + right. exists y. simpl. auto with bizstat.
  - destruct (existsb (value_eqb v) seen); [apply IH, Hy|].
    destruct (IH (v :: seen) Hy) as [(u & [<-|Hu] & Eu)|(u & Hu & Eu)].
    + right. exists v. simpl. auto.
    + left. eauto.
    + right. exists u. simpl. auto.
Qed.

(** The first element kept is the first element not seen before; the
    elements skipped before it were all seen. *)
Lemma unique_from_cons seen col x rest :
  unique_from seen col = x :: rest ->
  exists pre post, col = pre ++ x :: post /\
    (forall w, In w pre -> existsb (value_eqb w) seen = true) /\
    existsb (value_eqb x) seen = false /\ rest = unique_from (x :: seen) post.
Proof.
  revert seen. induction col as [|v col IH]; intros seen; simpl; [discriminate|].
  destruct (existsb (value_eqb v) seen) eqn:Ev.
  - intros H. destruct (IH seen H) as (pre & post & -> & Hpre & Hx & Hr).
    exists (v :: pre), post. split; [reflexivity|]. split; [|auto].
    intros w [<-|Hw]; auto.
  - intros H. injection H as <- <-. exists [], col. simpl. auto.
Qed.

(** [df[key] == v] selects a row exactly when its key equals [v]. *)
Lemma map_snd_combine {A B} (l1 : list A) (l2 : list B) :
  length l1 = length l2 -> map snd (combine l1 l2) = l2.
Proof.
  revert l2. induction l1 as [|a l1 IH]; intros [|b l2] H; simpl in *; try lia; auto.
  f_equal. apply IH. lia.
Qed.

Lemma rows_where_nonempty key target v :
  length key = length target -> In v key -> rows_where key target v <> [].
Proof.
  intros Hl Hv. unfold rows_where. apply In_nth with (d := v) in Hv as (i & Hi & Hvi).
  destruct target as [|t0 target]; [destruct key; simpl in *; lia|].
  intros E. apply map_eq_nil in E. rewrite filter_nil_iff in E.
  assert (Hin : In (nth i key v, nth i (t0 :: target) t0) (combine key (t0 :: target)))
    by (rewrite <- combine_nth by exact Hl; apply nth_In; rewrite length_combine; lia).
  specialize (E _ Hin). simpl in E. rewrite Hvi, value_eqb_refl in E. discriminate.
Qed.

Lemma filter_length_pos {A} (f : A -> bool) l x :
  In x l -> f x = true -> 1 <= length (filter f l).
Proof.
  induction l as [|a l IH]; simpl; [tauto|].
  intros [<-|H] Hx; [rewrite Hx; simpl; lia|]. destruct (f a); simpl; [lia | auto].
Qed.

(** The sorted keys of [groupby] select every row exactly once. *)
Lemma group_keys_cover key ks kv :
  Permutation (py_unique key) ks -> In kv key ->
  exists ks1 k ks2, ks = ks1 ++ k :: ks2 /\ value_eqb kv k = true /\
    forall k', In k' (ks1 ++ ks2) -> value_eqb kv k' = false.
Proof.
  intros P Hkv.
  destruct (unique_from_complete [] key kv Hkv) as [(u & [] & _)|(u & Hu & Eu)].
  apply (Permutation_in _ P) in Hu. apply in_split in Hu as (ks1 & ks2 & ->).
  exists ks1, u, ks2. rewrite value_eqb_sym in Eu. split; [reflexivity|split; [exact Eu|]].
  intros k' Hk'. destruct (value_eqb kv k') eqn:E; [exfalso|reflexivity].
  pose proof (unique_from_distinct [] key kv) as D. simpl in D.
  rewrite (Permutation_filter_length _ _ _ P), filter_app in D. simpl in D.
  rewrite Eu, length_app in D. simpl in D.
  apply in_app_or in Hk' as [H|H];
    [pose proof (filter_length_pos _ _ _ H E) | pose proof (filter_length_pos _ _ _ H E)]; lia.
Qed.

Lemma numeric_values_length col xs :
  numeric_values col = Ok xs -> length xs = length col.
Proof.
  revert xs. induction col as [|[q|s] col IH]; intros xs H; simpl in H; inv_result;
    simpl; try discriminate; [reflexivity | f_equal; auto].
Qed.

(** A column converts to floats exactly when every cell is a number. *)
Lemma numeric_values_ok_iff col :
  (exists xs, numeric_values col = Ok xs) <-> (forall v, In v col -> exists q, v = VNum q).
Proof.
  induction col as [|[q|t] col IH]; simpl.
  - split; [intros _ v []|eauto].
  - split.
    + intros [xs H]. inv_result. intros v [<-|Hv]; [eauto|].
      apply (proj1 IH); [eauto | exact Hv].
    + intros H. destruct (proj2 IH (fun v Hv => H v (or_intror Hv))) as [xs ->]. simpl. eauto.
  - split; [intros [xs H]; discriminate|].
    intros H. destruct (H (VStr t) (or_introl eq_refl)) as [q E]. discriminate.
Qed.

(** The rows selected from a numeric column are numeric. *)
Lemma numeric_values_rows key target xs v :
  numeric_values target = Ok xs -> exists ys, numeric_values (rows_where key target v) = Ok ys.
Proof.
  intros H. apply numeric_values_ok_iff. intros w Hw.
  apply (proj1 (numeric_values_ok_iff target)); [eauto|].
  unfold rows_where in Hw. apply in_map_iff in Hw as ([k t] & <- & Hkt).
  apply filter_In in Hkt as [Hkt _]. apply in_combine_r in Hkt. exact Hkt.
Qed.

Lemma all_numeric_ok gs :
  (forall g, In g gs -> exists xs, numeric_values g = Ok xs) -> exists vs, all_numeric gs = Ok vs.
Proof.
  induction gs as [|g gs IH]; intros H; simpl; [eauto|].
  destruct (H g (or_introl eq_refl)) as [xs ->]. simpl.
  destruct (IH (fun g' Hg => H g' (or_intror Hg))) as [vs ->]. simpl. eauto.
Qed.

(** ** Theorems *)

(** C13. Lines 97-100 compare the first two regions met in row order:
    [regions[0]] is the region of the first row, [regions[1]] the first
    region that differs from it, and the two groups [g1], [g2] of sales
    are non-empty and come from disjoint rows. *)
Theorem region_groups key target r0 r1 rest :
  length key = length target -> py_unique key = r0 :: r1 :: rest ->
  (exists pre post, key = r0 :: pre ++ r1 :: post /\
     (forall w, In w pre -> value_eqb w r0 = true) /\ value_eqb r1 r0 = false) /\
  rows_where key target r0 <> [] /\ rows_where key target r1 <> [] /\
  length (rows_where key target r0) + length (rows_where key target r1) <= length target.
Proof.
  intros Hl Hu. unfold py_unique in Hu.
  destruct (unique_from_cons [] key r0 (r1 :: rest) Hu) as (pre0 & post & -> & Hpre0 & _ & Hr).
  destruct pre0 as [|w pre0]; [|discriminate (Hpre0 w (or_introl eq_refl))].
  symmetry in Hr. simpl app in *.
  destruct (unique_from_cons [r0] post r1 rest Hr) as (pre & post' & -> & Hpre & Hr1 & _).
  simpl in Hr1. rewrite orb_false_r in Hr1.
  assert (Hin1 : In r1 (r0 :: pre ++ r1 :: post'))
    by (right; apply in_or_app; right; left; reflexivity).
  split; [|split; [|split]].
  - exists pre, post'. split; [reflexivity|]. split; [|exact Hr1].
    intros x Hx. specialize (Hpre x Hx). simpl in Hpre. rewrite orb_false_r in Hpre. exact Hpre.
  - apply rows_where_nonempty; [exact Hl | left; reflexivity].
  - apply rows_where_nonempty; [exact Hl | exact Hin1].
  - unfold rows_where. rewrite !length_map.
    eapply Nat.le_trans; [apply filter_disjoint_length|].
    + intros kt _ E0. rewrite value_eqb_sym in Hr1.
      destruct (value_eqb (fst kt) r1) eqn:E1; [|reflexivity].
      rewrite (value_eqb_trans r0 (fst kt) r1) in Hr1; [discriminate | |exact E1].
      rewrite value_eqb_sym. exact E0.
    + rewrite length_combine. lia.
Qed.

(** C14. The groups of line 106 partition the sales column: every row
    lands in exactly one group ([df.groupby(product_col)] with sorted
    keys), so concatenating the groups rearranges the column. *)
Theorem groupby_partition key target gs :
  length key = length target -> groupby_values key target = Ok gs ->
  Permutation (List.concat gs) target.
Proof.
  intros Hl. unfold groupby_values, group_keys.
  destruct (same_kind key); [|discriminate]. simpl. intros H. injection H as <-.
  transitivity (map snd (combine key target)); [|rewrite map_snd_combine by exact Hl; reflexivity].
  unfold rows_where.
  rewrite <- (map_map (fun k => filter (fun kt => value_eqb (fst kt) k) (combine key target)) (map snd)).
  rewrite <- concat_map. apply Permutation_map.
  apply (concat_filter_partition (fun k kt => value_eqb (fst kt) k)).
  intros [kv t] Hkt. apply in_combine_l in Hkt.
  apply (group_keys_cover key (ValueSort.sort (py_unique key)) kv);
    [apply ValueSort.Permuted_sort | exact Hkt].
Qed.

(** Witnesses: a region column [N, N, S, N, E] and its sales. *)
Definition region_sample : column :=
  [VStr (kw "north"); VStr (kw "north"); VStr (kw "south"); VStr (kw "north"); VStr (kw "east")].

Definition sales_sample : column := [VNum 10; VNum 20; VNum 30; VNum 40; VNum 50].

Lemma region_groups_witness :
  length region_sample = length sales_sample /\
  py_unique region_sample = [VStr (kw "north"); VStr (kw "south"); VStr (kw "east")] /\
  ((exists pre post, region_sample = VStr (kw "north") :: pre ++ VStr (kw "south") :: post /\
     (forall w, In w pre -> value_eqb w (VStr (kw "north")) = true) /\
     value_eqb (VStr (kw "south")) (VStr (kw "north")) = false) /\
   rows_where region_sample sales_sample (VStr (kw "north")) <> [] /\
   rows_where region_sample sales_sample (VStr (kw "south")) <> [] /\
   length (rows_where region_sample sales_sample (VStr (kw "north"))) +
   length (rows_where region_sample sales_sample (VStr (kw "south"))) <= length sales_sample).
Proof.
  split; [reflexivity|]. split; [vm_compute; reflexivity|].
  apply (region_groups _ _ _ _ [VStr (kw "east")]); vm_compute; reflexivity.
Defined.

Lemma groupby_partition_witness :
  length region_sample = length sales_sample /\
  groupby_values region_sample sales_sample =
    Ok [[VNum 50]; [VNum 10; VNum 20; VNum 40]; [VNum 30]] /\
  Permutation (List.concat [[VNum 50]; [VNum 10; VNum 20; VNum 40]; [VNum 30]]) sales_sample.
Proof.
  assert (H : groupby_values region_sample sales_sample =
    Ok [[VNum 50]; [VNum 10; VNum 20; VNum 40]; [VNum 30]]) by (vm_compute; reflexivity).
  split; [reflexivity|]. split; [exact H|].
  apply (groupby_partition region_sample); [reflexivity | exact H].
Defined.

End Frame.
