(* ===== verification/Csv.v ===== *)
(** * Reading the sales file (line 17: [pd.read_csv])

    [pd.read_csv(path)] with its defaults (C engine, [sep=","],
    [header=0], [skip_blank_lines=True], the default NA strings and
    [low_memory=True]) on the text of the file.  The model reads a
    fragment of what pandas accepts and answers [None] outside it, so
    that every [Some] answer is the one pandas gives:

    - lines: the text split at ["\n"], one ["\r"] dropped at the end of
      each line, blank lines skipped; outside the model: quotes, control
      characters, bytes above 127, a line that starts with a space;
    - fields: a line split at [","]; the first line is the header;
    - rows: a row as long as the header is kept; a row after the first
      that is longer raises [ParserError] (the tokenizer's "Expected k
      fields in line n, saw m"); a shorter row (padded with [NaN]) and a
      longer first row (an implicit index) are outside the model;
    - header: empty names ([Unnamed: i]) are outside the model; the
      others go through [mangle_header] (file [Header]);
    - cells ([classify]): a number in the grammar
      [[+-]? digits ("." digits)?] (at least one digit) is read exactly,
      as a rational; the NA strings, the booleans, [inf]/[nan] spellings,
      exponents and anything else a float parser could read are outside
      the model; the rest is text;
    - columns: a column of integer literals ([int_literal]) is int64
      when every value fits, else uint64 when every value is
      non-negative and fits, else text ([int_range_ok]); a column of
      numbers with a decimal holds [VNum]s when its integer literals
      fit int64 (a larger one makes pandas round it to a float, outside
      the model); a column without data rows holds no cell and has
      [object] dtype (see [Frame.is_numeric]); a column with a text
      cell holds every cell as the string of the file ([object] dtype);
      a column that mixes both is read in one chunk only when the file is
      small ([rows * width < 2^18]), which [low_memory] guarantees.

    An empty file raises [EmptyDataError].  The theorems: the dtype of
    an integer column and its int64/uint64 bounds; the two errors; and
    what every frame that is read satisfies (distinct names, one cell
    per data line).  [to_csv] writes a frame back, and a well-formed
    frame is read back as it is ([read_csv_to_csv]). *)

From Stdlib Require Import QArith ZArith Ascii String List Bool Arith Lia.
From Stdlib Require Import DecimalN DecimalPos.
From S2P Require Import Prelude Text Header Frame.
Import ListNotations.
Local Open Scope bizstat_scope.

Module Csv.

(** ** Lines and fields *)

(** [s.split(sep)]: never empty, one piece more than there are [sep]. *)
Fixpoint split_on (sep : ascii) (s : pystr) : list pystr :=
  match s with
  | [] => [[]]
  | c :: s' =>
      let rest := split_on sep s' in
      if Ascii.eqb c sep then [] :: rest
      else match rest with
           | r :: rs => (c :: r) :: rs
           | [] => [[c]]
           end
  end.

(** A line ended by ["\r\n"] loses its ["\r"]. *)
Definition strip_cr (l : pystr) : pystr :=
  match rev l with
  | "013"%char :: r => rev r
  | _ => l
  end.

Definition is_nil {A} (l : list A) : bool :=
  match l with [] => true | _ => false end.

(** The lines the tokenizer reads: blank lines skipped. *)
Definition csv_lines (text : pystr) : list pystr :=
  filter (fun l => negb (is_nil l)) (map strip_cr (split_on "010"%char text)).

Definition quote_char : ascii := ascii_of_nat 34.

(** A printable ASCII character other than the quote. *)
Definition safe_char (c : ascii) : bool :=
  (32 <=? nat_of_ascii c) && (nat_of_ascii c <=? 126) && negb (Ascii.eqb c quote_char).

Definition starts_with_space (l : pystr) : bool :=
  match l with " "%char :: _ => true | _ => false end.

(** The lines inside the model: no quoting, no control character, no
    byte above 127, no leading space. *)
Definition in_model_line (l : pystr) : bool :=
  forallb safe_char l && negb (starts_with_space l).

Definition fields (l : pystr) : list pystr := split_on ","%char l.

(** ** Cells *)

Inductive cell_kind : Type :=
| CNum (q : Q)
| CText
| CUnknown.

(** The digits of a decimal string, most significant first. *)
Fixpoint digits_uint (s : pystr) : option Decimal.uint :=
  match s with
  | [] => Some Decimal.Nil
  | c :: s' =>
      match digits_uint s' with
      | None => None
      | Some u =>
          match c with
          | "0"%char => Some (Decimal.D0 u) | "1"%char => Some (Decimal.D1 u)
          | "2"%char => Some (Decimal.D2 u) | "3"%char => Some (Decimal.D3 u)
          | "4"%char => Some (Decimal.D4 u) | "5"%char => Some (Decimal.D5 u)
          | "6"%char => Some (Decimal.D6 u) | "7"%char => Some (Decimal.D7 u)
          | "8"%char => Some (Decimal.D8 u) | "9"%char => Some (Decimal.D9 u)
          | _ => None
          end
      end
  end.

Definition split_sign (s : pystr) : bool * pystr :=
  match s with
  | "-"%char :: r => (true, r)
  | "+"%char :: r => (false, r)
  | _ => (false, s)
  end.

Definition signed (neg : bool) (z : Z) : Z := if neg then Z.opp z else z.

(** The grammar [[+-]? digits ("." digits)?] with at least one digit,
    read exactly: [int.frac] is [(int * 10^m + frac) / 10^m]. *)
Definition parse_number (s : pystr) : option Q :=
  let (neg, r) := split_sign s in
  match split_on "."%char r with
  | [a] =>
      match a, digits_uint a with
      | _ :: _, Some u => Some (signed neg (Z.of_N (N.of_uint u)) # 1)
      | _, _ => None
      end
  | [a; b] =>
      match digits_uint a, digits_uint b with
      | Some u, Some v =>
          if (length a + length b =? 0)%nat then None
          else Some (signed neg (Z.of_N (N.of_uint u) * 10 ^ Z.of_nat (length b)
                                 + Z.of_N (N.of_uint v))
                     # Z.to_pos (10 ^ Z.of_nat (length b)))
      | _, _ => None
      end
  | _ => None
  end.

(** An integer literal [[+-]? digits], as the tokenizer's [str_to_int64]
    and [str_to_uint64] read it. *)
Definition int_literal (s : pystr) : option Z :=
  let (neg, r) := split_sign s in
  match r, digits_uint r with
  | _ :: _, Some u => Some (signed neg (Z.of_N (N.of_uint u)))
  | _, _ => None
  end.

Definition int64_min : Z := - 2 ^ 63.
Definition int64_max : Z := 2 ^ 63 - 1.
Definition uint64_max : Z := 2 ^ 64 - 1.

Definition in_int64 (z : Z) : bool := (int64_min <=? z)%Z && (z <=? int64_max)%Z.
Definition in_uint64 (z : Z) : bool := (0 <=? z)%Z && (z <=? uint64_max)%Z.

(** The C parser reads a column of integers as [int64] when every value
    fits, else as [uint64] when every value fits (no negative value);
    otherwise the [OverflowError] leaves the column as the strings of
    the file ([object]). *)
Definition int_range_ok (zs : list Z) : bool := forallb in_int64 zs || forallb in_uint64 zs.

(** pandas' default NA strings and the boolean literals. *)
Definition na_values : list pystr :=
  map kw ["#N/A"; "#N/A N/A"; "#NA"; "-1.#IND"; "-1.#QNAN"; "-NaN"; "-nan";
          "1.#IND"; "1.#QNAN"; "<NA>"; "N/A"; "NA"; "NULL"; "NaN"; "None";
          "n/a"; "nan"; "null"]%string.

Definition bool_values : list pystr :=
  map kw ["True"; "TRUE"; "true"; "False"; "FALSE"; "false"]%string.

Definition special_cell (s : pystr) : bool :=
  is_nil s || existsb (pystr_eqb s) (na_values ++ bool_values).

(** What a float parser might read: digits, signs, points and
    exponents only, or a spelling of [inf] or [nan]. *)
Definition floatish_char (c : ascii) : bool :=
  existsb (Ascii.eqb c) (kw "0123456789+-.eE").

Definition floatish (t : pystr) : bool :=
  forallb floatish_char t
  || existsb (pystr_eqb (py_lower (snd (split_sign t)))) (map kw ["inf"; "infinity"; "nan"]%string).

(** The dtype inference of one cell. *)
Definition classify (s : pystr) : cell_kind :=
  let t := py_strip s in
  if special_cell s || special_cell t then CUnknown
  else match parse_number s with
       | Some q => CNum q
       | None => if floatish t then CUnknown else CText
       end.

(** ** Rows and columns *)

(** The data rows after the first, each as long as the header ([k]):
    the first longer one raises [ParserError]. *)
Fixpoint check_rows (k : nat) (rows : list (list pystr)) : option (result unit) :=
  match rows with
  | [] => Some (Ok tt)
  | r :: rs =>
      if length r =? k then check_rows k rs
      else if k <? length r then Some (Raise PyParserError)
      else None
  end.

(** The first data row decides the index: inside the model it is as long
    as the header. *)
Definition check_body (k : nat) (rows : list (list pystr)) : option (result unit) :=
  match rows with
  | [] => Some (Ok tt)
  | r :: rs => if length r =? k then check_rows k rs else None
  end.

Fixpoint all_some {A} (l : list (option A)) : option (list A) :=
  match l with
  | [] => Some []
  | Some a :: l' => match all_some l' with Some r => Some (a :: r) | None => None end
  | None :: _ => None
  end.

Definition is_unknown (k : cell_kind) : bool :=
  match k with CUnknown => true | _ => false end.

Definition num_of (k : cell_kind) : option Q :=
  match k with CNum q => Some q | _ => None end.

(** One column: numbers if every cell is one and the integers fit the
    parser's [int64] or [uint64] (else the strings); the strings if a
    cell is text.  In a column of numbers with a decimal point, the
    [int64] parse stops at the first such cell and the column is read
    as floats; an integer outside [int64] there makes the result depend
    on the order of the cells and is outside the model. *)
Definition convert_column (one_chunk : bool) (cells : list pystr) : option Frame.column :=
  let ks := map classify cells in
  if existsb is_unknown ks then None
  else match all_some (map num_of ks) with
       | Some qs =>
           match all_some (map int_literal cells) with
           | Some zs => if int_range_ok zs then Some (map VNum qs) else Some (map VStr cells)
           | None =>
               if forallb (fun s => match int_literal s with Some z => in_int64 z | None => true end) cells
               then Some (map VNum qs) else None
           end
       | None =>
           if existsb (fun k => match k with CNum _ => true | _ => false end) ks && negb one_chunk
           then None else Some (map VStr cells)
       end.

Definition column_cells (rows : list (list pystr)) (i : nat) : list pystr :=
  map (fun r => nth i r []) rows.

Definition convert_columns (one_chunk : bool) (k : nat) (rows : list (list pystr))
  : option (list Frame.column) :=
  all_some (map (fun i => convert_column one_chunk (column_cells rows i)) (seq 0 k)).

(** [pd.read_csv] on the text of the file. *)
Definition read_csv (text : pystr) : option (result Frame.frame) :=
  let lines := csv_lines text in
  if negb (forallb in_model_line lines) then None
  else match map fields lines with
  | [] => Some (Raise PyEmptyDataError)
  | hdr :: rows =>
      match check_body (length hdr) rows with
      | None => None
      | Some (Raise e) => Some (Raise e)
      | Some (Ok _) =>
          if existsb is_nil hdr then None
          else match Header.mangle_header hdr with
               | None => None
               | Some names =>
                   let one_chunk := (length rows * length hdr <? 2 ^ 18)%nat in
                   match convert_columns one_chunk (length hdr) rows with
                   | Some cols => Some (Ok (combine names cols))
                   | None => None
                   end
               end
      end
  end.

(** ** Writing a frame as CSV

    The inverse of the reader, for the round trip: [DataFrame.to_csv]
    without the index, integers in decimal. *)

Fixpoint join (sep : ascii) (l : list pystr) : pystr :=
  match l with
  | [] => []
  | [x] => x
  | x :: l' => x ++ sep :: join sep l'
  end.

Definition show_int (z : Z) : pystr :=
  (if (z <? 0)%Z then ["-"%char] else []) ++ Header.uint_chars (N.to_uint (Z.abs_N z)).

Definition show_cell (v : value) : pystr :=
  match v with VNum q => show_int (Qnum q) | VStr s => s end.

Definition nrows (df : Frame.frame) : nat :=
  match df with [] => 0 | (_, col) :: _ => length col end.

Definition csv_row (df : Frame.frame) (i : nat) : list pystr :=
  map (fun nc => show_cell (nth i (snd nc) (VStr []))) df.

Definition to_csv (df : Frame.frame) : pystr :=
  join "010"%char (map (join ","%char) (map fst df :: map (csv_row df) (seq 0 (nrows df)))).

(** The frames the writer and the reader agree on: named columns with
    distinct names of printable characters, of one length, each of
    integers or of text cells the reader keeps as text. *)
Definition cell_char (c : ascii) : bool := safe_char c && negb (Ascii.eqb c ","%char).

Definition name_ok (s : pystr) : bool :=
  negb (is_nil s) && forallb cell_char s && negb (starts_with_space s).

Fixpoint distinct_names (l : list pystr) : bool :=
  match l with
  | [] => true
  | x :: l' => negb (existsb (pystr_eqb x) l') && distinct_names l'
  end.

Definition int_cell (v : value) : bool :=
  match v with VNum q => Pos.eqb (Qden q) 1 && in_int64 (Qnum q) | VStr _ => false end.

Definition is_text (k : cell_kind) : bool :=
  match k with CText => true | _ => false end.

Definition text_cell (v : value) : bool :=
  match v with VStr s => name_ok s && is_text (classify s) | VNum _ => false end.

Definition csv_ready (df : Frame.frame) : bool :=
  negb (is_nil df) && forallb name_ok (map fst df) && distinct_names (map fst df)
  && forallb (fun nc => (length (snd nc) =? nrows df)
                        && (forallb int_cell (snd nc) || forallb text_cell (snd nc))) df.

(** ** Lines and fields *)

Lemma split_on_noin (sep : ascii) (a : pystr) : ~ In sep a -> split_on sep a = [a].
Proof.
  induction a as [|c a IH]; intros Hn; [reflexivity|]. simpl.
  rewrite IH by (intros H; apply Hn; right; exact H).
  destruct (Ascii.eqb_spec c sep); [subst; destruct Hn; left; reflexivity|reflexivity].
Qed.

Lemma split_on_app (sep : ascii) (a s : pystr) :
  ~ In sep a -> split_on sep (a ++ sep :: s) = a :: split_on sep s.
Proof.
  induction a as [|c a IH]; intros Hn; simpl.
  - rewrite Ascii.eqb_refl. reflexivity.
  - rewrite IH by (intros H; apply Hn; right; exact H).
    destruct (Ascii.eqb_spec c sep); [subst; destruct Hn; left; reflexivity|reflexivity].
Qed.

Lemma split_join (sep : ascii) (l : list pystr) :
  l <> [] -> Forall (fun x => ~ In sep x) l -> split_on sep (join sep l) = l.
Proof.
  induction l as [|x l IH]; intros Hne Hf; [congruence|].
  inversion Hf as [|? ? Hx Hl]; subst.
  destruct l as [|y l]; simpl.
  - apply split_on_noin, Hx.
  - rewrite split_on_app by exact Hx. f_equal. apply IH; [discriminate|exact Hl].
Qed.

Lemma split_on_not_nil (sep : ascii) (s : pystr) : split_on sep s <> [].
Proof.
  destruct s as [|c s]; simpl; [discriminate|].
  destruct (Ascii.eqb c sep); [discriminate|]. destruct (split_on sep s); discriminate.
Qed.

Lemma forallb_noin (p : ascii -> bool) (c : ascii) (s : pystr) :
  p c = false -> forallb p s = true -> ~ In c s.
Proof. intros Hc Hs Hin. rewrite forallb_forall in Hs. rewrite (Hs c Hin) in Hc. discriminate. Qed.

Lemma join_cons (sep : ascii) (x y : pystr) (l : list pystr) :
  join sep (x :: y :: l) = x ++ sep :: join sep (y :: l).
Proof. reflexivity. Qed.

Lemma forallb_join (p : ascii -> bool) (sep : ascii) (l : list pystr) :
  p sep = true -> Forall (fun x => forallb p x = true) l -> forallb p (join sep l) = true.
Proof.
  intros Hs Hl. induction Hl as [|x l Hx Hl IH]; [reflexivity|].
  destruct l as [|y l]; [exact Hx|].
  rewrite join_cons, forallb_app, Hx. cbn [forallb]. rewrite Hs. exact IH.
Qed.

Lemma join_first (sep : ascii) (x : pystr) (l : list pystr) :
  exists rest, join sep (x :: l) = x ++ rest.
Proof. destruct l; simpl; [exists []; symmetry; apply app_nil_r|eexists; reflexivity]. Qed.

Lemma strip_cr_safe (l : pystr) : forallb safe_char l = true -> strip_cr l = l.
Proof.
  intros H. unfold strip_cr. destruct (rev l) as [|c r] eqn:E; [reflexivity|].
  assert (Hin : In c l) by (apply in_rev; rewrite E; left; reflexivity).
  rewrite forallb_forall in H. specialize (H c Hin).
  destruct c as [[] [] [] [] [] [] [] []]; try reflexivity; discriminate.
Qed.

(** The lines of a text made of non-blank safe lines are those lines. *)
Lemma csv_lines_join (ls : list pystr) :
  ls <> [] -> Forall (fun l => forallb safe_char l = true /\ l <> []) ls ->
  csv_lines (join "010"%char ls) = ls.
Proof.
  intros Hne Hf. unfold csv_lines. rewrite split_join; [|exact Hne|].
  - rewrite map_ext_in with (g := fun l => l), map_id.
    + apply forallb_filter_id. apply forallb_forall. intros l Hl.
      rewrite Forall_forall in Hf. destruct (Hf l Hl) as [_ Hn]. destruct l; [congruence|reflexivity].
    + intros l Hl. rewrite Forall_forall in Hf. apply strip_cr_safe, (proj1 (Hf l Hl)).
  - eapply Forall_impl; [|exact Hf]. intros l [Hs _]. apply (forallb_noin safe_char); [reflexivity|exact Hs].
Qed.

(** ** Integer cells *)

Definition is_digit (c : ascii) : bool := existsb (Ascii.eqb c) (kw "0123456789").

Definition numeric_char (c : ascii) : bool := existsb (Ascii.eqb c) (kw "+-0123456789").

Lemma digits_uint_chars (u : Decimal.uint) : digits_uint (Header.uint_chars u) = Some u.
Proof. induction u; simpl; try rewrite IHu; reflexivity. Qed.

Lemma uint_chars_digits (u : Decimal.uint) : forallb is_digit (Header.uint_chars u) = true.
Proof. induction u; simpl; auto. Qed.

Lemma uint_chars_not_nil (n : N) : Header.uint_chars (N.to_uint n) <> [].
Proof.
  destruct n as [|p]; [discriminate|]. simpl.
  pose proof (DecimalPos.Unsigned.to_uint_nonnil p) as H.
  destruct (Pos.to_uint p); simpl; congruence.
Qed.

Lemma split_sign_digits (neg : bool) (u : Decimal.uint) :
  split_sign ((if neg then ["-"%char] else []) ++ Header.uint_chars u)
  = (neg, Header.uint_chars u).
Proof. destruct neg; [reflexivity|destruct u; reflexivity]. Qed.

Lemma show_int_chars (z : Z) : forallb numeric_char (show_int z) = true.
Proof.
  unfold show_int. rewrite forallb_app.
  apply andb_true_intro. split; [destruct (z <? 0)%Z; reflexivity|].
  pose proof (uint_chars_digits (N.to_uint (Z.abs_N z))) as H.
  rewrite forallb_forall in *. intros c Hc. specialize (H c Hc).
  unfold is_digit in H. unfold numeric_char. simpl in *. rewrite H, !orb_true_r. reflexivity.
Qed.

Lemma show_int_not_nil (z : Z) : show_int z <> [].
Proof.
  unfold show_int. pose proof (uint_chars_not_nil (Z.abs_N z)).
  destruct (z <? 0)%Z; simpl; [discriminate|assumption].
Qed.

(** A string of signs and digits has no surrounding spaces and is none
    of the special cells. *)
Lemma numeric_stripped (s : pystr) : forallb numeric_char s = true -> py_strip s = s.
Proof.
  intros H. apply py_strip_noop. unfold stripped.
  assert (Hsp : forall c, In c s -> py_isspace c = false).
  { intros c Hc. rewrite forallb_forall in H. specialize (H c Hc).
    destruct c as [[] [] [] [] [] [] [] []]; try reflexivity; discriminate. }
  apply andb_true_intro. split.
  - destruct s as [|c r]; [reflexivity|]. simpl. rewrite Hsp; [reflexivity|left; reflexivity].
  - destruct (rev s) as [|c r] eqn:E; [reflexivity|]. simpl. rewrite Hsp; [reflexivity|].
    apply in_rev. rewrite E. left. reflexivity.
Qed.

Lemma numeric_not_special (s : pystr) :
  s <> [] -> forallb numeric_char s = true -> special_cell s = false.
Proof.
  intros Hne H. unfold special_cell. destruct s as [|c r]; [congruence|]. simpl is_nil.
  assert (Hl : forallb (fun x => negb (forallb numeric_char x)) (na_values ++ bool_values) = true)
    by reflexivity.
  apply not_true_iff_false. intros Hex. apply existsb_exists in Hex as (x & Hx & Heq).
  apply pystr_eqb_spec in Heq. rewrite forallb_forall in Hl. specialize (Hl x Hx).
  rewrite <- Heq, H in Hl. discriminate.
Qed.

(** ** Integer literals *)

Lemma digits_uint_digits (r : pystr) (u : Decimal.uint) : digits_uint r = Some u -> forallb is_digit r = true.
Proof.
  revert u. induction r as [|c r IH]; intros u H; [reflexivity|]. simpl in H.
  destruct (digits_uint r) as [u'|] eqn:E; [|discriminate].
  cbn [forallb]. rewrite (IH u' eq_refl), andb_true_r.
  destruct c as [[] [] [] [] [] [] [] []]; try discriminate; reflexivity.
Qed.

Lemma split_sign_cases (s : pystr) :
  s = snd (split_sign s) \/ s = "-"%char :: snd (split_sign s) \/ s = "+"%char :: snd (split_sign s).
Proof. destruct s as [|c s]; [left; reflexivity|]. destruct c as [[] [] [] [] [] [] [] []]; simpl; auto. Qed.

Lemma int_literal_chars (s : pystr) (z : Z) :
  int_literal s = Some z -> s <> [] /\ forallb numeric_char s = true.
Proof.
  unfold int_literal. pose proof (split_sign_cases s) as Hc.
  destruct (split_sign s) as [neg r]. simpl in Hc.
  destruct r as [|c r']; [discriminate|].
  destruct (digits_uint (c :: r')) as [u|] eqn:Ed; [|discriminate]. intros _.
  pose proof (digits_uint_digits _ _ Ed) as Hd.
  assert (Hn : forallb numeric_char (c :: r') = true).
  { rewrite forallb_forall in *. intros x Hx. specialize (Hd x Hx).
    unfold is_digit in Hd. unfold numeric_char. simpl in *. rewrite Hd, !orb_true_r. reflexivity. }
  destruct Hc as [-> | [-> | ->]]; (split; [discriminate|]); [exact Hn | |];
    apply andb_true_intro; (split; [reflexivity | exact Hn]).
Qed.

Lemma int_literal_parse (s : pystr) (z : Z) : int_literal s = Some z -> parse_number s = Some (z # 1).
Proof.
  unfold int_literal, parse_number. destruct (split_sign s) as [neg r].
  destruct r as [|c r']; [discriminate|].
  destruct (digits_uint (c :: r')) as [u|] eqn:Ed; [|discriminate].
  intros H. injection H as <-.
  rewrite split_on_noin by (apply (forallb_noin is_digit); [reflexivity | exact (digits_uint_digits _ _ Ed)]).
  rewrite Ed. reflexivity.
Qed.

(** An integer literal is a number cell. *)
Lemma classify_int_literal (s : pystr) (z : Z) : int_literal s = Some z -> classify s = CNum (z # 1).
Proof.
  intros H. destruct (int_literal_chars s z H) as [Hne Hc].
  unfold classify. rewrite numeric_stripped by exact Hc.
  rewrite numeric_not_special by assumption. simpl. rewrite (int_literal_parse s z H). reflexivity.
Qed.

Lemma int_literal_show_int (z : Z) : int_literal (show_int z) = Some z.
Proof.
  unfold show_int, int_literal. rewrite split_sign_digits.
  pose proof (digits_uint_chars (N.to_uint (Z.abs_N z))) as Hd.
  pose proof (uint_chars_not_nil (Z.abs_N z)) as Hne.
  destruct (Header.uint_chars (N.to_uint (Z.abs_N z))) as [|c r]; [congruence|].
  rewrite Hd, DecimalN.Unsigned.of_to, N2Z.inj_abs_N. f_equal.
  unfold signed. destruct (Z.ltb_spec z 0); lia.
Qed.

Lemma all_some_show_int (zs : list Z) : all_some (map int_literal (map show_int zs)) = Some zs.
Proof. induction zs as [|z zs IH]; simpl; [|rewrite int_literal_show_int, IH]; reflexivity. Qed.

Lemma classify_ints (cells : list pystr) (zs : list Z) :
  all_some (map int_literal cells) = Some zs -> map classify cells = map (fun z => CNum (inject_Z z)) zs.
Proof.
  revert zs. induction cells as [|s cells IH]; intros zs H; simpl in H.
  - injection H as <-. reflexivity.
  - destruct (int_literal s) as [z|] eqn:Ez; [|discriminate].
    destruct (all_some (map int_literal cells)) as [zs'|] eqn:E; [|discriminate].
    injection H as <-. simpl. rewrite (classify_int_literal s z Ez), (IH zs' eq_refl). reflexivity.
Qed.

(** A column of integer literals is read as its integers when they fit
    the parser's ranges, else as its strings. *)
Lemma convert_int_column (b : bool) (cells : list pystr) (zs : list Z) :
  all_some (map int_literal cells) = Some zs ->
  convert_column b cells =
  Some (if int_range_ok zs then map (fun z => VNum (inject_Z z)) zs else map VStr cells).
Proof.
  intros H. unfold convert_column. cbv zeta. rewrite (classify_ints cells zs H).
  replace (existsb is_unknown _) with false by (clear; induction zs; auto).
  replace (all_some _) with (Some (map inject_Z zs))
    by (clear; induction zs as [|z zs IH]; simpl; [|rewrite <- IH]; reflexivity).
  rewrite H. destruct (int_range_ok zs); [rewrite map_map|]; reflexivity.
Qed.

Lemma int_range_ok_spec (zs : list Z) :
  int_range_ok zs = true <->
  (forall z, In z zs -> (- 2 ^ 63 <= z < 2 ^ 63)%Z) \/ (forall z, In z zs -> (0 <= z < 2 ^ 64)%Z).
Proof.
  unfold int_range_ok. rewrite orb_true_iff, !forallb_forall.
  unfold in_int64, in_uint64, int64_min, int64_max, uint64_max.
  split; intros [H|H]; [left|right|left|right]; intros z Hz; specialize (H z Hz);
    rewrite ?andb_true_iff, ?Z.leb_le in *; lia.
Qed.

(** ** Rows and columns of a written frame *)

Local Open Scope nat_scope.

Lemma check_rows_ok (k : nat) (rows : list (list pystr)) :
  Forall (fun r => length r = k) rows -> check_rows k rows = Some (Ok tt).
Proof. induction 1 as [|r rs Hr _ IH]; simpl; [reflexivity|]. rewrite Hr, Nat.eqb_refl. exact IH. Qed.

Lemma check_body_ok (k : nat) (rows : list (list pystr)) :
  Forall (fun r => length r = k) rows -> check_body k rows = Some (Ok tt).
Proof.
  intros H. destruct rows as [|r rs]; [reflexivity|]. inversion H; subst. simpl.
  rewrite Nat.eqb_refl. apply check_rows_ok. assumption.
Qed.

Lemma all_some_map_Some {A} (l : list A) : all_some (map Some l) = Some l.
Proof. induction l as [|a l IH]; simpl; [|rewrite IH]; reflexivity. Qed.

Lemma combine_map_fst_snd {A B} (l : list (A * B)) : combine (map fst l) (map snd l) = l.
Proof. induction l as [|[a b] l IH]; simpl; [|rewrite IH]; reflexivity. Qed.

Lemma nth_map_in {A B} (f : A -> B) (l : list A) (i : nat) (d : A) (d' : B) :
  i < length l -> nth i (map f l) d' = f (nth i l d).
Proof. intros Hi. rewrite (nth_indep _ d' (f d)) by (rewrite length_map; exact Hi). apply map_nth. Qed.

(** Column [i] of the written rows is the [i]-th column printed. *)
Lemma column_cells_rows (df : Frame.frame) (i : nat) (d : pystr * Frame.column) :
  i < length df -> length (snd (nth i df d)) = nrows df ->
  column_cells (map (csv_row df) (seq 0 (nrows df))) i = map show_cell (snd (nth i df d)).
Proof.
  intros Hi Hn. unfold column_cells, csv_row. rewrite map_map.
  rewrite map_ext with (g := fun j => show_cell (nth j (snd (nth i df d)) (VStr []))).
  - rewrite <- Hn at 1. apply map_nth_seq.
  - intros j. apply (nth_map_in (fun nc => show_cell (nth j (snd nc) (VStr []))) df i d []). exact Hi.
Qed.

Lemma text_column (col : Frame.column) :
  forallb text_cell col = true ->
  map classify (map show_cell col) = repeat CText (length col) /\ map VStr (map show_cell col) = col.
Proof.
  induction col as [|[q|t] col IH]; simpl; [auto|discriminate|].
  rewrite !andb_true_iff. intros [[_ Ht] Hc]. destruct (IH Hc) as [E1 E2].
  rewrite E1, E2. destruct (classify t); try discriminate. auto.
Qed.

Lemma int_column (col : Frame.column) :
  forallb int_cell col = true ->
  exists zs, col = map (fun z => VNum (inject_Z z)) zs /\ map show_cell col = map show_int zs /\
             forallb in_int64 zs = true.
Proof.
  induction col as [|v col IH]; simpl; [exists []; auto|].
  rewrite andb_true_iff. intros [Hv Hc]. destruct (IH Hc) as (zs & -> & E & Hz).
  destruct v as [[n d]|t]; [|discriminate]. unfold int_cell in Hv. cbn [Qden Qnum] in Hv.
  apply andb_true_iff in Hv as [Hd Hn]. apply Pos.eqb_eq in Hd. subst d.
  exists (n :: zs). simpl. rewrite E, Hn, Hz. auto.
Qed.

(** The reader gives back a printed column of integers or of text. *)
Lemma convert_column_show (one_chunk : bool) (col : Frame.column) :
  (forallb int_cell col || forallb text_cell col) = true ->
  convert_column one_chunk (map show_cell col) = Some col.
Proof.
  rewrite orb_true_iff. intros [Hi|Ht].
  - destruct (int_column col Hi) as (zs & Ecol & Es & Hz).
    rewrite Es, (convert_int_column one_chunk (map show_int zs) zs (all_some_show_int zs)).
    replace (int_range_ok zs) with true by (unfold int_range_ok; rewrite Hz; reflexivity).
    rewrite Ecol. reflexivity.
  - unfold convert_column. destruct (text_column col Ht) as [E1 E2]. rewrite E1.
    replace (existsb is_unknown (repeat CText (length col))) with false
      by (clear; induction (length col); auto).
    destruct col as [|v col]; [reflexivity|]. simpl.
    replace (existsb _ (repeat CText (length col))) with false by (clear; induction (length col); auto).
    simpl in E2. rewrite E2. reflexivity.
Qed.

(** ** Lines of a written frame *)

Lemma distinct_names_NoDup (l : list pystr) : distinct_names l = true -> NoDup l.
Proof.
  induction l as [|x l IH]; simpl; [constructor|]. rewrite andb_true_iff. intros [Hx Hl].
  constructor; [|apply IH, Hl]. intros Hin. apply negb_true_iff, not_true_iff_false in Hx.
  apply Hx, existsb_exists. exists x. split; [exact Hin|apply pystr_eqb_refl].
Qed.

Lemma csv_ready_spec (df : Frame.frame) :
  csv_ready df = true ->
  df <> [] /\ Forall (fun s => name_ok s = true) (map fst df) /\ NoDup (map fst df) /\
  (forall nc, In nc df -> length (snd nc) = nrows df /\
                          (forallb int_cell (snd nc) || forallb text_cell (snd nc)) = true).
Proof.
  unfold csv_ready. rewrite !andb_true_iff. intros [[[Hne Hn] Hd] Hc].
  split; [destruct df; discriminate|]. split; [apply Forall_forall, forallb_forall, Hn|].
  split; [apply distinct_names_NoDup, Hd|].
  intros nc Hin. rewrite forallb_forall in Hc. apply Hc, andb_true_iff in Hin as [H1 H2].
  split; [apply Nat.eqb_eq, H1|exact H2].
Qed.

Lemma starts_with_space_cons (a : ascii) (x y : pystr) :
  starts_with_space (a :: x) = starts_with_space (a :: y).
Proof. destruct a as [[] [] [] [] [] [] [] []]; reflexivity. Qed.

Lemma numeric_char_cell (c : ascii) :
  numeric_char c = true -> cell_char c = true /\ starts_with_space [c] = false.
Proof.
  unfold numeric_char. intros H. apply existsb_exists in H as (x & Hx & E).
  apply Ascii.eqb_eq in E. subst x. simpl in Hx.
  repeat (destruct Hx as [<-|Hx]; [split; reflexivity|]). destruct Hx.
Qed.

Lemma cell_char_safe (s : pystr) : forallb cell_char s = true -> forallb safe_char s = true.
Proof.
  rewrite !forallb_forall. intros H c Hc. specialize (H c Hc).
  unfold cell_char in H. apply andb_true_iff in H. tauto.
Qed.

Lemma show_cell_name_ok (v : value) :
  (int_cell v || text_cell v) = true -> name_ok (show_cell v) = true.
Proof.
  destruct v as [q|t]; cbn [int_cell text_cell orb show_cell]; intros Hv.
  - pose proof (show_int_chars (Qnum q)) as Hc. pose proof (show_int_not_nil (Qnum q)) as Hne.
    unfold name_ok. destruct (show_int (Qnum q)) as [|c r]; [congruence|].
    cbn [forallb] in Hc. apply andb_true_iff in Hc as [Hc Hr].
    destruct (numeric_char_cell c Hc) as [Hcc Hsp]. rewrite (starts_with_space_cons c r []), Hsp.
    cbn [forallb is_nil]. rewrite Hcc. simpl. rewrite forallb_forall in *.
    rewrite andb_true_r. apply forallb_forall. intros x Hx. apply numeric_char_cell, Hr, Hx.
  - apply andb_true_iff in Hv. tauto.
Qed.

Lemma join_line_ok (cells : list pystr) :
  cells <> [] -> Forall (fun c => name_ok c = true) cells ->
  in_model_line (join ","%char cells) = true /\ join ","%char cells <> [] /\
  fields (join ","%char cells) = cells.
Proof.
  intros Hne Hf.
  assert (Hcc : Forall (fun c => forallb cell_char c = true) cells).
  { eapply Forall_impl; [|exact Hf]. intros c Hc. unfold name_ok in Hc.
    rewrite !andb_true_iff in Hc. tauto. }
  assert (Hfields : fields (join ","%char cells) = cells).
  { unfold fields. apply split_join; [exact Hne|].
    eapply Forall_impl; [|exact Hcc]. intros c. apply forallb_noin. reflexivity. }
  destruct cells as [|c0 cs]; [congruence|]. inversion Hf as [|? ? H0 _]; subst.
  unfold name_ok in H0. rewrite !andb_true_iff in H0. destruct H0 as [[Hn0 _] Hs0].
  destruct (join_first ","%char c0 cs) as [rest Hj].
  destruct c0 as [|a c0']; [discriminate|].
  split; [|split; [rewrite Hj; discriminate|exact Hfields]].
  unfold in_model_line. rewrite forallb_join.
  - rewrite Hj. simpl app. rewrite (starts_with_space_cons a _ c0'), Hs0. reflexivity.
  - reflexivity.
  - eapply Forall_impl; [|exact Hcc]. intros c. apply cell_char_safe.
Qed.

(** Lines made of well-formed cells are read back as those cells. *)
Lemma lines_of_cells (X : list (list pystr)) :
  X <> [] -> Forall (fun cells => cells <> [] /\ Forall (fun c => name_ok c = true) cells) X ->
  csv_lines (join "010"%char (map (join ","%char) X)) = map (join ","%char) X /\
  forallb in_model_line (map (join ","%char) X) = true /\
  map fields (map (join ","%char) X) = X.
Proof.
  intros Hne Hf.
  assert (Hl : forall cells, In cells X -> in_model_line (join ","%char cells) = true /\
                 join ","%char cells <> [] /\ fields (join ","%char cells) = cells).
  { intros cells Hin. rewrite Forall_forall in Hf. destruct (Hf _ Hin). apply join_line_ok; assumption. }
  split; [|split].
  - apply csv_lines_join; [destruct X; simpl; congruence|].
    apply Forall_forall. intros l Hin. apply in_map_iff in Hin as (cells & <- & Hin).
    destruct (Hl cells Hin) as (H1 & H2 & _). unfold in_model_line in H1.
    apply andb_true_iff in H1. tauto.
  - apply forallb_forall. intros l Hin. apply in_map_iff in Hin as (cells & <- & Hin). apply Hl, Hin.
  - rewrite map_map. rewrite map_ext_in with (g := fun c => c); [apply map_id|].
    intros cells Hin. apply Hl, Hin.
Qed.

Lemma cell_of_column (col : Frame.column) (v : value) :
  (forallb int_cell col || forallb text_cell col) = true -> In v col ->
  (int_cell v || text_cell v) = true.
Proof.
  intros H Hin. apply orb_true_iff in H as [H|H]; rewrite forallb_forall in H;
    rewrite (H v Hin); [reflexivity|apply orb_true_r].
Qed.

Lemma csv_row_cells (df : Frame.frame) (j : nat) :
  csv_ready df = true -> j < nrows df ->
  csv_row df j <> [] /\ Forall (fun c => name_ok c = true) (csv_row df j).
Proof.
  intros H Hj. destruct (csv_ready_spec df H) as (Hne & _ & _ & Hc). split.
  - unfold csv_row. destruct df; [congruence|discriminate].
  - apply Forall_forall. intros c Hin. unfold csv_row in Hin.
    apply in_map_iff in Hin as ([nm col] & <- & Hin). destruct (Hc _ Hin) as [Hl Hk].
    simpl in Hl, Hk |- *. apply show_cell_name_ok, (cell_of_column col); [exact Hk|apply nth_In; lia].
Qed.

Lemma to_csv_lines (df : Frame.frame) :
  csv_ready df = true ->
  csv_lines (to_csv df) = map (join ","%char) (map fst df :: map (csv_row df) (seq 0 (nrows df))) /\
  forallb in_model_line (csv_lines (to_csv df)) = true /\
  map fields (csv_lines (to_csv df)) = map fst df :: map (csv_row df) (seq 0 (nrows df)).
Proof.
  intros H. destruct (csv_ready_spec df H) as (Hne & Hn & _ & _).
  destruct (lines_of_cells (map fst df :: map (csv_row df) (seq 0 (nrows df)))) as (E1 & E2 & E3).
  - discriminate.
  - constructor; [split; [destruct df; simpl; congruence|exact Hn]|].
    apply Forall_forall. intros r Hin. apply in_map_iff in Hin as (j & <- & Hj).
    apply in_seq in Hj. apply csv_row_cells; [exact H|lia].
  - unfold to_csv. rewrite E1. auto.
Qed.

Lemma convert_columns_show (b : bool) (df : Frame.frame) :
  (forall nc, In nc df -> length (snd nc) = nrows df /\
                          (forallb int_cell (snd nc) || forallb text_cell (snd nc)) = true) ->
  convert_columns b (length df) (map (csv_row df) (seq 0 (nrows df))) = Some (map snd df).
Proof.
  intros Hc. unfold convert_columns.
  set (d := (@nil ascii, @nil value)).
  rewrite map_ext_in with (g := fun i => Some (snd (nth i df d))).
  - rewrite <- (map_map (fun i => snd (nth i df d)) Some), (map_nth_seq snd df d).
    apply all_some_map_Some.
  - intros i Hi. apply in_seq in Hi. assert (Hin : In (nth i df d) df) by (apply nth_In; lia).
    destruct (Hc _ Hin) as [Hl Hk].
    rewrite (column_cells_rows df i d) by (lia || exact Hl). apply convert_column_show, Hk.
Qed.

Lemma read_csv_to_csv (df : Frame.frame) :
  csv_ready df = true -> read_csv (to_csv df) = Some (Ok df).
Proof.
  intros H. destruct (csv_ready_spec df H) as (Hne & Hn & Hnd & Hc).
  destruct (to_csv_lines df H) as (_ & E2 & E3).
  unfold read_csv. cbv zeta. rewrite E2, E3. cbn [negb map].
  rewrite check_body_ok.
  2: { apply Forall_forall. intros r Hin. apply in_map_iff in Hin as (j & <- & _).
       unfold csv_row. rewrite !length_map. reflexivity. }
  replace (existsb is_nil (map fst df)) with false.
  2: { symmetry. apply not_true_iff_false. intros Hx. apply existsb_exists in Hx as (x & Hx & Hnil).
       rewrite Forall_forall in Hn. specialize (Hn x Hx). unfold name_ok in Hn.
       rewrite Hnil in Hn. discriminate. }
  unfold Header.mangle_header. rewrite Header.mangle_cols_id by (exact Hnd || (intros; reflexivity)).
  cbn [app].
  rewrite (length_map fst df), convert_columns_show by exact Hc.
  rewrite combine_map_fst_snd. reflexivity.
Qed.

(** C31. A column of integer literals ([[+-]? digits]) is read by the C
    parser as numbers exactly when all its values fit [int64]
    ([-2^63 <= z < 2^63]) or all fit [uint64] ([0 <= z < 2^64]);
    otherwise the column keeps the strings of the file ([object] dtype):
    an integer too large for both, or a negative value next to one
    above [2^63 - 1], makes the whole column text. *)
Theorem read_int_column_bounds (b : bool) (cells : list pystr) (zs : list Z) :
  all_some (map int_literal cells) = Some zs ->
  convert_column b cells =
  Some (if int_range_ok zs then map (fun z => VNum (inject_Z z)) zs else map VStr cells) /\
  (int_range_ok zs = true <->
   (forall z, In z zs -> (- 2 ^ 63 <= z < 2 ^ 63)%Z) \/ (forall z, In z zs -> (0 <= z < 2 ^ 64)%Z)).
Proof. intros H. split; [apply convert_int_column, H | apply int_range_ok_spec]. Qed.

(** ** Errors *)

Lemma check_rows_app (k : nat) (good : list (list pystr)) (bad : list pystr)
      (rest : list (list pystr)) :
  Forall (fun r => length r = k) good -> k < length bad ->
  check_rows k (good ++ bad :: rest) = Some (Raise PyParserError).
Proof.
  induction 1 as [|r rs Hr _ IH]; intros Hb; simpl.
  - replace (length bad =? k) with false by (symmetry; apply Nat.eqb_neq; lia).
    replace (k <? length bad) with true by (symmetry; apply Nat.ltb_lt; lia). reflexivity.
  - rewrite Hr, Nat.eqb_refl. apply IH, Hb.
Qed.

(** C32. [pd.read_csv] raises [EmptyDataError] on a file without a
    non-blank line, and [ParserError] when, after a first data row as
    long as the header and rows as long, a row has more fields than the
    header. *)
Theorem read_csv_errors (text : pystr) :
  forallb in_model_line (csv_lines text) = true ->
  (csv_lines text = [] -> read_csv text = Some (Raise PyEmptyDataError)) /\
  (forall hdr r1 good bad rest,
     map fields (csv_lines text) = hdr :: r1 :: good ++ bad :: rest ->
     length r1 = length hdr -> Forall (fun r => length r = length hdr) good ->
     length hdr < length bad -> read_csv text = Some (Raise PyParserError)).
Proof.
  intros Hm. unfold read_csv. cbv zeta. rewrite Hm. cbn [negb]. split.
  - intros E. rewrite E. reflexivity.
  - intros hdr r1 good bad rest E H1 Hg Hb. rewrite E. unfold check_body. cbn beta iota.
    rewrite H1, Nat.eqb_refl, check_rows_app by assumption. reflexivity.
Qed.

(** ** The frames read *)

Lemma all_some_length {A} (l : list (option A)) (r : list A) :
  all_some l = Some r -> length r = length l.
Proof.
  revert r. induction l as [|[a|] l IH]; intros r H; simpl in H; try discriminate.
  - injection H as <-. reflexivity.
  - destruct (all_some l) as [r'|] eqn:E; [|discriminate]. injection H as <-.
    simpl. f_equal. apply IH. reflexivity.
Qed.

Lemma all_some_In {A} (l : list (option A)) (r : list A) (a : A) :
  all_some l = Some r -> In a r -> In (Some a) l.
Proof.
  revert r. induction l as [|[b|] l IH]; intros r H Ha; simpl in H; try discriminate.
  - injection H as <-. destruct Ha.
  - destruct (all_some l) as [r'|] eqn:E; [|discriminate]. injection H as <-.
    destruct Ha as [->|Ha]; [left; reflexivity|right; apply (IH r'); auto].
Qed.

Lemma convert_column_length (b : bool) (cells : list pystr) (col : Frame.column) :
  convert_column b cells = Some col -> length col = length cells.
Proof.
  unfold convert_column. destruct (existsb is_unknown _); [discriminate|].
  destruct (all_some (map num_of (map classify cells))) as [qs|] eqn:E.
  - apply all_some_length in E. rewrite !length_map in E.
    destruct (all_some (map int_literal cells)) as [zs|];
      [destruct (int_range_ok zs) | destruct (forallb _ cells)]; intros H; try discriminate;
      injection H as <-; rewrite length_map; auto.
  - destruct (_ && _); [discriminate|]. intros H. injection H as <-. apply length_map.
Qed.

Lemma convert_columns_spec (b : bool) (k : nat) (rows : list (list pystr)) (cols : list Frame.column) :
  convert_columns b k rows = Some cols ->
  length cols = k /\ (forall col, In col cols -> length col = length rows).
Proof.
  unfold convert_columns. intros H. split.
  - apply all_some_length in H. rewrite H, length_map, length_seq. reflexivity.
  - intros col Hin. apply (all_some_In _ _ _ H), in_map_iff in Hin as (i & Hc & _).
    apply convert_column_length in Hc. rewrite Hc. apply length_map.
Qed.

Lemma map_fst_combine {A B} (a : list A) (b : list B) :
  length a = length b -> map fst (combine a b) = a.
Proof.
  revert b. induction a as [|x a IH]; intros [|y b] H; simpl in *; try discriminate; [reflexivity|].
  f_equal. apply IH. lia.
Qed.

(** Every frame [pd.read_csv] returns has at least one column, its
    column names are pairwise distinct, and every column holds one cell
    per data line of the file (the lines after the header). *)
Theorem read_csv_frame (text : pystr) (df : Frame.frame) :
  read_csv text = Some (Ok df) ->
  df <> [] /\ NoDup (map fst df) /\
  (forall nc, In nc df -> length (snd nc) = length (csv_lines text) - 1).
Proof.
  unfold read_csv. cbv zeta. destruct (negb _); [discriminate|].
  destruct (csv_lines text) as [|l0 ls]; [discriminate|]. cbn [map].
  destruct (check_body _ _) as [[]|]; try discriminate.
  destruct (existsb is_nil _); [discriminate|].
  destruct (Header.mangle_header (fields l0)) as [names|] eqn:Ed; [|discriminate].
  destruct (convert_columns _ _ _) as [cols|] eqn:Ec; [|discriminate].
  intros H. injection H as <-.
  destruct (Header.mangle_cols_spec _ _ _ _ Ed) as (Hnd & out' & Eo & Hf);
    [intros k Hk; exfalso; unfold Header.cget in Hk; simpl in Hk; lia | intros k [] | constructor |].
  simpl in Eo. subst out'. pose proof (Forall2_length Hf) as Hlen. symmetry in Hlen.
  destruct (convert_columns_spec _ _ _ _ Ec) as (Hk & Hcols).
  pose proof (split_on_not_nil ","%char l0) as Hne.
  rewrite map_fst_combine by lia. split; [|split; [exact Hnd|]].
  - assert (Hpos : 0 < length (fields l0))
      by (unfold fields; destruct (split_on ","%char l0); [congruence|simpl; lia]).
    destruct names as [|n ns]; [simpl in Hlen; lia|].
    destruct cols as [|c cs]; [simpl in Hk; lia|]. discriminate.
  - intros [nm col] Hin. apply in_combine_r, Hcols in Hin. simpl. rewrite Hin, length_map. lia.
Qed.

End Csv.

(** ** Witnesses *)

Definition csv_newline : pystr := ["010"%char].

(** A file with a repeated header name, a blank line, a ["\r\n"] line end
    and signed decimals. *)
Definition csv_sample : pystr :=
  kw "Region,Sales,Sales" ++ csv_newline ++ kw "North,10,-2.5" ++ csv_newline ++ csv_newline
  ++ kw "South,+20,.5" ++ ["013"%char] ++ csv_newline.

Definition csv_sample_frame : Frame.frame :=
  [(kw "Region", [VStr (kw "North"); VStr (kw "South")]);
   (kw "Sales", [VNum 10; VNum 20]);
   (kw "Sales.1", [VNum (-25 # 10); VNum (5 # 10)])].

Definition roundtrip_frame : Frame.frame :=
  [(kw "Region", [VStr (kw "North"); VStr (kw "South America"); VStr (kw "N/A2")]);
   (kw "Total Sales", [VNum 10; VNum (-3); VNum 0])].

(** A third row longer than the header. *)
Definition parser_error_sample : pystr :=
  kw "a,b" ++ csv_newline ++ kw "1,2" ++ csv_newline ++ kw "3,4,5".

(** pandas' [test_numeric_range_too_wide]: [-1] and [2^63] fit neither
    [int64] nor [uint64] together, so the column is text. *)
Lemma read_int_column_bounds_witness :
  Csv.all_some (map Csv.int_literal [kw "-1"; kw "9223372036854775808"])
    = Some [(-1)%Z; 9223372036854775808%Z] /\
  Csv.convert_column true [kw "-1"; kw "9223372036854775808"]
    = Some [VStr (kw "-1"); VStr (kw "9223372036854775808")] /\
  (Csv.convert_column true [kw "-1"; kw "9223372036854775808"] =
   Some (if Csv.int_range_ok [(-1)%Z; 9223372036854775808%Z]
         then map (fun z => VNum (inject_Z z)) [(-1)%Z; 9223372036854775808%Z]
         else map VStr [kw "-1"; kw "9223372036854775808"]) /\
   (Csv.int_range_ok [(-1)%Z; 9223372036854775808%Z] = true <->
    (forall z, In z [(-1)%Z; 9223372036854775808%Z] -> (- 2 ^ 63 <= z < 2 ^ 63)%Z) \/
    (forall z, In z [(-1)%Z; 9223372036854775808%Z] -> (0 <= z < 2 ^ 64)%Z))).
Proof.
  assert (H : Csv.all_some (map Csv.int_literal [kw "-1"; kw "9223372036854775808"])
              = Some [(-1)%Z; 9223372036854775808%Z]) by (vm_compute; reflexivity).
  split; [exact H|]. split; [vm_compute; reflexivity|].
  exact (Csv.read_int_column_bounds true _ _ H).
Defined.

Lemma read_csv_errors_witness :
  Csv.read_csv parser_error_sample = Some (Raise PyParserError).
Proof.
  apply (proj2 (Csv.read_csv_errors parser_error_sample ltac:(vm_compute; reflexivity))
           [kw "a"; kw "b"] [kw "1"; kw "2"] [] [kw "3"; kw "4"; kw "5"] []).
  - vm_compute. reflexivity.
  - reflexivity.
  - constructor.
  - simpl. lia.
Defined.

Lemma read_csv_frame_witness :
  Csv.read_csv csv_sample = Some (Ok csv_sample_frame) /\
  (csv_sample_frame <> [] /\ NoDup (map fst csv_sample_frame) /\
   (forall nc, In nc csv_sample_frame ->
               length (snd nc) = (length (Csv.csv_lines csv_sample) - 1)%nat)).
Proof.
  assert (E : Csv.read_csv csv_sample = Some (Ok csv_sample_frame)) by (vm_compute; reflexivity).
  split; [exact E|exact (Csv.read_csv_frame _ _ E)].
Defined.
