(* ===== verification/Correlation.v ===== *)
(** * The correlation matrix of lines 79-81

    [numeric_df.corr()] converts the numeric columns to a float matrix
    and calls pandas' [libalgos.nancorr] with [minp = 1].  For every
    pair of columns [(xi, yi)] with [yi <= xi], [nancorr] runs Welford's
    one-pass recurrence over the rows ([w_step]: the running means and
    the running sums of squared and crossed deviations), and stores
    [covxy / sqrt(ssqdmx * ssqdmy)] at [(xi, yi)] and at [(yi, xi)]; NaN
    when there is no row or when the divisor is 0.  The table has no
    missing values, so every row is complete.

    [welford] is that recurrence; [nancorr] one entry; [corr_matrix] the
    matrix as pandas fills it (the lower triangle mirrored).  The
    theorems: the recurrence computes the two-pass sums of deviations
    from the means; the mirrored matrix is the full matrix of pairwise
    coefficients, with 1 (or NaN on a constant column) on the
    diagonal; every coefficient lies in [-1, 1]. *)

From Stdlib Require Import QArith Reals Qreals Lra List Lia.
From Stdlib Require Lqa.
From S2P Require Import Prelude Describe Frame.
Import ListNotations.
Import Stats.
Import Frame.

Module Corr.

Local Open Scope Q_scope.

(** ** Welford's recurrence *)

(** The accumulators of [nancorr] for one pair of columns. *)
Record wstate : Type := {
  w_nobs : nat;
  w_meanx : Q;
  w_meany : Q;
  w_ssqdmx : Q;
  w_ssqdmy : Q;
  w_covxy : Q
}.

Definition w_init : wstate :=
  {| w_nobs := 0; w_meanx := 0; w_meany := 0; w_ssqdmx := 0; w_ssqdmy := 0; w_covxy := 0 |}.

(** One row [(vx, vy)] of the inner loop of [nancorr]. *)
Definition w_step (s : wstate) (p : Q * Q) : wstate :=
  let '(vx, vy) := p in
  let nobs := S (w_nobs s) in
  let dx := vx - w_meanx s in
  let dy := vy - w_meany s in
  let meanx := w_meanx s + 1 / qnat nobs * dx in
  let meany := w_meany s + 1 / qnat nobs * dy in
  {| w_nobs := nobs;
     w_meanx := meanx;
     w_meany := meany;
     w_ssqdmx := w_ssqdmx s + (vx - meanx) * dx;
     w_ssqdmy := w_ssqdmy s + (vy - meany) * dy;
     w_covxy := w_covxy s + (vx - meanx) * dy |}.

Definition welford (rows : list (Q * Q)) : wstate := fold_left w_step rows w_init.

(** One entry: NaN below [minp = 1] rows and when
    [divisor = sqrt(ssqdmx * ssqdmy)] is 0, i.e. when the product is 0
    (it is never negative, [divisor_zero_iff]). *)
Definition nancorr (xs ys : list Q) : option R :=
  let s := welford (combine xs ys) in
  if Nat.ltb (w_nobs s) 1 then None
  else
    let p := w_ssqdmx s * w_ssqdmy s in
    if Qeq_bool p 0 then None
    else Some (Q2R (w_covxy s) / sqrt (Q2R p))%R.

(** [to_numpy(dtype=float)] of a numeric column. *)
Definition float_values (col : column) : list Q :=
  flat_map (fun v => match v with VNum q => [q] | VStr _ => [] end) col.

(** [numeric_df.corr()]: entry [(i, j)] is computed once, from the
    columns [(max i j, min i j)], as pandas fills the lower triangle and
    mirrors it. *)
Definition corr_matrix (df : frame) : list (list (option R)) :=
  let cols := map (fun nc => float_values (snd nc)) (select_numeric df) in
  let k := length cols in
  map (fun i => map (fun j =>
         if Nat.leb j i then nancorr (nth i cols []) (nth j cols [])
         else nancorr (nth j cols []) (nth i cols []))
       (seq 0 k))
    (seq 0 k).

(** ** The two-pass reference *)

Definition xs_of (rows : list (Q * Q)) : list Q := map fst rows.
Definition ys_of (rows : list (Q * Q)) : list Q := map snd rows.

(** The sum of crossed deviations from the two means. *)
Definition cross_dev (rows : list (Q * Q)) : Q :=
  let n := qnat (length rows) in
  let mx := py_sum (xs_of rows) / n in
  let my := py_sum (ys_of rows) / n in
  py_sum (map (fun p => (fst p - mx) * (snd p - my)) rows).

(** The raw sums of the rows: the state of [welford] is a function of
    them. *)
Definition sum_of (f : Q * Q -> Q) (rows : list (Q * Q)) : Q := py_sum (map f rows).

Definition w_inv (s : wstate) (rows : list (Q * Q)) : Prop :=
  let n := qnat (length rows) in
  let sx := sum_of fst rows in
  let sy := sum_of snd rows in
  w_nobs s = length rows /\
  w_meanx s == sx / n /\ w_meany s == sy / n /\
  w_ssqdmx s == sum_of (fun p => fst p * fst p) rows - sx * sx / n /\
  w_ssqdmy s == sum_of (fun p => snd p * snd p) rows - sy * sy / n /\
  w_covxy s == sum_of (fun p => fst p * snd p) rows - sx * sy / n.

(** The textbook two-pass coefficient: the sums of squared and crossed
    deviations from the means, computed after the means. *)
Definition pearson_ref (xs ys : list Q) : option R :=
  let rows := combine xs ys in
  let n := qnat (length rows) in
  let mx := py_sum (xs_of rows) / n in
  let my := py_sum (ys_of rows) / n in
  let p := sum_sq_dev (xs_of rows) mx * sum_sq_dev (ys_of rows) my in
  match rows with
  | [] => None
  | _ => if Qeq_bool p 0 then None else Some (Q2R (cross_dev rows) / sqrt (Q2R p))%R
  end.

(** Two columns for the witnesses. *)
Definition price_col : list Q := [1; 2; 3; 5].
Definition units_col : list Q := [9; 7; 6; 1].

Definition price_units_r : R :=
  (Q2R (w_covxy (welford (combine price_col units_col))) /
   sqrt (Q2R (w_ssqdmx (welford (combine price_col units_col)) *
              w_ssqdmy (welford (combine price_col units_col)))))%R.

(** ** Lemmas *)

Lemma sum_of_snoc f rows p : sum_of f (rows ++ [p]) == sum_of f rows + f p.
Proof.
  unfold sum_of. rewrite map_app, py_sum_app. simpl map.
  rewrite py_sum_cons, py_sum_nil. ring.
Qed.

Lemma sum_of_nil f : sum_of f [] == 0.
Proof. reflexivity. Qed.

Lemma qnat_succ_ne n : ~ qnat n + 1 == 0.
Proof. pose proof (qnat_nonneg n). Lqa.lra. Qed.

Lemma qnat_S n : qnat (S n) == qnat n + 1.
Proof. replace (S n) with (n + 1)%nat by lia. rewrite qnat_add. reflexivity. Qed.

(** One row keeps the invariant: Welford's update is exact. *)
Lemma w_step_inv s rows p : w_inv s rows -> w_inv (w_step s p) (rows ++ [p]).
Proof.
  destruct p as [vx vy]. unfold w_inv. cbv zeta.
  intros (Hn & Hmx & Hmy & Hsx & Hsy & Hc).
  rewrite length_app, !sum_of_snoc. simpl fst; simpl snd. unfold w_step. cbn [w_nobs w_meanx w_meany w_ssqdmx w_ssqdmy w_covxy].
  rewrite Hn. simpl length. rewrite Nat.add_1_r, !qnat_S.
  destruct rows as [|r rows].
  - cbn [length] in *. unfold sum_of in *. cbn [map] in *. change (py_sum []) with 0 in *.
    change (qnat 0) with 0 in *.
    assert (Z1 : 0 / 0 == 0) by reflexivity. assert (Z2 : 0 - 0 * 0 / 0 == 0) by reflexivity.
    rewrite Z1 in Hmx, Hmy. rewrite Z2 in Hsx, Hsy, Hc. rewrite Hmx, Hmy, Hsx, Hsy, Hc.
    repeat split; field.
  - assert (Hne : ~ qnat (length (r :: rows)) == 0) by (apply qnat_pos_ne; discriminate).
    pose proof (qnat_succ_ne (length (r :: rows))) as Hs1.
    rewrite Hmx, Hmy, Hsx, Hsy, Hc.
    repeat split; field; auto.
Qed.

Lemma welford_inv rows : w_inv (welford rows) rows.
Proof.
  induction rows as [|p rows IH] using rev_ind.
  - repeat split; reflexivity.
  - unfold welford. rewrite fold_left_app. apply w_step_inv, IH.
Qed.

Lemma cross_expand rows a b :
  py_sum (map (fun p => (fst p - a) * (snd p - b)) rows) ==
  sum_of (fun p => fst p * snd p) rows - a * sum_of snd rows - b * sum_of fst rows +
  qnat (length rows) * a * b.
Proof.
  unfold sum_of. induction rows as [|[x y] rows IH]; simpl map;
    [change (qnat (length (@nil (Q * Q)))) with 0; rewrite !py_sum_nil; ring|].
  rewrite !py_sum_cons, IH. simpl length. rewrite qnat_S. simpl fst; simpl snd. ring.
Qed.

Lemma sum_sq_dev_fst rows m :
  sum_sq_dev (xs_of rows) m ==
  sum_of (fun p => fst p * fst p) rows - 2 * m * sum_of fst rows + qnat (length rows) * m * m.
Proof.
  rewrite sum_sq_dev_expand. unfold xs_of, sum_of. rewrite map_map, length_map. reflexivity.
Qed.

Lemma sum_sq_dev_snd rows m :
  sum_sq_dev (ys_of rows) m ==
  sum_of (fun p => snd p * snd p) rows - 2 * m * sum_of snd rows + qnat (length rows) * m * m.
Proof.
  rewrite sum_sq_dev_expand. unfold ys_of, sum_of. rewrite map_map, length_map. reflexivity.
Qed.

(** Welford's accumulators are the two-pass sums. *)
Lemma welford_two_pass_eq rows :
  let s := welford rows in
  let n := qnat (length rows) in
  let mx := py_sum (xs_of rows) / n in
  let my := py_sum (ys_of rows) / n in
  w_nobs s = length rows /\
  w_ssqdmx s == sum_sq_dev (xs_of rows) mx /\ w_ssqdmy s == sum_sq_dev (ys_of rows) my /\
  w_covxy s == cross_dev rows.
Proof.
  cbv zeta. destruct (welford_inv rows) as (Hn & _ & _ & Hsx & Hsy & Hc).
  unfold cross_dev. rewrite sum_sq_dev_fst, sum_sq_dev_snd, cross_expand, Hsx, Hsy, Hc.
  change (py_sum (xs_of rows)) with (sum_of fst rows).
  change (py_sum (ys_of rows)) with (sum_of snd rows).
  split; [exact Hn|].
  destruct rows as [|r rows]; [repeat split; reflexivity|].
  pose proof (qnat_pos_ne (r :: rows) ltac:(discriminate)).
  repeat split; field; assumption.
Qed.

(** [nancorr] in terms of the two-pass sums of the rows, given the
    equations [welford_two_pass_eq] of its rows. *)
Ltac nancorr_reduce_with E :=
  let Hn := fresh "Hn" in let Ha := fresh "Ha" in let Hb := fresh "Hb" in let Hc := fresh "Hc" in
  unfold nancorr;
  destruct E as (Hn & Ha & Hb & Hc); cbv zeta in *;
  rewrite Hn, (Qeq_bool_morph _ _ (Qmult_comp _ _ Ha _ _ Hb)), (Qeq_eqR _ _ Hc),
    (Qeq_eqR _ _ (Qmult_comp _ _ Ha _ _ Hb));
  clear Hn Ha Hb Hc.

(** ** Cauchy-Schwarz *)

Lemma Q2R_nonneg_corr (q : Q) : 0 <= q -> (0 <= Q2R q)%R.
Proof. intros H. rewrite <- RMicromega.Q2R_0. apply Qle_Rle, H. Qed.

Lemma quad_form rows u v :
  sum_of (fun p => (fst p * u - snd p * v) * (fst p * u - snd p * v)) rows ==
  sum_of (fun p => fst p * fst p) rows * u * u - 2 * sum_of (fun p => fst p * snd p) rows * u * v +
  sum_of (fun p => snd p * snd p) rows * v * v.
Proof.
  unfold sum_of. induction rows as [|[x y] rows IH]; simpl map; [rewrite !py_sum_nil; ring|].
  rewrite !py_sum_cons, IH. simpl fst; simpl snd. ring.
Qed.

Lemma cauchy_schwarz rows :
  let a := sum_of (fun p => fst p * fst p) rows in
  let b := sum_of (fun p => snd p * snd p) rows in
  let c := sum_of (fun p => fst p * snd p) rows in
  c * c <= a * b.
Proof.
  cbv zeta.
  set (a := sum_of (fun p => fst p * fst p) rows).
  set (b := sum_of (fun p => snd p * snd p) rows).
  set (c := sum_of (fun p => fst p * snd p) rows).
  assert (Q0 : forall u v, 0 <= a * u * u - 2 * c * u * v + b * v * v).
  { intros u v. unfold a, b, c. rewrite <- quad_form. apply py_sum_nonneg. intros. apply Qsquare_nonneg. }
  assert (Ha : 0 <= a) by (apply py_sum_nonneg; intros; apply Qsquare_nonneg).
  destruct (Qeq_dec a 0) as [A0|A0].
  - destruct (Qeq_dec c 0) as [C0|C0]; [rewrite A0, C0; Lqa.lra|].
    exfalso. specialize (Q0 ((b + 1) / (2 * c)) 1). rewrite A0 in Q0.
    setoid_replace (0 * ((b + 1) / (2 * c)) * ((b + 1) / (2 * c)) - 2 * c * ((b + 1) / (2 * c)) * 1 + b * 1 * 1)
      with (-1) in Q0 by (field; exact C0).
    Lqa.lra.
  - assert (Hpos : 0 < a) by (apply Qle_lteq in Ha as [H|H]; [exact H | symmetry in H; contradiction]).
    specialize (Q0 c a).
    setoid_replace (a * c * c - 2 * c * c * a + b * a * a) with (a * (a * b - c * c)) in Q0 by ring.
    rewrite <- (Qmult_0_r a) in Q0 at 1. apply (Qmult_le_l 0 (a * b - c * c) a Hpos) in Q0. Lqa.lra.
Qed.

(** The inequality on the deviations from the means. *)
Lemma cauchy_schwarz_dev rows :
  let n := qnat (length rows) in
  let mx := py_sum (xs_of rows) / n in
  let my := py_sum (ys_of rows) / n in
  cross_dev rows * cross_dev rows <= sum_sq_dev (xs_of rows) mx * sum_sq_dev (ys_of rows) my.
Proof.
  cbv zeta. pose proof (cauchy_schwarz (map (fun p => (fst p - py_sum (xs_of rows) / qnat (length rows),
                                                  snd p - py_sum (ys_of rows) / qnat (length rows))) rows)) as H.
  cbv zeta in H. unfold sum_of in H. rewrite !map_map in H. cbn [fst snd] in H.
  unfold cross_dev, sum_sq_dev, xs_of, ys_of. rewrite !map_map. exact H.
Qed.

(** A coefficient whose squared numerator is at most its squared
    denominator lies in [-1, 1]. *)
Lemma coef_bounds (a b c : Q) :
  c * c <= a * b -> ~ a * b == 0 -> (-1 <= Q2R c / sqrt (Q2R (a * b)) <= 1)%R.
Proof.
  intros Hle Hne.
  assert (Hc2 : (Q2R c * Q2R c <= Q2R (a * b))%R) by (rewrite <- Q2R_mult; apply Qle_Rle, Hle).
  assert (Hp : (0 < Q2R (a * b))%R).
  { assert (Hz : Q2R (a * b) <> 0%R) by (intros E; apply Hne, eqR_Qeq; rewrite E; symmetry; apply RMicromega.Q2R_0).
    pose proof (Rle_0_sqr (Q2R c)) as Hsq. unfold Rsqr in Hsq. lra. }
  set (d := sqrt (Q2R (a * b))).
  assert (Hd : (0 < d)%R) by (apply sqrt_lt_R0, Hp).
  assert (Hdd : (d * d = Q2R (a * b))%R) by (apply sqrt_sqrt; lra).
  assert (Hr : (Q2R c / d * d = Q2R c)%R) by (field; lra).
  assert (Hcd : (- d <= Q2R c <= d)%R) by (split; nra).
  split; apply (Rmult_le_reg_r d); try exact Hd; rewrite Hr; lra.
Qed.

(** The coefficient does not depend on which column is [x]. *)
Lemma combine_swap (xs ys : list Q) :
  combine ys xs = map (fun p => (snd p, fst p)) (combine xs ys).
Proof.
  revert ys. induction xs as [|x xs IH]; intros [|y ys]; simpl; auto. rewrite IH. reflexivity.
Qed.

Lemma cross_dev_swap rows : cross_dev (map (fun p => (snd p, fst p)) rows) == cross_dev rows.
Proof.
  unfold cross_dev, xs_of, ys_of. rewrite !map_map, length_map. cbn [fst snd].
  change (map (fun x : Q * Q => snd x) rows) with (map snd rows).
  change (map (fun x : Q * Q => fst x) rows) with (map fst rows).
  apply py_sum_map_ext. intros p _. ring.
Qed.

Lemma nancorr_sym xs ys : nancorr ys xs = nancorr xs ys.
Proof.
  nancorr_reduce_with (welford_two_pass_eq (combine ys xs)). nancorr_reduce_with (welford_two_pass_eq (combine xs ys)). rewrite combine_swap, length_map.
  assert (E1 : xs_of (map (fun p => (snd p, fst p)) (combine xs ys)) = ys_of (combine xs ys))
    by (unfold xs_of, ys_of; rewrite map_map; reflexivity).
  assert (E2 : ys_of (map (fun p => (snd p, fst p)) (combine xs ys)) = xs_of (combine xs ys))
    by (unfold xs_of, ys_of; rewrite map_map; reflexivity).
  rewrite E1, E2, (Qeq_eqR _ _ (cross_dev_swap _)).
  set (A := sum_sq_dev (xs_of (combine xs ys)) _). set (B := sum_sq_dev (ys_of (combine xs ys)) _).
  rewrite (Qeq_bool_morph (B * A) (A * B)) by ring. rewrite (Qeq_eqR (B * A) (A * B)) by ring.
  reflexivity.
Qed.

Lemma combine_diag (xs : list Q) : combine xs xs = map (fun x => (x, x)) xs.
Proof. induction xs as [|x xs IH]; simpl; [reflexivity | rewrite IH; reflexivity]. Qed.

Lemma Qeq_bool_sq (x : Q) : Qeq_bool (x * x) 0 = Qeq_bool x 0.
Proof.
  destruct (Qeq_dec x 0) as [E|E].
  - rewrite !Qeq_bool_true; [reflexivity | exact E | rewrite E; reflexivity].
  - rewrite !Qeq_bool_false; [reflexivity | exact E |].
    intros Z. apply Qmult_integral in Z as [Z|Z]; contradiction.
Qed.

(** ** Theorems *)

(** C23. pandas' one-pass [nancorr] (Welford's running means and sums)
    computes exactly the textbook two-pass Pearson coefficient: the same
    NaN cases and the same value. *)
Theorem nancorr_two_pass xs ys : nancorr xs ys = pearson_ref xs ys.
Proof.
  nancorr_reduce_with (welford_two_pass_eq (combine xs ys)). unfold pearson_ref. destruct (combine xs ys); reflexivity.
Qed.

(** C24. Every coefficient of the correlation matrix of line 81 lies in
    [-1, 1] (Cauchy-Schwarz on the deviations from the means). *)
Theorem nancorr_bounds xs ys r : nancorr xs ys = Some r -> (-1 <= r <= 1)%R.
Proof.
  revert r. nancorr_reduce_with (welford_two_pass_eq (combine xs ys)). intros r.
  destruct (Nat.ltb _ 1); [discriminate|].
  destruct (Qeq_bool _ 0) eqn:E; [discriminate|]. intros H. injection H as <-.
  apply coef_bounds; [apply cauchy_schwarz_dev | apply Qeq_bool_neq, E].
Qed.

(** C25. Filling the lower triangle and mirroring it, as [nancorr]
    does, gives the full matrix of pairwise coefficients of the numeric
    columns of line 79: entry [(i, j)] is the coefficient of column [i]
    against column [j]. *)
Theorem corr_matrix_full df :
  let cols := map (fun nc => float_values (snd nc)) (select_numeric df) in
  corr_matrix df = map (fun a => map (fun b => nancorr a b) cols) cols.
Proof.
  cbv zeta. unfold corr_matrix. cbv zeta.
  set (cols := map (fun nc => float_values (snd nc)) (select_numeric df)).
  rewrite <- (map_nth_seq (fun a => map (fun b => nancorr a b) cols) cols []).
  apply map_ext. intros i.
  rewrite <- (map_nth_seq (fun b => nancorr (nth i cols []) b) cols []).
  apply map_ext. intros j. destruct (Nat.leb j i); [reflexivity | apply nancorr_sym].
Qed.

(** C26. The diagonal of the matrix is 1, except for a constant (or
    empty) column, whose coefficient with itself is NaN. *)
Theorem nancorr_diagonal xs :
  nancorr xs xs =
  if Qeq_bool (sum_sq_dev xs (py_sum xs / qnat (length xs))) 0 then None else Some 1%R.
Proof.
  nancorr_reduce_with (welford_two_pass_eq (combine xs xs)). rewrite combine_diag, length_map.
  assert (Ex : xs_of (map (fun x => (x, x)) xs) = xs) by (unfold xs_of; rewrite map_map; apply map_id).
  assert (Ey : ys_of (map (fun x => (x, x)) xs) = xs) by (unfold ys_of; rewrite map_map; apply map_id).
  assert (Ec : cross_dev (map (fun x => (x, x)) xs) == sum_sq_dev xs (py_sum xs / qnat (length xs))).
  { unfold cross_dev, sum_sq_dev. rewrite Ex, Ey, length_map, map_map. reflexivity. }
  rewrite Ex, Ey, (Qeq_eqR _ _ Ec), Qeq_bool_sq.
  set (sd := sum_sq_dev xs (py_sum xs / qnat (length xs))).
  destruct xs as [|x xs]; [reflexivity|]. cbn [length Nat.ltb Nat.leb].
  destruct (Qeq_bool sd 0) eqn:E; cbv beta iota; [reflexivity|]. f_equal.
  apply Qeq_bool_neq in E.
  assert (Hs : (0 <= Q2R sd)%R) by (apply Q2R_nonneg_corr, sum_sq_dev_nonneg).
  assert (Hz : Q2R sd <> 0%R) by (intros Z; apply E, eqR_Qeq; rewrite Z; symmetry; apply RMicromega.Q2R_0).
  rewrite Q2R_mult, sqrt_square by exact Hs. field. exact Hz.
Qed.

Lemma nancorr_bounds_witness :
  nancorr price_col units_col = Some price_units_r /\ (-1 <= price_units_r <= 1)%R.
Proof.
  assert (H : nancorr price_col units_col = Some price_units_r) by reflexivity.
  split; [exact H | apply (nancorr_bounds price_col units_col price_units_r H)].
Defined.

End Corr.
