(* ===== verification/Tests.v ===== *)
(** * The region t test and the product ANOVA (lines 95-109)

    [two_sample_t] is [scipy.stats.ttest_ind(g1, g2)] with its default
    [equal_var=True]: Student's statistic over the pooled variance
    [((n1-1) v1 + (n2-1) v2) / (n1 + n2 - 2)], where scipy's
    [_equal_var_ttest_denom] sets the variance of a one-value group to
    0 ([ttest_var]); NaN when both groups have one value (0 degrees of
    freedom) or the pooled variance is 0 with equal means, an infinite
    statistic when it is 0 with different means.  [region_test] is lines 96-102 ([unique], the two boolean
    selections, the test), [None] when the script skips it.

    [anova_F] first applies scipy's guard [_f_oneway_is_too_small]
    ([f_oneway_too_small]: NaN when a group is empty or every group has
    one value).  [f_oneway_ss] is scipy's [f_oneway] sums of squares as the library
    computes them: the data are shifted by the grand mean, the total and
    between-group sums come from squares of sums, and the within-group
    sum is their difference.  [anova_F] is the statistic [msb / msw],
    [anova_pvalue] its p-value [fdtrc(dfbn, dfwn, F)], [product_groups]
    line 106 and [product_test], [product_pvalue] lines 105-109.  The theorems: scipy's two sums equal
    the textbook ones ([ssb_reference], [ssw_reference]) and are
    non-negative, so a finite F is non-negative; groups with equal means
    get the p-value [fdtrc(dfbn, dfwn, 0) = 1] ([FDist]); Student's
    statistic is the textbook pooled one; the region test's p-value is
    NaN exactly when both regions have one row or all their sales are
    equal. *)

From Stdlib Require Import String QArith Reals Qreals Lra Bool List Permutation Lia.
From Stdlib Require Lqa.
From S2P Require Import Prelude Text Describe Inference Frame.
Import ListNotations.
Import Stats.
Import Frame.

Module Anova.

Local Open Scope Q_scope.
Local Open Scope bizstat_scope.

(** ** The one-way ANOVA, as [scipy.stats.f_oneway] computes it *)

(** [_sum_of_squares] and [_square_of_sums]. *)
Definition sum_of_squares (xs : list Q) : Q := py_sum (map (fun x => x * x) xs).
Definition square_of_sums (xs : list Q) : Q := py_sum xs * py_sum xs.

(** [(ssbn, sswn)]: the data shifted by [offset = mean(alldata)]. *)
Definition f_oneway_ss (groups : list (list Q)) : Q * Q :=
  let alldata := List.concat groups in
  let bign := qnat (length alldata) in
  let offset := py_sum alldata / bign in
  let shifted := map (fun x => x - offset) alldata in
  let normalized_ss := square_of_sums shifted / bign in
  let sstot := sum_of_squares shifted - normalized_ss in
  let ssbn := py_sum (map (fun g => square_of_sums (map (fun x => x - offset) g)
                                    / qnat (length g)) groups) - normalized_ss in
  (ssbn, sstot - ssbn).

(** The F statistic [msb / msw]: NaN on [0/0], infinite on [x/0]. *)
Inductive fstat : Type :=
| FFin (f : Q)
| FInf
| FNaN.

(** [_f_oneway_is_too_small]: an empty group, or groups of one value
    each, give NaN (with a [SmallSampleWarning]); the [TypeError] on
    fewer than two groups is unreachable from line 108, which runs only
    on two groups or more. *)
Definition f_oneway_too_small (groups : list (list Q)) : bool :=
  existsb (fun g => (length g =? 0)%nat) groups || forallb (fun g => (length g =? 1)%nat) groups.

Definition anova_F (groups : list (list Q)) : fstat :=
  if f_oneway_too_small groups then FNaN else
  let '(ssbn, sswn) := f_oneway_ss groups in
  let dfbn := qnat (length groups - 1) in
  let dfwn := qnat (length (List.concat groups) - length groups) in
  if Qeq_bool dfwn 0 || Qeq_bool sswn 0 then
    (if Qeq_bool ssbn 0 then FNaN else FInf)
  else FFin ((ssbn / dfbn) / (sswn / dfwn)).

(** Line 106: the sales of each product, as floats. *)
Definition product_groups (key target : column) : result (list (list Q)) :=
  gs <- groupby_values key target ;; all_numeric gs.

(** Lines 107-108: the statistic of the test, run only when there are
    at least two groups. *)
Definition product_test (key target : column) : result (option fstat) :=
  vs <- product_groups key target ;;
  Ok (if Nat.ltb 1 (length vs) then Some (anova_F vs) else None).

Section WithFDist.
Context `{FD : FDist}.

(** [anova.pvalue]: [fdtrc(dfbn, dfwn, f)]; 0 for an infinite
    statistic, NaN for NaN. *)
Definition f_pvalue (dfbn dfwn : nat) (f : fstat) : pval :=
  match f with
  | FFin x => PFin (f_sf dfbn dfwn (Q2R x))
  | FInf => PFin 0%R
  | FNaN => PNaN
  end.

Definition anova_pvalue (groups : list (list Q)) : pval :=
  f_pvalue (length groups - 1) (length (List.concat groups) - length groups) (anova_F groups).

(** Lines 105-109: the p-value printed at line 109. *)
Definition product_pvalue (key target : column) : result (option pval) :=
  vs <- product_groups key target ;;
  Ok (if Nat.ltb 1 (length vs) then Some (anova_pvalue vs) else None).

End WithFDist.

(** The textbook within-group sum of squares. *)
Definition ssw_reference (groups : list (list Q)) : Q :=
  py_sum (map (fun g => sum_sq_dev g (py_sum g / qnat (length g))) groups).

(** The textbook between-group sum: each group's size times the squared
    distance of its mean from the grand mean. *)
Definition ssb_reference (groups : list (list Q)) : Q :=
  let alldata := List.concat groups in
  let grand := py_sum alldata / qnat (length alldata) in
  py_sum (map (fun g => qnat (length g) *
                        ((py_sum g / qnat (length g) - grand) * (py_sum g / qnat (length g) - grand)))
              groups).

(** ** Sums over lists of groups *)

Lemma py_sum_concat (f : Q -> Q) gs :
  py_sum (map f (List.concat gs)) == py_sum (map (fun g => py_sum (map f g)) gs).
Proof.
  induction gs as [|g gs IH]; simpl; [reflexivity|].
  rewrite map_app, py_sum_app, py_sum_cons, IH. reflexivity.
Qed.

Lemma sum_sq_dev_mean xs :
  sum_sq_dev xs (py_sum xs / qnat (length xs)) ==
  sum_of_squares xs - square_of_sums xs / qnat (length xs).
Proof.
  destruct xs as [|x xs]; [reflexivity|].
  rewrite sum_sq_dev_expand. unfold square_of_sums, sum_of_squares.
  field. apply qnat_pos_ne. discriminate.
Qed.

(** Shifting a group does not change its squared deviations. *)
Lemma sum_sq_dev_shift c xs :
  sum_sq_dev (map (fun x => x - c) xs)
    (py_sum (map (fun x => x - c) xs) / qnat (length (map (fun x => x - c) xs))) ==
  sum_sq_dev xs (py_sum xs / qnat (length xs)).
Proof.
  destruct xs as [|x0 xs]; [reflexivity|].
  rewrite length_map. unfold sum_sq_dev. rewrite map_map.
  apply py_sum_map_ext. intros x _. rewrite py_sum_shift.
  field. apply qnat_pos_ne. discriminate.
Qed.

(** scipy's within-group sum [sstot - ssbn] is the textbook one. *)
Lemma sswn_eq_reference gs :
  snd (f_oneway_ss gs) == ssw_reference gs.
Proof.
  unfold f_oneway_ss, ssw_reference. simpl snd.
  set (c := py_sum (List.concat gs) / qnat (length (List.concat gs))).
  set (N := square_of_sums (map (fun x => x - c) (List.concat gs)) / qnat (length (List.concat gs))).
  unfold sum_of_squares at 1. rewrite map_map, py_sum_concat.
  transitivity (py_sum (map (fun g => sum_of_squares (map (fun x => x - c) g)
                  - square_of_sums (map (fun x => x - c) g) / qnat (length g)) gs)).
  - rewrite py_sum_map_sub. unfold sum_of_squares. rewrite (py_sum_map_ext _ (fun g =>
      py_sum (map (fun x => x * x) (map (fun x => x - c) g)))) by (intros; rewrite map_map; reflexivity).
    ring.
  - apply py_sum_map_ext. intros g _.
    rewrite <- (sum_sq_dev_shift c g), sum_sq_dev_mean, length_map. reflexivity.
Qed.

(** The data shifted by their mean sum to zero. *)
Lemma py_sum_shift_mean (xs : list Q) :
  py_sum (map (fun x => x - py_sum xs / qnat (length xs)) xs) == 0.
Proof.
  destruct xs as [|x xs]; [reflexivity|].
  rewrite py_sum_shift. field. apply qnat_pos_ne. discriminate.
Qed.

Lemma ssbn_nonneg gs : 0 <= fst (f_oneway_ss gs).
Proof.
  unfold f_oneway_ss. simpl fst. unfold square_of_sums at 2.
  rewrite py_sum_shift_mean.
  match goal with |- 0 <= ?s - 0 * 0 / ?n =>
    setoid_replace (s - 0 * 0 / n) with s by (unfold Qdiv; ring) end.
  apply py_sum_nonneg. intros g.
  apply Qdiv_nonneg; [apply Qsquare_nonneg | apply qnat_nonneg].
Qed.

Lemma anova_F_nonneg_of gs f : anova_F gs = FFin f -> 0 <= f.
Proof.
  unfold anova_F. destruct (f_oneway_too_small gs); [discriminate|]. pose proof (ssbn_nonneg gs) as Hb.
  pose proof (sswn_eq_reference gs) as Hw.
  destruct (f_oneway_ss gs) as [ssbn sswn]. simpl in Hb, Hw.
  destruct (_ || _); [destruct (Qeq_bool ssbn 0); discriminate|].
  intros H. injection H as <-.
  apply Qdiv_nonneg; apply Qdiv_nonneg; try apply qnat_nonneg; [exact Hb|].
  rewrite Hw. apply py_sum_nonneg. intros g. apply sum_sq_dev_nonneg.
Qed.

Lemma square_of_sums_shift c g :
  square_of_sums (map (fun x => x - c) g) / qnat (length g) ==
  qnat (length g) * ((py_sum g / qnat (length g) - c) * (py_sum g / qnat (length g) - c)).
Proof.
  destruct g as [|x g]; [reflexivity|].
  unfold square_of_sums. rewrite py_sum_shift. field. apply qnat_pos_ne. discriminate.
Qed.

Lemma ssbn_eq_reference gs : fst (f_oneway_ss gs) == ssb_reference gs.
Proof.
  unfold f_oneway_ss, ssb_reference. simpl fst. unfold square_of_sums at 2.
  rewrite py_sum_shift_mean.
  match goal with |- ?s - 0 * 0 / ?n == _ =>
    setoid_replace (s - 0 * 0 / n) with s by (unfold Qdiv; ring) end.
  apply py_sum_map_ext. intros g _. apply square_of_sums_shift.
Qed.

(** Non-empty groups with more values than groups are not too small. *)
Lemma f_oneway_too_small_false gs :
  (forall g, In g gs -> g <> []) -> (length gs < length (List.concat gs))%nat ->
  f_oneway_too_small gs = false.
Proof.
  intros Hne Hlt. unfold f_oneway_too_small. apply orb_false_iff. split.
  - apply not_true_iff_false. intros E. apply existsb_exists in E as (g & Hg & E).
    apply Nat.eqb_eq, length_zero_iff_nil in E. exact (Hne g Hg E).
  - apply not_true_iff_false. intros E. rewrite forallb_forall in E.
    assert (Hc : length (List.concat gs) = length gs).
    { clear Hlt Hne. induction gs as [|g gs IH]; [reflexivity|].
      simpl. rewrite length_app, IH by (intros; apply E; right; assumption).
      rewrite (proj1 (Nat.eqb_eq _ _) (E g (or_introl eq_refl))). reflexivity. }
    lia.
Qed.

(** ** Theorems *)

(** C15. scipy's [f_oneway] computes its two sums of squares from the
    data shifted by the grand mean, with the within-group sum obtained as
    [sstot - ssbn].  Both are the textbook sums (between: group sizes
    times squared distances of group means from the grand mean; within:
    squared deviations from each group's mean), hence non-negative. *)
Theorem f_oneway_textbook gs :
  fst (f_oneway_ss gs) == ssb_reference gs /\ snd (f_oneway_ss gs) == ssw_reference gs /\
  0 <= fst (f_oneway_ss gs) /\ 0 <= snd (f_oneway_ss gs).
Proof.
  split; [apply ssbn_eq_reference|]. split; [apply sswn_eq_reference|].
  split; [apply ssbn_nonneg|]. rewrite sswn_eq_reference.
  apply py_sum_nonneg. intros g. apply sum_sq_dev_nonneg.
Qed.

(** When the product ANOVA of lines 105-109 yields a finite
    F statistic, it is non-negative. *)
Theorem product_test_F_nonneg key target f :
  product_test key target = Ok (Some (FFin f)) -> 0 <= f.
Proof.
  unfold product_test. intros H. inv_result.
  destruct (Nat.ltb 1 (length a)); [|discriminate].
  injection H as H. apply (anova_F_nonneg_of a f H).
Qed.

Section FTheorems.
Context `{FD : FDist}.

(** C27. Product groups (non-empty, as [groupby] makes them) with equal
    means and some spread within them give [F = 0] and the p-value 1
    printed at line 109: the ANOVA does not reject when the products do
    not differ on average. *)
Theorem anova_equal_means gs :
  (forall g, In g gs -> g <> []) ->
  (length gs < length (List.concat gs))%nat ->
  ssb_reference gs == 0 -> ~ ssw_reference gs == 0 ->
  anova_pvalue gs = PFin 1%R.
Proof.
  intros Hne Hdf Hb Hw. unfold anova_pvalue, anova_F.
  rewrite (f_oneway_too_small_false gs Hne Hdf).
  pose proof (ssbn_eq_reference gs) as Eb. pose proof (sswn_eq_reference gs) as Ew.
  destruct (f_oneway_ss gs) as [ssbn sswn]. simpl in Eb, Ew.
  rewrite (Qeq_bool_false (qnat _) 0), (Qeq_bool_false sswn 0); cbn [orb].
  - simpl. f_equal. rewrite (Qeq_eqR _ 0), RMicromega.Q2R_0 by (rewrite Eb, Hb; unfold Qdiv; ring).
    apply f_sf_zero.
  - rewrite Ew. exact Hw.
  - intros E. assert (Hle : qnat (length (List.concat gs) - length gs) <= qnat 0)
      by (rewrite E; apply Qle_refl).
    apply qnat_le in Hle. lia.
Qed.

End FTheorems.

End Anova.

(** Witness: three products with sales [1, 2 | 4, 6 | 9]. *)
Definition product_key : column :=
  [VStr (kw "a"); VStr (kw "b"); VStr (kw "a"); VStr (kw "c"); VStr (kw "b")].
Definition product_sales : column := [VNum 1; VNum 4; VNum 2; VNum 9; VNum 6].

Lemma product_test_F_nonneg_witness :
  exists f, Anova.product_test product_key product_sales = Ok (Some (Anova.FFin f)) /\
    (f == 387 # 25)%Q /\ (0 <= f)%Q.
Proof.
  eexists. split; [cbv; reflexivity|]. split; [vm_compute; reflexivity|].
  apply (Anova.product_test_F_nonneg product_key product_sales). vm_compute. reflexivity.
Defined.

(** Witness: two products with sales [1, 3] and [2, 2], both of mean 2. *)
Definition equal_mean_groups : list (list Q) := [[1; 3]; [2; 2]]%Q.

Lemma anova_equal_means_witness :
  (forall g, In g equal_mean_groups -> g <> []) /\
  (length equal_mean_groups < length (List.concat equal_mean_groups))%nat /\
  (Anova.ssb_reference equal_mean_groups == 0)%Q /\ ~ (Anova.ssw_reference equal_mean_groups == 0)%Q /\
  Anova.anova_pvalue (FD := toy_fdist) equal_mean_groups = PFin 1%R.
Proof.
  assert (H1 : (length equal_mean_groups < length (List.concat equal_mean_groups))%nat)
    by (vm_compute; lia).
  assert (H2 : (Anova.ssb_reference equal_mean_groups == 0)%Q) by (vm_compute; reflexivity).
  assert (H3 : ~ (Anova.ssw_reference equal_mean_groups == 0)%Q) by (intros E; vm_compute in E; discriminate).
  assert (H0 : forall g, In g equal_mean_groups -> g <> [])
    by (intros g [<-|[<-|[]]]; discriminate).
  split; [exact H0|]. split; [exact H1|]. split; [exact H2|]. split; [exact H3|].
  apply (@Anova.anova_equal_means toy_fdist equal_mean_groups H0 H1 H2 H3).
Defined.

Module Ttest.

Local Open Scope Q_scope.
Local Open Scope bizstat_scope.

(** [_equal_var_ttest_denom]: the ddof = 1 variance of a group, set to
    0 for a group of one value ([np.where(n == 1, 0, v)]: the pooled
    variance only needs its sum of squared deviations, which is 0). *)
Definition ttest_var (g : list Q) : option Q :=
  if (length g =? 1)%nat then Some 0 else var g.

Section WithTDist.
Context `{TD : TDist}.

(** [scipy.stats.ttest_ind(g1, g2)] with [equal_var=True]: the pooled
    variance [((n1-1) v1 + (n2-1) v2) / df] over [df = n1 + n2 - 2]
    degrees of freedom (NaN when [df = 0], i.e. two groups of one
    value: [0/0]), [denom = sqrt(svar (1/n1 + 1/n2))] and
    [t = (mean1 - mean2) / denom]; NaN when a group is empty. *)
Definition two_sample_t (g1 g2 : list Q) : tstat :=
  match mean g1, mean g2, ttest_var g1, ttest_var g2 with
  | Some m1, Some m2, Some v1, Some v2 =>
      let df := (length g1 + length g2 - 2)%nat in
      if (df =? 0)%nat then TNaN
      else
        let n1 := qnat (length g1) in
        let n2 := qnat (length g2) in
        let svar := ((n1 - 1) * v1 + (n2 - 1) * v2) / qnat df in
        t_div (m1 - m2) (svar * (1 / n1 + 1 / n2))
  | _, _, _, _ => TNaN
  end.

(** Line 101: the p-value [p_val_2]. *)
Definition p_val_2 (g1 g2 : list Q) : pval :=
  pvalue_two_sided (length g1 + length g2 - 2) (two_sample_t g1 g2).

(** Lines 97-102: the sales of the first two regions met in row order;
    [None] when the region column has fewer than two values. *)
Definition region_test (key target : column) : result (option pval) :=
  match py_unique key with
  | r0 :: r1 :: _ =>
      g1 <- numeric_values (rows_where key target r0) ;;
      g2 <- numeric_values (rows_where key target r1) ;;
      Ok (Some (p_val_2 g1 g2))
  | _ => Ok None
  end.

End WithTDist.

(** The textbook sum of squared deviations of a group from its mean. *)
Definition ss_mean (g : list Q) : Q := sum_sq_dev g (py_sum g / qnat (length g)).

(** ** Lemmas *)

Lemma mean_some g : g <> [] -> mean g = Some (py_sum g / qnat (length g)).
Proof. destruct g; [contradiction | reflexivity]. Qed.

(** scipy's [(n - 1) v] is the group's sum of squared deviations, one-value
    groups included. *)
Lemma ttest_var_ss g :
  g <> [] -> exists v, ttest_var g = Some v /\ (qnat (length g) - 1) * v == ss_mean g.
Proof.
  intros Hne. unfold ttest_var, ss_mean, sum_sq_dev. destruct g as [|a [|b g]]; [contradiction| |].
  - exists 0. split; [reflexivity|]. unfold py_sum, qnat. simpl. field.
  - exists (sum_sq_dev (a :: b :: g) (py_sum (a :: b :: g) / qnat (length (a :: b :: g)))
            / qnat (S (length g))).
    split; [reflexivity|]. unfold sum_sq_dev.
    assert (E : qnat (length (a :: b :: g)) == qnat (S (length g)) + 1)
      by (replace (length (a :: b :: g)) with (S (length g) + 1)%nat by (simpl; lia);
          rewrite qnat_add, qnat_1; reflexivity).
    rewrite E. field. apply Qnot_eq_sym, Qlt_not_eq, qnat_pos. lia.
Qed.

Lemma t_div_compat d d' s s' : d == d' -> s == s' -> t_div d s = t_div d' s'.
Proof.
  intros Hd Hs. unfold t_div.
  rewrite (Qeq_bool_morph s s' Hs), (Qeq_bool_morph d d' Hd), (Qeq_eqR d d' Hd), (Qeq_eqR s s' Hs).
  replace (Qle_bool d 0) with (Qle_bool d' 0); [reflexivity|].
  apply Bool.eq_true_iff_eq. rewrite !Qle_bool_iff, Hd. reflexivity.
Qed.

Lemma t_div_nan d s : t_div d s = TNaN <-> s == 0 /\ d == 0.
Proof.
  unfold t_div. destruct (Qeq_bool s 0) eqn:Es.
  - apply Qeq_bool_iff in Es. destruct (Qeq_bool d 0) eqn:Ed.
    + apply Qeq_bool_iff in Ed. tauto.
    + apply Qeq_bool_neq in Ed. destruct (Qle_bool d 0); split; try discriminate; tauto.
  - apply Qeq_bool_neq in Es. split; [discriminate | tauto].
Qed.

Lemma pvalue_nan_iff `{TDist} df t : df <> 0%nat -> (pvalue_two_sided df t = PNaN <-> t = TNaN).
Proof. intros Hdf. destruct t; simpl; destruct (Nat.eqb_spec df 0); try contradiction; split; congruence. Qed.

(** Student's statistic over the textbook pooled variance. *)
Lemma two_sample_t_pooled g1 g2 :
  g1 <> [] -> g2 <> [] -> (3 <= length g1 + length g2)%nat ->
  two_sample_t g1 g2 =
  t_div (py_sum g1 / qnat (length g1) - py_sum g2 / qnat (length g2))
        ((ss_mean g1 + ss_mean g2) / qnat (length g1 + length g2 - 2)
         * (1 / qnat (length g1) + 1 / qnat (length g2))).
Proof.
  intros H1 H2 Hn. destruct (ttest_var_ss g1 H1) as (v1 & E1 & S1).
  destruct (ttest_var_ss g2 H2) as (v2 & E2 & S2).
  unfold two_sample_t. rewrite E1, E2, (mean_some g1 H1), (mean_some g2 H2).
  destruct (Nat.eqb_spec (length g1 + length g2 - 2) 0); [lia|].
  apply t_div_compat; [reflexivity|]. rewrite <- S1, <- S2. reflexivity.
Qed.

(** A product [A / D * B] with [D, B > 0] is zero exactly when [A] is. *)
Lemma div_mult_zero A D B : 0 < D -> 0 < B -> (A / D * B == 0 <-> A == 0).
Proof.
  intros HD HB. split.
  - intros H. apply Qmult_integral in H as [H|H]; [|Lqa.lra]. apply div_pos_zero in H; [exact H | exact HD].
  - intros H. rewrite H. unfold Qdiv. ring.
Qed.

Lemma inv_qnat_pos (g : list Q) : g <> [] -> 0 < 1 / qnat (length g).
Proof.
  intros H. apply Qlt_shift_div_l; [apply qnat_pos; destruct g; [contradiction | simpl; lia] | Lqa.lra].
Qed.

(** Two non-empty groups are constant with equal means exactly when all
    their values are equal. *)
Lemma constant_groups_iff (g1 g2 : list Q) :
  g1 <> [] -> g2 <> [] ->
  ((forall x, In x g1 -> x == py_sum g1 / qnat (length g1)) /\
   (forall x, In x g2 -> x == py_sum g2 / qnat (length g2)) /\
   py_sum g1 / qnat (length g1) - py_sum g2 / qnat (length g2) == 0) <->
  (forall x y, In x (g1 ++ g2) -> In y (g1 ++ g2) -> x == y).
Proof.
  intros H1 H2. split.
  - intros (C1 & C2 & D) x y Hx Hy.
    assert (A : forall z, In z (g1 ++ g2) -> z == py_sum g1 / qnat (length g1)).
    { intros z Hz. apply in_app_or in Hz as [Hz|Hz]; [apply C1, Hz|]. rewrite (C2 z Hz). Lqa.lra. }
    rewrite (A x Hx), (A y Hy). reflexivity.
  - intros Hall. destruct g1 as [|a g1']; [contradiction|]. destruct g2 as [|b g2']; [contradiction|].
    assert (Ea : py_sum (a :: g1') / qnat (length (a :: g1')) == a)
      by (apply py_sum_mean_const; [exact H1 | intros x Hx; apply Hall; apply in_or_app; simpl in *; tauto]).
    assert (Eb : py_sum (b :: g2') / qnat (length (b :: g2')) == a)
      by (apply py_sum_mean_const; [exact H2 | intros x Hx; apply Hall; apply in_or_app; simpl in *; tauto]).
    split; [intros x Hx; rewrite Ea | split; [intros x Hx; rewrite Eb | rewrite Ea, Eb; ring]];
      apply Hall; apply in_or_app; simpl in *; tauto.
Qed.

(** The two-sided p-value of two non-empty groups is NaN exactly when
    both have one value or all the values are equal. *)
Lemma p_val_2_nan_iff `{TDist} g1 g2 :
  g1 <> [] -> g2 <> [] ->
  (p_val_2 g1 g2 = PNaN <->
   (length g1 = 1 /\ length g2 = 1)%nat \/ (forall x y, In x (g1 ++ g2) -> In y (g1 ++ g2) -> x == y)).
Proof.
  intros H1 H2. assert (L1 : (1 <= length g1)%nat) by (destruct g1; [contradiction | simpl; lia]).
  assert (L2 : (1 <= length g2)%nat) by (destruct g2; [contradiction | simpl; lia]).
  unfold p_val_2. destruct (Nat.eq_dec (length g1 + length g2 - 2) 0) as [H0|H0].
  - destruct (ttest_var_ss g1 H1) as (v1 & E1 & _). destruct (ttest_var_ss g2 H2) as (v2 & E2 & _).
    unfold two_sample_t. rewrite E1, E2, (mean_some g1 H1), (mean_some g2 H2).
    rewrite (proj2 (Nat.eqb_eq _ _) H0). simpl. split; [intros _; left; lia | reflexivity].
  - rewrite (pvalue_nan_iff _ _ H0), (two_sample_t_pooled g1 g2 H1 H2) by lia.
    assert (PD : 0 < qnat (length g1 + length g2 - 2)) by (apply qnat_pos; lia).
    assert (PB : 0 < 1 / qnat (length g1) + 1 / qnat (length g2))
      by (pose proof (inv_qnat_pos g1 H1); pose proof (inv_qnat_pos g2 H2); Lqa.lra).
    rewrite t_div_nan, (div_mult_zero _ _ _ PD PB), <- (constant_groups_iff g1 g2 H1 H2).
    unfold ss_mean. rewrite <- !sum_sq_dev_zero_iff.
    pose proof (sum_sq_dev_nonneg g1 (py_sum g1 / qnat (length g1))).
    pose proof (sum_sq_dev_nonneg g2 (py_sum g2 / qnat (length g2))).
    split.
    + intros [S D]. right. split; [|split; [|exact D]]; Lqa.lra.
    + intros [[E E']|(S1 & S2 & D)]; [lia|]. split; [rewrite S1, S2; reflexivity | exact D].
Qed.

(** ** Theorems *)

Section Theorems.
Context `{TD : TDist}.

(** C16. scipy's pooled two-sample statistic of line 101 is Student's
    textbook statistic: the difference of the group means over
    [sqrt(s2 (1/n1 + 1/n2))], where [s2] is the sum of the two groups'
    squared deviations from their means over [n1 + n2 - 2].  This holds
    also when a group has a single value, whose variance scipy sets to
    0 before pooling. *)
Theorem ttest_pooled_textbook g1 g2 :
  g1 <> [] -> g2 <> [] -> (3 <= length g1 + length g2)%nat ->
  two_sample_t g1 g2 =
  t_div (py_sum g1 / qnat (length g1) - py_sum g2 / qnat (length g2))
        ((ss_mean g1 + ss_mean g2) / qnat (length g1 + length g2 - 2)
         * (1 / qnat (length g1) + 1 / qnat (length g2))).
Proof. apply two_sample_t_pooled. Qed.

(** C17. The region test of lines 96-102 prints [p_val_2] of the sales
    of the first two regions, and that p-value is NaN exactly when both
    regions have a single row or all their sales are equal; a region of
    one row next to a region of several rows gets a number. *)
Theorem region_test_nan_iff key target r0 r1 rest g1 g2 :
  length key = length target -> py_unique key = r0 :: r1 :: rest ->
  numeric_values (rows_where key target r0) = Ok g1 ->
  numeric_values (rows_where key target r1) = Ok g2 ->
  region_test key target = Ok (Some (p_val_2 g1 g2)) /\
  (p_val_2 g1 g2 = PNaN <->
   (length g1 = 1 /\ length g2 = 1)%nat \/
   (forall x y, In x (g1 ++ g2) -> In y (g1 ++ g2) -> x == y)).
Proof.
  intros Hl Hu G1 G2. split; [unfold region_test; rewrite Hu, G1, G2; reflexivity|].
  assert (Hin : forall r, In r (r0 :: r1 :: rest) -> In r key)
    by (intros r Hr; rewrite <- Hu in Hr; apply (unique_from_incl [] key r Hr)).
  apply p_val_2_nan_iff; intros E.
  - apply numeric_values_length in G1. rewrite E in G1.
    apply (rows_where_nonempty key target r0 Hl (Hin r0 (or_introl eq_refl))).
    destruct (rows_where key target r0); [reflexivity | discriminate].
  - apply numeric_values_length in G2. rewrite E in G2.
    apply (rows_where_nonempty key target r1 Hl (Hin r1 (or_intror (or_introl eq_refl)))).
    destruct (rows_where key target r1); [reflexivity | discriminate].
Qed.

End Theorems.

(** A region column [N, S, N]: one row in [S], two in [N]. *)
Definition region_key : column :=
  [VStr (kw "N"); VStr (kw "S"); VStr (kw "N")].
Definition region_sales : column := [VNum 10; VNum 500; VNum 12].

Lemma ttest_pooled_textbook_witness :
  [10; 12] <> [] /\ [500] <> [] /\ (3 <= length [10; 12] + length [500])%nat /\
  two_sample_t [10; 12] [500] =
  t_div (py_sum [10; 12] / qnat (length [10; 12]) - py_sum [500] / qnat (length [500]))
        ((ss_mean [10; 12] + ss_mean [500]) / qnat (length [10; 12] + length [500] - 2)
         * (1 / qnat (length [10; 12]) + 1 / qnat (length [500]))).
Proof.
  assert (H1 : [10; 12] <> []) by discriminate. assert (H2 : [500] <> []) by discriminate.
  assert (H3 : (3 <= length [10; 12] + length [500])%nat) by (simpl; lia).
  split; [exact H1|]. split; [exact H2|]. split; [exact H3|].
  apply (ttest_pooled_textbook [10; 12] [500] H1 H2 H3).
Defined.

(** The example of the [N, S, N] column: a number, not NaN. *)
Lemma region_test_nan_iff_witness :
  length region_key = length region_sales /\
  py_unique region_key = [VStr (kw "N"); VStr (kw "S")] /\
  numeric_values (rows_where region_key region_sales (VStr (kw "N"))) = Ok [10; 12] /\
  numeric_values (rows_where region_key region_sales (VStr (kw "S"))) = Ok [500] /\
  (region_test (TD := toy_tdist) region_key region_sales = Ok (Some (p_val_2 [10; 12] [500])) /\
   (p_val_2 (TD := toy_tdist) [10; 12] [500] = PNaN <->
    (length [10; 12] = 1 /\ length [500] = 1)%nat \/
    (forall x y, In x ([10; 12] ++ [500]) -> In y ([10; 12] ++ [500]) -> x == y))).
Proof.
  assert (H1 : length region_key = length region_sales) by reflexivity.
  assert (H2 : py_unique region_key = [VStr (kw "N"); VStr (kw "S")]) by (vm_compute; reflexivity).
  assert (H3 : numeric_values (rows_where region_key region_sales (VStr (kw "N"))) = Ok [10; 12])
    by (vm_compute; reflexivity).
  assert (H4 : numeric_values (rows_where region_key region_sales (VStr (kw "S"))) = Ok [500])
    by (vm_compute; reflexivity).
  do 4 (split; [assumption|]).
  apply (@region_test_nan_iff toy_tdist region_key region_sales _ _ [] [10; 12] [500] H1 H2 H3 H4).
Defined.

End Ttest.
