(* ===== verification/Pipeline.v ===== *)
(** * The whole script as a run (lines 17-134)

    [run raw] executes the script on a table whose raw header row and
    columns are [raw] (what [pd.read_csv] returns, line 17).  The effects
    of the script are its printed lines and the exception that stops it:
    a run is the monad [W] of a log of printed [line]s paired with a
    [result].  [wbind] appends the logs and stops at the first exception,
    so a failing run keeps everything printed before the failure, as the
    console does.

    The steps follow the script's sections: [load] (lines 20-23),
    [detect] (lines 29-45), [sales_stats] (lines 50-62), [shapiro]
    (lines 73-74, the p-value of [Shapiro.shapiro_test]), [correlation] (lines 79-81), [hypothesis_tests] (lines
    92-109), [interval] (lines 114-122) and [report] (lines 127-134).
    Printed numbers are kept as the values the script formats ([Q] for
    the sales statistics, [R] for the interval, [pval] and [fstat] for
    the tests); the formatting itself ([:.2f], [:.0f]) and the plots are
    not modelled.  [run_file] is line 17 on the text of the file
    ([Csv.read_csv]) followed by [run]. *)

From Stdlib Require Import String QArith Reals Qreals Lra Bool List Lia.
From S2P Require Import Prelude Text Columns Describe Inference Shapiro Frame Csv Correlation Tests.
Import ListNotations.
Import Detect.
Import Stats.
Import Frame.

Module Pipeline.

(** ** The log *)

(** The lines printed by the script, in the order of its [print] calls.
    The headers are the fixed strings; a line with data holds the value
    the script formats. *)
Inductive line : Type :=
| LColumnsHeader                     (* line 22 *)
| LColumns (cols : list pystr)       (* line 23: df.columns *)
| LDetectedHeader                    (* line 42 *)
| LSales (c : pystr)                 (* line 43 *)
| LRegion (c : option pystr)         (* line 44 *)
| LProduct (c : option pystr)        (* line 45 *)
| LDescribeHeader                    (* line 50 *)
| LDescribe (s : summary) (sd : option R)  (* line 51, a numeric column *)
| LDescribeObject (count uniq : nat) (* line 51, a text column *)
| LDescribeFrame (ncols : nat)       (* line 51, a duplicated name *)
| LSummaryHeader                     (* line 58 *)
| LMean (m : option Q)               (* line 59 *)
| LMedian (m : option Q)             (* line 60 *)
| LMode (m : Q)                      (* line 61 *)
| LStd (s : option R)                (* line 62 *)
| LShapiro (p : option R)            (* line 74: shapiro_test.pvalue, None for nan *)
| LCorrHeader                        (* line 80 *)
| LCorr (cols : list pystr) (m : list (list (option R)))  (* line 81 *)
| LPval1 (p : pval)                  (* line 93 *)
| LPval2 (p : pval)                  (* line 102 *)
| LAnova (p : pval)                  (* line 109 *)
| LIntervalHeader                    (* line 121 *)
| LInterval (m : option Q) (me : option R)  (* line 122 *)
| LReportHeader                      (* line 127 *)
| LMeanSales (m : option Q)          (* line 128 *)
| LCIMargin (me : option R)          (* line 129 *)
| LVerdict (significant : bool).     (* line 132 or 134 *)

(** ** The run monad: a log and a result *)

Record W (A : Type) : Type := mk_out { out_log : list line; out_res : result A }.
Arguments mk_out {A} out_log out_res.
Arguments out_log {A} w.
Arguments out_res {A} w.

Definition wret {A} (a : A) : W A := mk_out [] (Ok a).

Definition wbind {A B} (m : W A) (k : A -> W B) : W B :=
  match out_res m with
  | Ok a => let r := k a in mk_out (out_log m ++ out_log r) (out_res r)
  | Raise e => mk_out (out_log m) (Raise e)
  end.

(** [print(...)]. *)
Definition emit (l : line) : W unit := mk_out [l] (Ok tt).

(** A computation of the script that prints nothing and may raise. *)
Definition lift {A} (r : result A) : W A := mk_out [] r.

Declare Scope run_scope.
Delimit Scope run_scope with run.
Notation "x <~ m ;; k" := (wbind m (fun x => k))
  (at level 61, m at next level, right associativity) : run_scope.
Notation "m ;;; k" := (wbind m (fun _ : unit => k))
  (at level 61, right associativity) : run_scope.
Local Open Scope run_scope.

(** ** The steps of the script *)

(** Line 20: the header row normalised, the columns unchanged. *)
Definition normalize_frame (raw : frame) : frame :=
  map (fun nc => (normalize_name (fst nc), snd nc)) raw.

Definition names (df : frame) : list pystr := map fst df.

(** Lines 20-23. *)
Definition load (raw : frame) : W frame :=
  let df := normalize_frame raw in
  emit LColumnsHeader ;;; emit (LColumns (names df)) ;;; wret df.

(** Lines 29-45: the detection, then the three printed names. *)
Definition detect (df : frame) : W detected :=
  d <~ lift (detect_columns (names df)) ;;
  emit LDetectedHeader ;;; emit (LSales (sales_col d)) ;;;
  emit (LRegion (region_col d)) ;;; emit (LProduct (product_col d)) ;;; wret d.

(** Lines 50-62 on [df[sales_col]] (pandas 2.x).  A text column is
    described as an object column (count, unique, top, freq) and
    [mean()] raises [TypeError]; a column without rows is of object
    dtype too: it is described with count 0 and unique 0, [mean()] and
    [median()] are NaN, and [mode()[0]] raises [KeyError] (the mode is
    an empty series).  A duplicated name selects a frame, described
    column by column, on which [mean()] raises [TypeError] when a column
    holds text and otherwise [mode()[0]] looks up a column labelled [0]
    and raises [KeyError].  The result is the sales column and its
    values. *)
Definition sales_stats (df : frame) (s : pystr) : W (column * list Q) :=
  emit LDescribeHeader ;;;
  match col_lookup df s with
  | [col] =>
      match numeric_values col with
      | Ok [] => emit (LDescribeObject 0 0) ;;; lift (Raise PyKeyError)
      | Ok xs =>
          emit (LDescribe (describe xs) (std xs)) ;;;
          md <~ lift (mode0 xs) ;;
          emit LSummaryHeader ;;; emit (LMean (mean xs)) ;;; emit (LMedian (median xs)) ;;;
          emit (LMode md) ;;; emit (LStd (std xs)) ;;; wret (col, xs)
      | Raise e =>
          emit (LDescribeObject (length col) (length (py_unique col))) ;;; lift (Raise e)
      end
  | [] => lift (Raise PyKeyError)
  | cols =>
      emit (LDescribeFrame (length cols)) ;;;
      lift (Raise (if existsb has_text cols then PyTypeError else PyKeyError))
  end.

(** Lines 79-81: the matrix over the numeric columns, with their names. *)
Definition correlation (df : frame) : W unit :=
  emit LCorrHeader ;;; emit (LCorr (names (select_numeric df)) (Corr.corr_matrix df)).

Section WithTDist.
Context `{TD : TDist} `{FD : FDist} `{ND : NormDist}.

(** Lines 73-74: [stats.shapiro] (NaN below three values) and the
    printed p-value. *)
Definition shapiro (xs : list Q) : W unit :=
  emit (LShapiro (option_map snd (Shapiro.shapiro_test xs))).

(** Lines 96-102: [df[region_col].unique()] on a duplicated name is an
    attribute lookup on a frame ([AttributeError]). *)
Definition region_step (df : frame) (d : detected) (scol : column) : W unit :=
  if py_truthy_name (region_col d) then
    match region_col d with
    | Some r =>
        match col_lookup df r with
        | [rc] =>
            o <~ lift (Ttest.region_test rc scol) ;;
            match o with Some p => emit (LPval2 p) | None => wret tt end
        | [] => lift (Raise PyKeyError)
        | _ => lift (Raise PyAttributeError)
        end
    | None => wret tt
    end
  else wret tt.

(** Lines 105-109: [df.groupby] on a duplicated name raises [ValueError]
    (the grouper is not one-dimensional). *)
Definition product_step (df : frame) (d : detected) (scol : column) : W unit :=
  if py_truthy_name (product_col d) then
    match product_col d with
    | Some p =>
        match col_lookup df p with
        | [pc] =>
            o <~ lift (Anova.product_pvalue pc scol) ;;
            match o with Some p => emit (LAnova p) | None => wret tt end
        | [] => lift (Raise PyKeyError)
        | _ => lift (Raise PyValueError)
        end
    | None => wret tt
    end
  else wret tt.


(** Lines 92-109. *)
Definition hypothesis_tests (df : frame) (d : detected) (scol : column) (xs : list Q) : W unit :=
  emit (LPval1 (p_val_1 xs)) ;;; region_step df d scol ;;; product_step df d scol.

(** Lines 114-122. *)
Definition interval (xs : list Q) : W unit :=
  emit LIntervalHeader ;;; emit (LInterval (mean xs) (margin_error xs)).

(** Lines 127-134. *)
Definition report (xs : list Q) : W unit :=
  emit LReportHeader ;;; emit (LMeanSales (mean xs)) ;;; emit (LCIMargin (margin_error xs)) ;;;
  emit (LVerdict (significant (p_val_1 xs))).

(** The script. *)
Definition run (raw : frame) : W unit :=
  df <~ load raw ;;
  d <~ detect df ;;
  cx <~ sales_stats df (sales_col d) ;;
  let '(scol, xs) := cx in
  shapiro xs ;;; correlation df ;;; hypothesis_tests df d scol xs ;;;
  interval xs ;;; report xs.

(** Line 17 and the script after it: [df = pd.read_csv(path)] on the
    text of the file, whose exception stops the run before any print;
    [None] for a file outside the reader's model. *)
Definition run_file (text : pystr) : option (W unit) :=
  match Csv.read_csv text with
  | Some r => Some (raw <~ lift r ;; run raw)
  | None => None
  end.

End WithTDist.

(** ** The run monad *)

Lemma wres_bind_Ok {A B} (m : W A) (k : A -> W B) a :
  out_res m = Ok a -> out_res (wbind m k) = out_res (k a).
Proof. unfold wbind. intros ->. reflexivity. Qed.

Lemma wres_bind_Raise {A B} (m : W A) (k : A -> W B) e :
  out_res m = Raise e -> out_res (wbind m k) = Raise e.
Proof. unfold wbind. intros ->. reflexivity. Qed.

Lemma wbind_Ok_eq {A B} (m : W A) (k : A -> W B) a :
  out_res m = Ok a -> wbind m k = mk_out (out_log m ++ out_log (k a)) (out_res (k a)).
Proof. unfold wbind. intros ->. reflexivity. Qed.

Lemma wbind_Raise_eq {A B} (m : W A) (k : A -> W B) e :
  out_res m = Raise e -> wbind m k = mk_out (out_log m) (Raise e).
Proof. unfold wbind. intros ->. reflexivity. Qed.

Lemma wbind_Ok_inv {A B} (m : W A) (k : A -> W B) b :
  out_res (wbind m k) = Ok b ->
  exists a, out_res m = Ok a /\ out_res (k a) = Ok b /\
    out_log (wbind m k) = out_log m ++ out_log (k a).
Proof. unfold wbind. destruct (out_res m) as [a|e]; simpl; [eauto | discriminate]. Qed.

(** Every printed line satisfies [P]. *)
Definition log_ok {A} (P : line -> Prop) (m : W A) : Prop := Forall P (out_log m).

Lemma log_ok_bind {A B} P (m : W A) (k : A -> W B) :
  log_ok P m -> (forall a, log_ok P (k a)) -> log_ok P (wbind m k).
Proof.
  unfold log_ok, wbind. intros Hm Hk. destruct (out_res m) as [a|e]; simpl; [|exact Hm].
  apply Forall_app. auto.
Qed.

Lemma log_ok_emit P l : P l -> log_ok P (emit l).
Proof. intros H. constructor; [exact H | constructor]. Qed.

Lemma log_ok_lift {A} P (r : result A) : log_ok P (lift r).
Proof. constructor. Qed.

Lemma log_ok_ret {A} P (a : A) : log_ok P (wret a).
Proof. constructor. Qed.

#[export] Hint Resolve log_ok_lift log_ok_ret : bizstat.

(** [log_ok] through the steps of a run: split the binds and the case
    analyses, and leave the printed lines. *)
Ltac log_ok_split :=
  repeat match goal with
  | |- log_ok _ (wbind _ _) => apply log_ok_bind; [|intros ?]
  | |- log_ok _ (emit _) => apply log_ok_emit
  | |- log_ok _ (lift _) => apply log_ok_lift
  | |- log_ok _ (wret _) => apply log_ok_ret
  | |- log_ok _ (match ?x with _ => _ end) => destruct x
  | |- log_ok _ (if ?x then _ else _) => destruct x
  end.

(** The run ends with [l] when it completes. *)
Definition ends_with {A} (l : line) (m : W A) : Prop :=
  forall a, out_res m = Ok a -> exists pre, out_log m = pre ++ [l].

Lemma ends_with_bind {A B} l (m : W A) (k : A -> W B) :
  (forall a, ends_with l (k a)) -> ends_with l (wbind m k).
Proof.
  intros Hk b Hb. destruct (wbind_Ok_inv m k b Hb) as (a & _ & Hka & ->).
  destruct (Hk a b Hka) as [pre ->]. exists (out_log m ++ pre). apply app_assoc.
Qed.

(** ** The steps *)

Lemma names_normalize raw : names (normalize_frame raw) = normalize_columns (names raw).
Proof. unfold names, normalize_frame, normalize_columns. rewrite !map_map. reflexivity. Qed.

Lemma numeric_values_text col t : In (VStr t) col -> numeric_values col = Raise PyTypeError.
Proof.
  induction col as [|[q|u] col IH]; simpl; intros Hin; [destruct Hin | | reflexivity].
  destruct Hin as [E|Hin]; [discriminate|]. rewrite (IH Hin). reflexivity.
Qed.

Lemma sales_stats_text df s col t :
  col_lookup df s = [col] -> In (VStr t) col ->
  sales_stats df s =
  mk_out [LDescribeHeader; LDescribeObject (length col) (length (py_unique col))] (Raise PyTypeError).
Proof. intros Hc Ht. unfold sales_stats. rewrite Hc, (numeric_values_text col t Ht). reflexivity. Qed.

Lemma load_res raw : out_res (load raw) = Ok (normalize_frame raw).
Proof. reflexivity. Qed.

Lemma detect_res df s :
  detect_sales (names df) = Ok s ->
  exists d, out_res (detect df) = Ok d /\ sales_col d = s.
Proof.
  intros H. unfold detect, detect_columns. rewrite H. eexists. split; reflexivity.
Qed.



Section Run.
Context `{TD : TDist} `{FD : FDist} `{ND : NormDist}.

(** The run up to the report: [sales_stats] and the steps after it, for
    a sales column that passes [sales_stats]. *)
Lemma sales_stats_res df s col xs :
  col_lookup df s = [col] -> numeric_values col = Ok xs -> xs <> [] ->
  out_res (sales_stats df s) = Ok (col, xs).
Proof.
  intros Hc Hn Hne. destruct (mode0_ok xs Hne) as [md Hmd].
  unfold sales_stats. rewrite Hc, Hn. destruct xs as [|x xs']; [contradiction|].
  cbn [wbind out_res out_log emit lift]. rewrite Hmd. reflexivity.
Qed.

Lemma run_res_detect raw s :
  detect_sales (normalize_columns (names raw)) = Ok s ->
  exists d, sales_col d = s /\
    out_res (run raw) = out_res (cx <~ sales_stats (normalize_frame raw) s ;;
                                  let '(scol, xs) := cx in
                                  shapiro xs ;;; correlation (normalize_frame raw) ;;;
                                  hypothesis_tests (normalize_frame raw) d scol xs ;;;
                                  interval xs ;;; report xs).
Proof.
  intros Hs. rewrite <- names_normalize in Hs.
  destruct (detect_res _ _ Hs) as (d & Hd & <-). exists d. split; [reflexivity|].
  unfold run. rewrite (wres_bind_Ok _ _ _ (load_res raw)), (wres_bind_Ok _ _ _ Hd). reflexivity.
Qed.

(** Every run that completes ends with the verdict "not significant". *)
Lemma run_ends_with_verdict raw : ends_with (LVerdict false) (run raw).
Proof.
  apply (ends_with_bind (LVerdict false)). intros df.
  apply ends_with_bind. intros d. apply ends_with_bind. intros [scol xs].
  do 4 (apply ends_with_bind; intros _).
  intros [] _. unfold report. rewrite p_val_1_not_significant.
  exists [LReportHeader; LMeanSales (mean xs); LCIMargin (margin_error xs)]. reflexivity.
Qed.

Lemma detect_ok df d : detect_columns (names df) = Ok d -> out_res (detect df) = Ok d.
Proof. intros H. unfold detect. rewrite H. reflexivity. Qed.

(** The line printed at line 74 is a probability or [nan]. *)
Lemma shapiro_prints_pvalue xs :
  exists p, out_log (shapiro xs) = [LShapiro p] /\ forall r, p = Some r -> (0 <= r <= 1)%R.
Proof.
  exists (option_map snd (Shapiro.shapiro_test xs)). split; [reflexivity|].
  intros r Hr. destruct (Shapiro.shapiro_test xs) as [[w p]|] eqn:E; [|discriminate].
  injection Hr as <-. apply (Shapiro.shapiro_test_range xs w p E).
Qed.

(** The region test runs when the region name selects one column. *)
Lemma region_step_ok df d scol xs :
  numeric_values scol = Ok xs ->
  (forall r, region_col d = Some r -> exists rc, col_lookup df r = [rc]) ->
  out_res (region_step df d scol) = Ok tt.
Proof.
  intros Hn Hr. unfold region_step. destruct (py_truthy_name (region_col d)); [|reflexivity].
  destruct (region_col d) as [r|]; [|reflexivity].
  destruct (Hr r eq_refl) as [rc ->]. unfold Ttest.region_test.
  destruct (py_unique rc) as [|r0 [|r1 rest]]; [reflexivity | reflexivity |].
  destruct (numeric_values_rows rc scol xs r0 Hn) as [g1 ->].
  destruct (numeric_values_rows rc scol xs r1 Hn) as [g2 ->]. reflexivity.
Qed.

(** The ANOVA runs when the product name selects one column of keys of
    one kind. *)
Lemma product_step_ok df d scol xs :
  numeric_values scol = Ok xs ->
  (forall p, product_col d = Some p -> exists pc, col_lookup df p = [pc] /\ same_kind pc = true) ->
  out_res (product_step df d scol) = Ok tt.
Proof.
  intros Hn Hp. unfold product_step. destruct (py_truthy_name (product_col d)); [|reflexivity].
  destruct (product_col d) as [p|]; [|reflexivity].
  destruct (Hp p eq_refl) as (pc & -> & Hk).
  unfold Anova.product_pvalue, Anova.product_groups, groupby_values, group_keys. rewrite Hk.
  destruct (all_numeric_ok (map (rows_where pc scol) (ValueSort.sort (py_unique pc)))) as [vs Hvs].
  { intros g Hg. apply in_map_iff in Hg as (k & <- & _). exact (numeric_values_rows pc scol xs k Hn). }
  simpl. rewrite Hvs. simpl. destruct (Nat.ltb 1 (length vs)); reflexivity.
Qed.

(** A line printed by a step is printed by the run. *)
Lemma in_log_bind_l {A B} l (m : W A) (k : A -> W B) :
  In l (out_log m) -> In l (out_log (wbind m k)).
Proof. unfold wbind. destruct (out_res m); simpl; intros H; [apply in_or_app; left|]; exact H. Qed.

Lemma in_log_bind_r {A B} l (m : W A) (k : A -> W B) a :
  out_res m = Ok a -> In l (out_log (k a)) -> In l (out_log (wbind m k)).
Proof. intros E H. rewrite (wbind_Ok_eq m k a E). simpl. apply in_or_app. right. exact H. Qed.

(** No step raises on a well-formed table with a non-empty numeric
    sales column. *)
Lemma run_ok raw d col xs :
  detect_columns (names (normalize_frame raw)) = Ok d ->
  col_lookup (normalize_frame raw) (sales_col d) = [col] -> numeric_values col = Ok xs ->
  xs <> [] ->
  (forall r, region_col d = Some r -> exists rc, col_lookup (normalize_frame raw) r = [rc]) ->
  (forall p, product_col d = Some p ->
     exists pc, col_lookup (normalize_frame raw) p = [pc] /\ same_kind pc = true) ->
  out_res (run raw) = Ok tt.
Proof.
  intros Hd Hc Hn Hne Hr Hp.
  unfold run. rewrite (wres_bind_Ok _ _ _ (load_res raw)), (wres_bind_Ok _ _ _ (detect_ok _ _ Hd)),
    (wres_bind_Ok _ _ _ (sales_stats_res _ _ _ _ Hc Hn Hne)).
  rewrite (wres_bind_Ok (shapiro xs) _ tt), (wres_bind_Ok (correlation _) _ tt) by reflexivity.
  unfold hypothesis_tests.
  rewrite (wres_bind_Ok (wbind _ _) _ tt); [reflexivity|].
  rewrite (wres_bind_Ok (emit _) _ tt), (wres_bind_Ok _ _ _ (region_step_ok _ _ _ _ Hn Hr)) by reflexivity.
  apply (product_step_ok _ _ _ _ Hn Hp).
Qed.

(** ** Theorems *)

(** C18. Line 31 is fatal: when no raw header contains "sale" or
    "revenue" (in lower case), the script prints the column list of
    lines 22-23 and nothing more, and stops with
    [Exception("No sales column found in dataset.")]. *)
Theorem run_no_sales raw :
  (forall c, In c (names raw) -> matches_any sales_keywords (py_lower c) = false) ->
  run raw = mk_out [LColumnsHeader; LColumns (normalize_columns (names raw))]
                   (Raise (PyException no_sales_msg)).
Proof.
  intros H. unfold run, load, detect, detect_columns, detect_sales, candidates.
  cbn [wbind emit wret out_res out_log app]. rewrite !names_normalize.
  assert (E : filter (matches_any sales_keywords) (normalize_columns (names raw)) = []).
  { apply filter_nil_iff. intros c Hc. unfold normalize_columns in Hc.
    apply in_map_iff in Hc as (r & <- & Hr).
    rewrite matches_any_normalize by apply keywords_plain. apply H, Hr. }
  rewrite E. reflexivity.
Qed.

(** C19. The verdict of lines 131-134 never says "statistically
    significant": no run prints it, and every run that completes ends
    with "Sales are not statistically significant.". *)
Theorem run_never_significant raw :
  ~ In (LVerdict true) (out_log (run raw)) /\
  (out_res (run raw) = Ok tt -> exists pre, out_log (run raw) = pre ++ [LVerdict false]).
Proof.
  split.
  - intros Hin. assert (Hok : log_ok (fun l => l <> LVerdict true) (run raw)).
    { unfold run, load, detect, sales_stats, shapiro, correlation, hypothesis_tests,
        region_step, product_step, interval, report.
      log_ok_split; try discriminate. rewrite p_val_1_not_significant. discriminate. }
    exact (proj1 (Forall_forall _ _) Hok _ Hin eq_refl).
  - apply (run_ends_with_verdict raw tt).
Qed.

(** C20. [stats.shapiro] of line 73 needs three values (scipy 1.14 and
    later): on a well-formed table whose numeric sales column has one or
    two rows, line 74 prints a NaN p-value and the script goes on to the
    end, printing the verdict "not statistically significant". *)
Theorem run_shapiro_small raw d col xs :
  detect_columns (names (normalize_frame raw)) = Ok d ->
  col_lookup (normalize_frame raw) (sales_col d) = [col] -> numeric_values col = Ok xs ->
  (1 <= length xs <= 2)%nat ->
  (forall r, region_col d = Some r -> exists rc, col_lookup (normalize_frame raw) r = [rc]) ->
  (forall p, product_col d = Some p ->
     exists pc, col_lookup (normalize_frame raw) p = [pc] /\ same_kind pc = true) ->
  In (LShapiro None) (out_log (run raw)) /\ out_res (run raw) = Ok tt /\
  exists pre, out_log (run raw) = pre ++ [LVerdict false].
Proof.
  intros Hd Hc Hn Hlen Hr Hp.
  assert (Hne : xs <> []) by (destruct xs; simpl in Hlen; [lia | discriminate]).
  pose proof (run_ok raw d col xs Hd Hc Hn Hne Hr Hp) as H.
  split; [|split; [exact H | exact (run_ends_with_verdict raw tt H)]].
  unfold run. apply (in_log_bind_r _ _ _ _ (load_res raw)).
  apply (in_log_bind_r _ _ _ _ (detect_ok _ _ Hd)).
  apply (in_log_bind_r _ _ _ _ (sales_stats_res _ _ _ _ Hc Hn Hne)). cbv beta iota.
  apply in_log_bind_l. unfold shapiro, Shapiro.shapiro_test.
  replace (Nat.ltb (length xs) 3) with true by (symmetry; apply Nat.ltb_lt; lia). left. reflexivity.
Qed.

(** C21. A sales column holding text is described (line 51) and then
    [mean()] (line 53) raises [TypeError]: the last printed line is the
    description of the text column. *)
Theorem run_text_sales raw s col t :
  detect_sales (normalize_columns (names raw)) = Ok s ->
  col_lookup (normalize_frame raw) s = [col] -> In (VStr t) col ->
  out_res (run raw) = Raise PyTypeError /\
  exists pre, out_log (run raw) = pre ++ [LDescribeObject (length col) (length (py_unique col))].
Proof.
  intros Hs Hc Ht. rewrite <- names_normalize in Hs.
  destruct (detect_res _ _ Hs) as (d & Hd & <-).
  unfold run. rewrite (wbind_Ok_eq _ _ _ (load_res raw)), (wbind_Ok_eq _ _ _ Hd).
  rewrite (sales_stats_text _ _ _ _ Hc Ht), (wbind_Raise_eq _ _ PyTypeError) by reflexivity.
  cbn [out_res out_log]. split; [reflexivity|].
  exists (out_log (load raw) ++ out_log (detect (normalize_frame raw)) ++ [LDescribeHeader]).
  rewrite <- !app_assoc. reflexivity.
Qed.

(** C22. A table with a header row and no data (its columns are of
    object dtype) is described at line 51 as an object column of count
    0 with no unique value; [mean()] and [median()] are NaN, and
    [mode()[0]] (line 55) raises [KeyError], the mode of an empty column
    being an empty series: the description is the last printed line. *)
Theorem run_empty_sales raw s :
  detect_sales (normalize_columns (names raw)) = Ok s ->
  col_lookup (normalize_frame raw) s = [[]] ->
  out_res (run raw) = Raise PyKeyError /\
  exists pre, out_log (run raw) = pre ++ [LDescribeObject 0 0].
Proof.
  intros Hs Hc. rewrite <- names_normalize in Hs.
  destruct (detect_res _ _ Hs) as (d & Hd & <-).
  unfold run. rewrite (wbind_Ok_eq _ _ _ (load_res raw)), (wbind_Ok_eq _ _ _ Hd).
  rewrite (wbind_Raise_eq (sales_stats _ _) _ PyKeyError)
    by (unfold sales_stats; rewrite Hc; reflexivity).
  cbn [out_res out_log]. split; [reflexivity|].
  exists (out_log (load raw) ++ out_log (detect (normalize_frame raw)) ++ [LDescribeHeader]).
  unfold sales_stats. rewrite Hc. cbn [wbind out_log out_res emit lift numeric_values app].
  rewrite <- !app_assoc. reflexivity.
Qed.

(** C28. The script runs to its end on a well-formed table: when the
    sales column is a single numeric column of at least three rows, the
    region name (if any) selects one column and the product name (if
    any) one column of keys of one kind, the run raises nothing and its
    last printed line is the verdict "not statistically significant". *)
Theorem run_completes raw d col xs :
  detect_columns (names (normalize_frame raw)) = Ok d ->
  col_lookup (normalize_frame raw) (sales_col d) = [col] -> numeric_values col = Ok xs ->
  (3 <= length xs)%nat ->
  (forall r, region_col d = Some r -> exists rc, col_lookup (normalize_frame raw) r = [rc]) ->
  (forall p, product_col d = Some p ->
     exists pc, col_lookup (normalize_frame raw) p = [pc] /\ same_kind pc = true) ->
  out_res (run raw) = Ok tt /\ exists pre, out_log (run raw) = pre ++ [LVerdict false].
Proof.
  intros Hd Hc Hn Hlen Hr Hp.
  assert (Hne : xs <> []) by (destruct xs; simpl in Hlen; [lia | discriminate]).
  pose proof (run_ok raw d col xs Hd Hc Hn Hne Hr Hp) as H.
  split; [exact H | exact (run_ends_with_verdict raw tt H)].
Qed.

(** The script on the file a well-formed frame is written to runs as on
    the frame. *)
Lemma run_file_to_csv (df : frame) :
  Csv.csv_ready df = true ->
  exists w, run_file (Csv.to_csv df) = Some w /\
            out_log w = out_log (run df) /\ out_res w = out_res (run df).
Proof.
  intros H. unfold run_file. rewrite Csv.read_csv_to_csv by exact H.
  eexists. split; [reflexivity|]. split; reflexivity.
Qed.

(** A file without a non-blank line stops the script at line 17, before
    anything is printed. *)
Lemma run_file_empty (text : pystr) :
  Csv.csv_lines text = [] ->
  run_file text = Some (mk_out [] (Raise PyEmptyDataError)).
Proof. intros E. unfold run_file, Csv.read_csv. rewrite E. reflexivity. Qed.

End Run.

(** ** Witnesses *)

(** A table without a sales-like header. *)
Definition nosales_raw : frame :=
  [(kw "Region", [VStr (kw "N")]); (kw "Unit Price", [VNum 3])].

Lemma run_no_sales_witness :
  (forall c, In c (names nosales_raw) -> matches_any sales_keywords (py_lower c) = false) /\
  run (TD := toy_tdist) (FD := toy_fdist) (ND := toy_normdist) nosales_raw =
  mk_out [LColumnsHeader; LColumns (normalize_columns (names nosales_raw))]
         (Raise (PyException no_sales_msg)).
Proof.
  assert (H : forall c, In c (names nosales_raw) -> matches_any sales_keywords (py_lower c) = false)
    by (intros c [<-|[<-|[]]]; vm_compute; reflexivity).
  split; [exact H | apply (@run_no_sales toy_tdist toy_fdist toy_normdist nosales_raw H)].
Defined.

(** A table the script runs to the end. *)
Definition full_raw : frame :=
  [(kw " Total Sales", [VNum 10; VNum 20; VNum 30; VNum 40]);
   (kw "Region", [VStr (kw "N"); VStr (kw "S"); VStr (kw "N"); VStr (kw "S")]);
   (kw "Product Category", [VStr (kw "a"); VStr (kw "b"); VStr (kw "a"); VStr (kw "c")])].

Lemma run_never_significant_witness :
  out_res (run (TD := toy_tdist) (FD := toy_fdist) (ND := toy_normdist) full_raw) = Ok tt /\
  exists pre, out_log (run (TD := toy_tdist) (FD := toy_fdist) (ND := toy_normdist) full_raw) = pre ++ [LVerdict false].
Proof.
  assert (H : out_res (run (TD := toy_tdist) (FD := toy_fdist) (ND := toy_normdist) full_raw) = Ok tt) by (vm_compute; reflexivity).
  split; [exact H | apply (proj2 (@run_never_significant toy_tdist toy_fdist toy_normdist full_raw) H)].
Defined.

(** Two sales values. *)
Definition two_rows_raw : frame := [(kw "Sales", [VNum 10; VNum 20])].

Definition two_rows_detected : detected :=
  {| sales_col := kw "sales"; region_col := None; product_col := None |}.

Lemma run_shapiro_small_witness :
  detect_columns (names (normalize_frame two_rows_raw)) = Ok two_rows_detected /\
  col_lookup (normalize_frame two_rows_raw) (sales_col two_rows_detected) = [[VNum 10; VNum 20]] /\
  numeric_values [VNum 10; VNum 20] = Ok [10; 20]%Q /\
  In (LShapiro None) (out_log (run (TD := toy_tdist) (FD := toy_fdist) (ND := toy_normdist) two_rows_raw)).
Proof.
  assert (Hd : detect_columns (names (normalize_frame two_rows_raw)) = Ok two_rows_detected)
    by (vm_compute; reflexivity).
  assert (Hc : col_lookup (normalize_frame two_rows_raw) (sales_col two_rows_detected) = [[VNum 10; VNum 20]])
    by (vm_compute; reflexivity).
  assert (Hn : numeric_values [VNum 10; VNum 20] = Ok [10; 20]%Q) by reflexivity.
  split; [exact Hd|]. split; [exact Hc|]. split; [exact Hn|].
  apply (proj1 (@run_shapiro_small toy_tdist toy_fdist toy_normdist two_rows_raw two_rows_detected
                  _ [10; 20]%Q Hd Hc Hn ltac:(simpl; lia)
                  ltac:(intros r Hr; discriminate) ltac:(intros p Hp; discriminate))).
Defined.

(** A sales column with a text cell. *)
Definition text_raw : frame := [(kw "Sales", [VNum 10; VStr (kw "n/a")])].

Lemma run_text_sales_witness :
  In (VStr (kw "n/a")) [VNum 10; VStr (kw "n/a")] /\
  out_res (run (TD := toy_tdist) (FD := toy_fdist) (ND := toy_normdist) text_raw) = Raise PyTypeError /\
  exists pre, out_log (run (TD := toy_tdist) (FD := toy_fdist) (ND := toy_normdist) text_raw) = pre ++ [LDescribeObject 2 2].
Proof.
  split; [right; left; reflexivity|].
  apply (@run_text_sales toy_tdist toy_fdist toy_normdist text_raw (kw "sales") [VNum 10; VStr (kw "n/a")] (kw "n/a"));
    [vm_compute; reflexivity | vm_compute; reflexivity | right; left; reflexivity].
Defined.

(** The detection on [full_raw]. *)
Definition full_detected : detected :=
  {| sales_col := kw "total_sales"; region_col := Some (kw "region");
     product_col := Some (kw "product_category") |}.

Lemma run_completes_witness :
  detect_columns (names (normalize_frame full_raw)) = Ok full_detected /\
  col_lookup (normalize_frame full_raw) (sales_col full_detected) =
    [[VNum 10; VNum 20; VNum 30; VNum 40]] /\
  out_res (run (TD := toy_tdist) (FD := toy_fdist) (ND := toy_normdist) full_raw) = Ok tt.
Proof.
  assert (Hd : detect_columns (names (normalize_frame full_raw)) = Ok full_detected)
    by (vm_compute; reflexivity).
  assert (Hc : col_lookup (normalize_frame full_raw) (sales_col full_detected) =
                 [[VNum 10; VNum 20; VNum 30; VNum 40]]) by (vm_compute; reflexivity).
  split; [exact Hd|]. split; [exact Hc|].
  apply (proj1 (@run_completes toy_tdist toy_fdist toy_normdist full_raw full_detected _ [10; 20; 30; 40]%Q
                  Hd Hc eq_refl ltac:(simpl; lia)
                  ltac:(intros r Hr; injection Hr as <-; eexists; vm_compute; reflexivity)
                  ltac:(intros p Hp; injection Hp as <-; eexists; split; vm_compute; reflexivity))).
Defined.

(** A header row and no data. *)
Definition empty_raw : frame := [(kw "Revenue", [])].

Lemma run_empty_sales_witness :
  col_lookup (normalize_frame empty_raw) (kw "revenue") = [[]] /\
  out_res (run (TD := toy_tdist) (FD := toy_fdist) (ND := toy_normdist) empty_raw) = Raise PyKeyError /\
  exists pre, out_log (run (TD := toy_tdist) (FD := toy_fdist) (ND := toy_normdist) empty_raw) = pre ++ [LDescribeObject 0 0].
Proof.
  split; [vm_compute; reflexivity|].
  apply (@run_empty_sales toy_tdist toy_fdist toy_normdist empty_raw (kw "revenue")); vm_compute; reflexivity.
Defined.

End Pipeline.
